(** * Bookstore catalog: the data-access layer (db/db.py) and its callers (main.py)

    A shallow embedding of [Database] (db/db.py) and of the book endpoints of
    main.py.  The relational store is a record of row lists; every method of
    [Database] is a computation in a small state-and-exception monad whose
    state holds the store and the list of SQL statements handed to the
    driver, in the order they were issued.  The two statements whose text
    the code puts together at run time, the listing query and the core
    UPDATE, are run by reading that text. *)

From Stdlib Require Import ZArith List Bool Lia Permutation Sorted.
From Stdlib Require Import Floats Ascii.
From stdpp Require Import base decidable option list gmap strings pretty sorting.

Local Open Scope Z_scope.
Set Warnings "-register-all".

(** ** Values and rows *)

(** [datetime.date] *)
Record date := Date { year : Z; month : Z; day : Z }.

(** A value handed to the driver as a bound parameter ([*params]). *)
Inductive val :=
| VNull
| VInt (z : Z)
| VText (s : string)
| VFloat (f : float)
| VDate (d : date)
| VInts (l : list Z)
| VDict (kv : list (string * val)).

Definition opt_val {A} (f : A -> val) (o : option A) : val :=
  match o with Some a => f a | None => VNull end.

(** What [conn.fetch], [conn.fetchrow] and [conn.execute] receive: the query
    text and the arguments bound to [$1], [$2], ... *)
Record Stmt := mkStmt { text : string; args : list val }.

Record AuthorRow := mkAuthor { a_id : Z; a_name : string; a_bio : option string }.

Record CategoryRow := mkCategory { c_id : Z; c_name : string }.

(** A row of [books].  The five core columns are stored as SQL values that
    may be NULL ([None]). *)
Record BookRow := mkBook {
  b_id : Z;
  b_title : option string;
  b_description : option string;
  b_price : option float;
  b_author_id : option Z;
  b_published_date : option date
}.

Record LogRow := mkLog {
  l_user_id : option Z;
  l_action : string;
  l_details : list (string * val)
}.

(** The tables the book operations touch, and the sequence behind
    [books.id].  A row of [book_categories] is the pair
    [(book_id, category_id)]. *)
Record Store := mkStore {
  authors : list AuthorRow;
  categories : list CategoryRow;
  books : list BookRow;
  book_categories : list (Z * Z);
  logs : list LogRow;
  books_id_seq : Z
}.

(** The rows of a store, without the sequence. *)
Definition tables (s : Store) :=
  (authors s, categories s, books s, book_categories s, logs s).

(** [{'id': ..., 'name': ...}], an element of a book's [categories] list. *)
Record CategoryLite := mkLite { cl_id : Z; cl_name : string }.

(** A book row as the listing and single-book queries select it (the row of
    [books] with [a.name as author_name]), and the dict returned to the
    caller once [categories] has been attached. *)
Record ListRow := mkListRow { lr_book : BookRow; lr_author_name : string }.

Record BookFull := mkFull {
  bk : BookRow;
  author_name : string;
  bk_categories : list CategoryLite
}.

(** ** The database the code runs against *)

(** Modelled from the spec: the schema of the six tables is not in the
    repository, and PostgreSQL itself is outside it.  The constraints a
    row must pass, the collation of [ORDER BY b.title] and the text-search
    match are left open as parameters.  For the delete the spec names two
    behaviours, "the association rows for that book become orphaned unless
    the storage layer cascades"; [on_delete_cascade] chooses between
    them.

    The queries that look one row up, and the category query of
    [get_book_by_id], are read in the nested-loop order of their FROM
    clause over the tables in insertion order.  The two queries of the
    listing are given no such order: the first sorts by title only and the
    second has no ORDER BY, so their rows come in the order the plan of the
    server produces them, [scan], which is some permutation. *)
Record Backend := mkBackend {
  (** constraints checked on a row written to [books] by INSERT or UPDATE *)
  books_check : Store -> BookRow -> bool;
  (** constraints checked on a row inserted into [book_categories] *)
  book_categories_check : Store -> Z * Z -> bool;
  (** constraints (and argument encoding) checked on a row inserted into [logs] *)
  logs_check : Store -> LogRow -> bool;
  (** whether deleting a book cascades to its [book_categories] rows *)
  on_delete_cascade : bool;
  (** [x <= y] in the collation of [books.title] *)
  collate_leb : string -> string -> bool;
  (** [to_tsvector('english', doc) @@ plainto_tsquery('english', q)] *)
  fts_match : string -> string -> bool;
  (** the order in which the rows selected by a statement are produced,
      before an ORDER BY of the statement sorts them *)
  scan : forall A : Type, Stmt -> list A -> list A;
  scan_perm : forall (A : Type) (q : Stmt) (l : list A), scan A q l ≡ₚ l
}.

(** ** Exceptions, outcomes, the monad *)

Inductive Exn :=
| HTTPException (status_code : Z) (detail : string)
| PostgresError (stmt : Stmt).

Inductive outcome (A : Type) :=
| Return (a : A)
| Raise (e : Exn).
Arguments Return {A} a.
Arguments Raise {A} e.

Record World := mkWorld { store : Store; issued : list Stmt }.

Definition IO (A : Type) : Type := World -> outcome A * World.

Definition ret {A} (a : A) : IO A := fun w => (Return a, w).

Definition raise {A} (e : Exn) : IO A := fun w => (Raise e, w).

Definition bind {A B} (m : IO A) (k : A -> IO B) : IO B :=
  fun w =>
    match m w with
    | (Return a, w') => k a w'
    | (Raise e, w') => (Raise e, w')
    end.

Notation "x <- m ;; k" := (bind m (fun x => k))
  (at level 100, m at next level, right associativity).
Notation "m ;;; k" := (bind m (fun _ => k))
  (at level 100, right associativity).

(** [for x in xs: body(x)] *)
Fixpoint for_each {A} (xs : list A) (body : A -> IO unit) : IO unit :=
  match xs with
  | [] => ret tt
  | x :: xs' => body x ;;; for_each xs' body
  end.

(** The driver records the statement, then the server runs it.  A SELECT
    reads the store. *)
Definition fetch {A} (q : Stmt) (rows : Store -> A) : IO A :=
  fun w => (Return (rows (store w)),
            mkWorld (store w) (issued w ++ [q])).

(** Rolling back restores every table; a sequence keeps the values it has
    handed out. *)
Definition rolled_back (before now : Store) : Store :=
  mkStore (authors before) (categories before) (books before)
          (book_categories before) (logs before) (books_id_seq now).

(** A statement that can fail either yields a value and a new store, or
    fails: the driver raises, and the statement leaves no rows behind
    ([burn] is what it may still have consumed of the sequence). *)
Inductive effect (A : Type) :=
| Done (a : A) (s' : Store)
| Failed (burn : Store).
Arguments Done {A} a s'.
Arguments Failed {A} burn.

Definition execute {A} (q : Stmt) (run : Store -> effect A) : IO A :=
  fun w =>
    match run (store w) with
    | Done a s' => (Return a, mkWorld s' (issued w ++ [q]))
    | Failed s' =>
        (Raise (PostgresError q),
         mkWorld (rolled_back (store w) s') (issued w ++ [q]))
    end.

(** [async with conn.transaction(): body] *)
Definition transaction {A} (body : IO A) : IO A :=
  fun w =>
    match body w with
    | (Return a, w') => (Return a, w')
    | (Raise e, w') =>
        (Raise e, mkWorld (rolled_back (store w) (store w')) (issued w'))
    end.

(** ** Python helpers *)

(** [sep.join(parts)] *)
Fixpoint join (sep : string) (parts : list string) : string :=
  match parts with
  | [] => EmptyString
  | [p] => p
  | p :: rest => p +:+ sep +:+ join sep rest
  end.

(** Truthiness of an [Optional[str]]: [None] and [''] are falsy. *)
Definition truthy_str (o : option string) : option string :=
  match o with
  | Some s => if decide (s = EmptyString) then None else Some s
  | None => None
  end.

(** Truthiness of an [Optional[int]]: [None] and [0] are falsy. *)
Definition truthy_int (o : option Z) : option Z :=
  match o with
  | Some z => if decide (z = 0) then None else Some z
  | None => None
  end.

(** The ids that [if ids: for cid in ids: ...] iterates over: none when
    [ids] is [None] or [[]]. *)
Definition truthy_list (o : option (list Z)) : list Z :=
  match o with
  | Some l => l
  | None => []
  end.

(** [s[-1]] of a non-empty string. *)
Fixpoint last_char (s : string) : option Ascii.ascii :=
  match s with
  | EmptyString => None
  | String c EmptyString => Some c
  | String _ rest => last_char rest
  end.

(** ** Reading a statement

    PostgreSQL and the driver are outside the repository.  This is the
    part of their behaviour that the statements built at run time rely on:
    the server reads the text it is handed, and [$n] stands for the n-th
    argument of the call. *)

(** [s] without the prefix [p], when it starts with it. *)
Fixpoint strip_prefix (p s : string) : option string :=
  match p, s with
  | EmptyString, _ => Some s
  | String c p', String c' s' =>
      if Ascii.eqb c c' then strip_prefix p' s' else None
  | String _ _, EmptyString => None
  end.

Definition digit (c : Ascii.ascii) : option Z :=
  let n := Z.of_N (Ascii.N_of_ascii c) - 48 in
  if (0 <=? n) && (n <=? 9) then Some n else None.

(** The decimal digits at the head of [s], read onto [acc], and what
    follows them. *)
Fixpoint digits (acc : Z) (s : string) : Z * string :=
  match s with
  | String c s' =>
      match digit c with
      | Some d => digits (10 * acc + d) s'
      | None => (acc, s)
      end
  | EmptyString => (acc, s)
  end.

(** An unsigned numeral (at least one digit) at the head of [s]. *)
Definition number (s : string) : option (Z * string) :=
  match s with
  | String c _ =>
      match digit c with
      | Some _ => Some (digits 0 s)
      | None => None
      end
  | EmptyString => None
  end.

(** A numeral with an optional minus sign. *)
Definition integer (s : string) : option (Z * string) :=
  match s with
  | String c s' =>
      if Ascii.eqb c "-"
      then (fun nr : Z * string => (- nr.1, nr.2)) <$> number s'
      else number s
  | EmptyString => None
  end.

(** The argument bound to [$n]. *)
Definition param (args : list val) (n : Z) : option val :=
  if decide (1 <= n) then args !! Z.to_nat (n - 1) else None.

(** Every argument is bound to a placeholder of the text: the driver
    refuses a call with arguments the statement has no placeholder for. *)
Definition all_bound (placeholders : list Z) (args : list val) : bool :=
  forallb (fun i => bool_decide (Z.of_nat i + 1 ∈ placeholders))
          (seq 0 (length args)).

(** ** db/db.py: class Database *)

Module db.

Section Database.
Context (pg : Backend).

(** *** Authors and categories *)

Definition get_author_by_id (author_id : Z) : IO (option AuthorRow) :=
  fetch (mkStmt "SELECT id, name, bio FROM authors WHERE id=$1" [VInt author_id])
        (fun s => head (filter (fun a => a_id a = author_id) (authors s))).

Definition get_category_by_id (category_id : Z) : IO (option CategoryRow) :=
  fetch (mkStmt "SELECT id, name FROM categories WHERE id=$1" [VInt category_id])
        (fun s => head (filter (fun c => c_id c = category_id) (categories s))).

(** *** Books: reading one *)

(** [FROM books b JOIN authors a ON b.author_id = a.id], selecting the
    columns of [b] and [a.name as author_name]. *)
Definition books_join_authors (s : Store) : list ListRow :=
  b ← books s;
  (fun a => mkListRow b (a_name a))
    <$> filter (fun a => b_author_id b = Some (a_id a)) (authors s).

(** [SELECT c.id, c.name FROM categories c JOIN book_categories bc
     ON c.id = bc.category_id WHERE bc.book_id = $1] *)
Definition categories_of_book (book_id : Z) (s : Store) : list CategoryLite :=
  c ← categories s;
  (fun _ => mkLite (c_id c) (c_name c))
    <$> filter (fun bc : Z * Z => c_id c = bc.2 /\ bc.1 = book_id)
               (book_categories s).

Definition get_book_sql : string :=
  "
                SELECT b.id, b.title, b.description, b.price, b.author_id, b.published_date, a.name as author_name
                FROM books b
                JOIN authors a ON b.author_id = a.id
                WHERE b.id=$1
                ".

Definition get_book_categories_sql : string :=
  "SELECT c.id, c.name FROM categories c JOIN book_categories bc ON c.id = bc.category_id WHERE bc.book_id = $1".

Definition get_book_by_id (book_id : Z) : IO (option BookFull) :=
  row <- fetch (mkStmt get_book_sql [VInt book_id])
           (fun s => head (filter (fun r => b_id (lr_book r) = book_id)
                                  (books_join_authors s))) ;;
  match row with
  | None => ret None
  | Some r =>
      cat_rows <- fetch (mkStmt get_book_categories_sql [VInt book_id])
                    (categories_of_book book_id) ;;
      ret (Some (mkFull (lr_book r) (lr_author_name r) cat_rows))
  end.

(** *** Books: creating *)

Definition insert_book_sql : string :=
  "INSERT INTO books(title, description, price, author_id, published_date) VALUES ($1, $2, $3, $4, $5) RETURNING id, title, description, price, author_id, published_date".

Definition insert_book_category_sql : string :=
  "INSERT INTO book_categories(book_id, category_id) VALUES ($1, $2)".

Definition with_seq (s : Store) (n : Z) : Store :=
  mkStore (authors s) (categories s) (books s) (book_categories s) (logs s) n.

Definition with_books (s : Store) (bs : list BookRow) : Store :=
  mkStore (authors s) (categories s) bs (book_categories s) (logs s)
          (books_id_seq s).

Definition with_book_categories (s : Store) (bcs : list (Z * Z)) : Store :=
  mkStore (authors s) (categories s) (books s) bcs (logs s) (books_id_seq s).

Definition with_logs (s : Store) (ls : list LogRow) : Store :=
  mkStore (authors s) (categories s) (books s) (book_categories s) ls
          (books_id_seq s).

(** The INSERT draws the next id from the sequence, then the row is checked
    against the constraints of [books]. *)
Definition insert_book (title description : string) (price : float)
    (author_id : Z) (published_date : date) (s : Store) : effect BookRow :=
  let id := books_id_seq s + 1 in
  let row := mkBook id (Some title) (Some description) (Some price)
                    (Some author_id) (Some published_date) in
  if books_check pg s row
  then Done row (with_seq (with_books s (books s ++ [row])) id)
  else Failed (with_seq s id).

Definition insert_book_category (book_id cid : Z) (s : Store) : effect unit :=
  if book_categories_check pg s (book_id, cid)
  then Done tt (with_book_categories s (book_categories s ++ [(book_id, cid)]))
  else Failed s.

Definition create_book (title description : string) (price : float)
    (author_id : Z) (published_date : date) (category_ids : list Z)
  : IO BookRow :=
  row <- transaction (
    row <- execute (mkStmt insert_book_sql
                      [VText title; VText description; VFloat price;
                       VInt author_id; VDate published_date])
             (insert_book title description price author_id published_date) ;;
    let book_id := b_id row in
    for_each category_ids (fun cid =>
      execute (mkStmt insert_book_category_sql [VInt book_id; VInt cid])
              (insert_book_category book_id cid)) ;;;
    ret row) ;;
  ret row.

(** *** Books: updating *)

(** One [if field is not None:] block of [update_book]: append
    [f'name=${idx}'] and the value, and advance [idx]. *)
Definition add_field {A} (name : string) (inj : A -> val) (field : option A)
    (acc : list string * list val * Z) : list string * list val * Z :=
  let '(up_fields, params, idx) := acc in
  match field with
  | Some v => (up_fields ++ [name +:+ "=$" +:+ pretty idx],
               params ++ [inj v], idx + 1)
  | None => acc
  end.

Definition update_fields (title description : option string)
    (price : option float) (author_id : option Z)
    (published_date : option date) : list string * list val * Z :=
  add_field "published_date" VDate published_date
    (add_field "author_id" VInt author_id
       (add_field "price" VFloat price
          (add_field "description" VText description
             (add_field "title" VText title ([], [], 1))))).

(** The update the supplied values call for: each supplied column of the
    row takes its value, the others keep theirs. *)
Definition set_columns (title description : option string)
    (price : option float) (author_id : option Z)
    (published_date : option date) (r : BookRow) : BookRow :=
  mkBook (b_id r)
    (match title with Some v => Some v | None => b_title r end)
    (match description with Some v => Some v | None => b_description r end)
    (match price with Some v => Some v | None => b_price r end)
    (match author_id with Some v => Some v | None => b_author_id r end)
    (match published_date with Some v => Some v | None => b_published_date r end).

(** The server's side of the core update.  It reads
    [UPDATE books SET col=$i, ... WHERE id=$n]: the columns are those of
    [books] other than [id], no column is assigned twice, the placeholder
    of an assignment has an argument of the type of its column or NULL,
    that of the WHERE clause an integer, and every argument has a
    placeholder. *)
Inductive Column := Title | Description | Price | AuthorId | PublishedDate.

#[global] Instance Column_eq_dec : EqDecision Column.
Proof. solve_decision. Defined.

Record Update := mkUpdate {
  upd_set : list (Column * Z);  (** [col=$i], in the order written *)
  upd_where : Z                 (** [WHERE id=$n] *)
}.

Definition parse_column (s : string) : option (Column * string) :=
  match strip_prefix "title" s with
  | Some r => Some (Title, r)
  | None =>
  match strip_prefix "description" s with
  | Some r => Some (Description, r)
  | None =>
  match strip_prefix "price" s with
  | Some r => Some (Price, r)
  | None =>
  match strip_prefix "author_id" s with
  | Some r => Some (AuthorId, r)
  | None =>
  match strip_prefix "published_date" s with
  | Some r => Some (PublishedDate, r)
  | None => None
  end end end end end.

(** [col=$i] *)
Definition parse_assignment (s : string) : option (Column * Z * string) :=
  cr ← parse_column s;
  r ← strip_prefix "=$" cr.2;
  nr ← number r;
  Some (cr.1, nr.1, nr.2).

(** Assignments separated by [", "]; [fuel] bounds their number. *)
Fixpoint parse_assignments (fuel : nat) (s : string)
  : option (list (Column * Z) * string) :=
  match fuel with
  | O => None
  | S fuel =>
      ar ← parse_assignment s;
      match strip_prefix ", " ar.2 with
      | Some r =>
          (fun rest : list (Column * Z) * string => (ar.1 :: rest.1, rest.2))
            <$> parse_assignments fuel r
      | None => Some ([ar.1], ar.2)
      end
  end.

Definition parse_update (text : string) : option Update :=
  r ← strip_prefix "UPDATE books SET " text;
  ar ← parse_assignments (String.length r) r;
  r ← strip_prefix " WHERE id=$" ar.2;
  nr ← number r;
  if decide (nr.2 = EmptyString) then Some (mkUpdate ar.1 nr.1) else None.

(** What assigning the value [v] to the column [col] does to a row; [None]
    when the value is not of the type of the column. *)
Definition assign (col : Column) (v : val) : option (BookRow -> BookRow) :=
  match col, v with
  | Title, VText x =>
      Some (fun r => mkBook (b_id r) (Some x) (b_description r) (b_price r)
                            (b_author_id r) (b_published_date r))
  | Title, VNull =>
      Some (fun r => mkBook (b_id r) None (b_description r) (b_price r)
                            (b_author_id r) (b_published_date r))
  | Description, VText x =>
      Some (fun r => mkBook (b_id r) (b_title r) (Some x) (b_price r)
                            (b_author_id r) (b_published_date r))
  | Description, VNull =>
      Some (fun r => mkBook (b_id r) (b_title r) None (b_price r)
                            (b_author_id r) (b_published_date r))
  | Price, VFloat x =>
      Some (fun r => mkBook (b_id r) (b_title r) (b_description r) (Some x)
                            (b_author_id r) (b_published_date r))
  | Price, VNull =>
      Some (fun r => mkBook (b_id r) (b_title r) (b_description r) None
                            (b_author_id r) (b_published_date r))
  | AuthorId, VInt x =>
      Some (fun r => mkBook (b_id r) (b_title r) (b_description r) (b_price r)
                            (Some x) (b_published_date r))
  | AuthorId, VNull =>
      Some (fun r => mkBook (b_id r) (b_title r) (b_description r) (b_price r)
                            None (b_published_date r))
  | PublishedDate, VDate x =>
      Some (fun r => mkBook (b_id r) (b_title r) (b_description r) (b_price r)
                            (b_author_id r) (Some x))
  | PublishedDate, VNull =>
      Some (fun r => mkBook (b_id r) (b_title r) (b_description r) (b_price r)
                            (b_author_id r) None)
  | _, _ => None
  end.

(** Running the UPDATE it is handed: the rows whose id is the argument of
    the WHERE clause get the assignments of the SET clause, in order, and
    are then checked against the constraints of [books]. *)
Definition update_books (q : Stmt) (s : Store) : effect unit :=
  match parse_update (text q) with
  | None => Failed s
  | Some u =>
      match mapM (fun cn : Column * Z => param (args q) cn.2 ≫= assign cn.1)
                 (upd_set u),
            param (args q) (upd_where u) with
      | Some assignments, Some (VInt book_id) =>
          if bool_decide (NoDup (fst <$> upd_set u))
             && all_bound (upd_where u :: (snd <$> upd_set u)) (args q)
          then
            let set r := foldl (fun r f => f r) r assignments in
            if forallb (fun r => books_check pg s (set r))
                       (filter (fun r => b_id r = book_id) (books s))
            then Done tt (with_books s
                    ((fun r => if decide (b_id r = book_id) then set r else r)
                       <$> books s))
            else Failed s
          else Failed s
      | _, _ => Failed s
      end
  end.

Definition delete_book_categories (book_id : Z) (s : Store) : effect unit :=
  Done tt (with_book_categories s
             (filter (fun bc : Z * Z => bc.1 <> book_id) (book_categories s))).

(** The block under [# Update book core]. *)
Definition update_book_core (book_id : Z) (title description : option string)
    (price : option float) (author_id : option Z)
    (published_date : option date) : IO unit :=
  let '(up_fields, params, idx) :=
    update_fields title description price author_id published_date in
  let set_part := join ", " up_fields in
  if decide (set_part = EmptyString) then ret tt
  else
    let q := "UPDATE books SET " +:+ set_part +:+ " WHERE id=$" +:+ pretty idx in
    execute (mkStmt q (params ++ [VInt book_id]))
      (update_books (mkStmt q (params ++ [VInt book_id]))).

(** The block under [# Update categories if needed]. *)
Definition update_book_categories (book_id : Z)
    (category_ids : option (list Z)) : IO unit :=
  match category_ids with
  | Some cids =>
      execute (mkStmt "DELETE FROM book_categories WHERE book_id=$1"
                      [VInt book_id])
              (delete_book_categories book_id) ;;;
      for_each cids (fun cid =>
        execute (mkStmt insert_book_category_sql [VInt book_id; VInt cid])
                (insert_book_category book_id cid))
  | None => ret tt
  end.

Definition update_book (book_id : Z) (title description : option string)
    (price : option float) (author_id : option Z)
    (published_date : option date) (category_ids : option (list Z))
  : IO (option BookRow) :=
  transaction (
    update_book_core book_id title description price author_id
                     published_date ;;;
    update_book_categories book_id category_ids ;;;
    fetch (mkStmt "SELECT * FROM books WHERE id=$1" [VInt book_id])
          (fun s => head (filter (fun r => b_id r = book_id) (books s)))).

(** *** Books: deleting *)

(** [DELETE FROM books WHERE id=$1]; the value is the command status
    ['DELETE n'] that [conn.execute] returns. *)
Definition delete_from_books (book_id : Z) (s : Store) : effect string :=
  let n := length (filter (fun r => b_id r = book_id) (books s)) in
  let s1 := with_books s (filter (fun r => b_id r <> book_id) (books s)) in
  let s2 :=
    if on_delete_cascade pg && negb (Nat.eqb n 0)
    then with_book_categories s1
           (filter (fun bc : Z * Z => bc.1 <> book_id) (book_categories s1))
    else s1 in
  Done ("DELETE " +:+ pretty n) s2.

Definition delete_book (book_id : Z) : IO bool :=
  result <- execute (mkStmt "DELETE FROM books WHERE id=$1" [VInt book_id])
              (delete_from_books book_id) ;;
  ret (negb (bool_decide (last_char result = Some "0"%char))).

(** *** Books: listing *)

Definition list_books_base_sql : string :=
  "SELECT b.id, b.title, b.description, b.price, b.author_id, b.published_date, a.name as author_name FROM books b JOIN authors a ON b.author_id = a.id".

Definition fts_where (idx : Z) : string :=
  "to_tsvector('english', b.title || ' ' || b.description) @@ plainto_tsquery('english', $"
    +:+ pretty idx +:+ ")".

(** The query builder of [list_books]: the text and the bound
    parameters handed to [conn.fetch(sql, *params)]. *)
Definition list_books_sql (author_id category_id : option Z)
    (search : option string) (limit offset : Z) : Stmt :=
  let query := [list_books_base_sql] in
  let wheres : list string := [] in
  let params : list val := [] in
  let idx := 1 in
  let '(wheres, params, idx) :=
    match author_id with
    | Some a => (wheres ++ ["b.author_id=$" +:+ pretty idx],
                 params ++ [VInt a], idx + 1)
    | None => (wheres, params, idx)
    end in
  let '(query, wheres, params, idx) :=
    match category_id with
    | Some c => (query ++ ["JOIN book_categories bc ON b.id = bc.book_id"],
                 wheres ++ ["bc.category_id=$" +:+ pretty idx],
                 params ++ [VInt c], idx + 1)
    | None => (query, wheres, params, idx)
    end in
  let '(wheres, params, idx) :=
    match truthy_str search with
    | Some q => (wheres ++ [fts_where idx], params ++ [VText q], idx + 1)
    | None => (wheres, params, idx)
    end in
  let query :=
    match wheres with
    | [] => query
    | _ => query ++ ["WHERE " +:+ join " AND " wheres]
    end in
  let query :=
    query ++ ["ORDER BY b.title LIMIT " +:+ pretty limit
                +:+ " OFFSET " +:+ pretty offset] in
  mkStmt (join " " query) params.

(** The server's side of the listing.  It reads the select list and FROM
    clause of the listing, an optional join with [book_categories], an
    optional WHERE clause of predicates joined by AND, then
    [ORDER BY b.title LIMIT n OFFSET m]. *)
Inductive Cond :=
| AuthorIdIs (n : Z)      (** [b.author_id=$n] *)
| CategoryIdIs (n : Z)    (** [bc.category_id=$n] *)
| TextMatches (n : Z).    (** [to_tsvector(...) @@ plainto_tsquery('english', $n)] *)

Record Select := mkSelect {
  sel_join_bc : bool;     (** [JOIN book_categories bc ON b.id = bc.book_id] *)
  sel_where : list Cond;
  sel_limit : Z;
  sel_offset : Z
}.

Definition placeholder (c : Cond) : Z :=
  match c with AuthorIdIs n | CategoryIdIs n | TextMatches n => n end.

Definition parse_cond (s : string) : option (Cond * string) :=
  match strip_prefix "b.author_id=$" s with
  | Some r => (fun nr : Z * string => (AuthorIdIs nr.1, nr.2)) <$> number r
  | None =>
  match strip_prefix "bc.category_id=$" s with
  | Some r => (fun nr : Z * string => (CategoryIdIs nr.1, nr.2)) <$> number r
  | None =>
      r ← strip_prefix
            "to_tsvector('english', b.title || ' ' || b.description) @@ plainto_tsquery('english', $"
            s;
      nr ← number r;
      r' ← strip_prefix ")" nr.2;
      Some (TextMatches nr.1, r')
  end end.

(** Predicates separated by [" AND "]; [fuel] bounds their number. *)
Fixpoint parse_conds (fuel : nat) (s : string) : option (list Cond * string) :=
  match fuel with
  | O => None
  | S fuel =>
      cr ← parse_cond s;
      match strip_prefix " AND " cr.2 with
      | Some r =>
          (fun rest : list Cond * string => (cr.1 :: rest.1, rest.2))
            <$> parse_conds fuel r
      | None => Some ([cr.1], cr.2)
      end
  end.

(** [n OFFSET m], to the end of the text *)
Definition parse_page (s : string) : option (Z * Z) :=
  lr ← integer s;
  r ← strip_prefix " OFFSET " lr.2;
  or ← integer r;
  if decide (or.2 = EmptyString) then Some (lr.1, or.1) else None.

Definition parse_select (text : string) : option Select :=
  r ← strip_prefix
        "SELECT b.id, b.title, b.description, b.price, b.author_id, b.published_date, a.name as author_name FROM books b JOIN authors a ON b.author_id = a.id"
        text;
  let jr :=
    match strip_prefix " JOIN book_categories bc ON b.id = bc.book_id" r with
    | Some r' => (true, r')
    | None => (false, r)
    end in
  wr ← match strip_prefix " WHERE " jr.2 with
       | Some r' => parse_conds (String.length r') r'
       | None => Some ([], jr.2)
       end;
  r ← strip_prefix " ORDER BY b.title LIMIT " wr.2;
  page ← parse_page r;
  Some (mkSelect jr.1 wr.1 page.1 page.2).

(** The FROM clause: books joined with their author and, when
    [book_categories] is joined, with the association rows of the book. *)
Definition list_books_from (join_bc : bool) (s : Store)
  : list (ListRow * option (Z * Z)) :=
  if join_bc then
    r ← books_join_authors s;
    (fun bc => (r, Some bc))
      <$> filter (fun bc : Z * Z => b_id (lr_book r) = bc.1)
                 (book_categories s)
  else (fun r => (r, None)) <$> books_join_authors s.

(** One predicate of the WHERE clause with the value [v] bound to its
    placeholder, as a test on a row of the FROM clause; [None] when the
    value is not of the type the predicate expects, or [bc] is not in the
    FROM clause.  A comparison with NULL holds for no row. *)
Definition cond_test (join_bc : bool) (c : Cond) (v : val)
  : option (ListRow * option (Z * Z) -> bool) :=
  match c, v with
  | AuthorIdIs _, VInt a =>
      Some (fun row => bool_decide (b_author_id (lr_book row.1) = Some a))
  | AuthorIdIs _, VNull => Some (fun _ => false)
  | CategoryIdIs _, VInt y =>
      if join_bc
      then Some (fun row => match row.2 with
                            | Some bc => bool_decide (bc.2 = y)
                            | None => false
                            end)
      else None
  | CategoryIdIs _, VNull => if join_bc then Some (fun _ => false) else None
  | TextMatches _, VText phrase =>
      Some (fun row =>
              match b_title (lr_book row.1), b_description (lr_book row.1) with
              | Some t, Some d => fts_match pg (t +:+ " " +:+ d) phrase
              | _, _ => false
              end)
  | TextMatches _, VNull => Some (fun _ => false)
  | _, _ => None
  end.

(** [ORDER BY b.title]: ascending in the collation of the column, NULLs
    last. *)
Definition null_last_leb (leb : string -> string -> bool)
    (x y : option string) : bool :=
  match x, y with
  | _, None => true
  | None, Some _ => false
  | Some a, Some b => leb a b
  end.

Definition title_le (x y : BookRow) : Prop :=
  null_last_leb (collate_leb pg) (b_title x) (b_title y).

Definition row_title_le (x y : ListRow) : Prop :=
  title_le (lr_book x) (lr_book y).

#[global] Instance row_title_le_dec : RelDecision row_title_le.
Proof. intros x y. unfold row_title_le, title_le. apply _. Defined.

(** Running the listing query it is handed: the rows of the FROM clause
    that pass every predicate of the WHERE clause, produced in the order
    of the plan, sorted by title, then cut to the page.  [LIMIT] and
    [OFFSET] reject a negative count. *)
Definition list_books_rows (q : Stmt) (s : Store) : effect (list ListRow) :=
  match parse_select (text q) with
  | None => Failed s
  | Some sel =>
      match mapM (fun c => param (args q) (placeholder c)
                             ≫= cond_test (sel_join_bc sel) c)
                 (sel_where sel) with
      | None => Failed s
      | Some tests =>
          if negb (all_bound (placeholder <$> sel_where sel) (args q))
          then Failed s
          else if decide (sel_limit sel < 0 \/ sel_offset sel < 0)
          then Failed s
          else
            let selected :=
              fst <$> filter (fun row => forallb (fun t => t row) tests)
                             (list_books_from (sel_join_bc sel) s) in
            let ordered := merge_sort row_title_le (scan pg _ q selected) in
            Done (take (Z.to_nat (sel_limit sel))
                       (drop (Z.to_nat (sel_offset sel)) ordered)) s
      end
  end.

Definition list_books_categories_sql : string :=
  "SELECT bc.book_id, c.id, c.name FROM book_categories bc JOIN categories c ON bc.category_id = c.id WHERE bc.book_id = ANY($1::int[])".

(** The rows [(book_id, {id, name})] of the batched category query, in
    the order the plan produces them. *)
Definition categories_of_books (book_ids : list Z) (s : Store)
  : list (Z * CategoryLite) :=
  scan pg _ (mkStmt list_books_categories_sql [VInts book_ids])
    (filter (fun cr : Z * CategoryLite => cr.1 ∈ book_ids)
       (bc ← book_categories s;
        (fun c => (bc.1, mkLite (c_id c) (c_name c)))
          <$> filter (fun c => bc.2 = c_id c) (categories s))).

(** The body of [for cr in cats]: create the entry on first sight of the
    book id, then append to it. *)
Definition group_step (d : gmap Z (list CategoryLite))
    (cr : Z * CategoryLite) : gmap Z (list CategoryLite) :=
  let bkid := cr.1 in
  let d := if decide (is_Some (d !! bkid)) then d else <[bkid := []]> d in
  <[bkid := default [] (d !! bkid) ++ [cr.2]]> d.

Definition list_books (author_id category_id : option Z)
    (search : option string) (limit offset : Z) : IO (list BookFull) :=
  let sql := list_books_sql author_id category_id search limit offset in
  rows <- execute sql (list_books_rows sql) ;;
  let book_ids := (fun r => b_id (lr_book r)) <$> rows in
  match book_ids with
  | [] => ret []
  | _ =>
      cats <- fetch (mkStmt list_books_categories_sql [VInts book_ids])
                (categories_of_books book_ids) ;;
      let d := foldl group_step ∅ cats in
      ret ((fun row =>
              mkFull (lr_book row) (lr_author_name row)
                     (default [] (d !! b_id (lr_book row))))
             <$> rows)
  end.

(** *** Logging *)

Definition insert_log (user_id : option Z) (action : string)
    (details : list (string * val)) (s : Store) : effect unit :=
  let row := mkLog user_id action details in
  if logs_check pg s row then Done tt (with_logs s (logs s ++ [row]))
  else Failed s.

Definition log_action (user_id : option Z) (action : string)
    (details : list (string * val)) : IO unit :=
  execute (mkStmt "INSERT INTO logs(user_id, action, details) VALUES ($1, $2, $3)"
                  [opt_val VInt user_id; VText action; VDict details])
          (insert_log user_id action details).

End Database.

End db.

(** ** main.py: the book endpoints *)

Module main.

(** [BookIn] *)
Record BookIn := mkBookIn {
  title : string;
  description : string;
  price : float;
  author_id : Z;
  published_date : date;
  category_ids : list Z
}.

(** [BookUpdateIn]: every field is optional and defaults to [None]. *)
Record BookUpdateIn := mkBookUpdateIn {
  up_title : option string;
  up_description : option string;
  up_price : option float;
  up_author_id : option Z;
  up_published_date : option date;
  up_category_ids : option (list Z)
}.

(** [BackgroundTasks]: the tasks added so far, oldest first. *)
Definition BackgroundTasks : Type := list (IO unit).

Section Endpoints.
Context (pg : Backend).

(** [for cid in ids: if not await db.get_category_by_id(cid): raise ...] *)
Definition validate_categories (ids : list Z) : IO unit :=
  for_each ids (fun cid =>
    c <- db.get_category_by_id cid ;;
    match c with
    | None => raise (HTTPException 400 ("Invalid category_id " +:+ pretty cid))
    | Some _ => ret tt
    end).

Definition create_book (book : BookIn) : IO (option BookFull) :=
  a <- db.get_author_by_id (author_id book) ;;
  match a with
  | None => raise (HTTPException 400 "Invalid author_id")
  | Some _ =>
      validate_categories (category_ids book) ;;;
      row <- db.create_book pg (title book) (description book) (price book)
               (author_id book) (published_date book) (category_ids book) ;;
      db.get_book_by_id (b_id row)
  end.

Definition get_book (book_id : Z) : IO BookFull :=
  book <- db.get_book_by_id book_id ;;
  match book with
  | None => raise (HTTPException 404 "Book not found")
  | Some b => ret b
  end.

(** [if book_update.author_id and not await db.get_author_by_id(...): raise ...]:
    the author is looked up only when the id is truthy. *)
Definition check_author (author_id : option Z) : IO unit :=
  match truthy_int author_id with
  | Some a =>
      r <- db.get_author_by_id a ;;
      match r with
      | None => raise (HTTPException 400 "Invalid author_id")
      | Some _ => ret tt
      end
  | None => ret tt
  end.

Definition update_book (book_id : Z) (book_update : BookUpdateIn)
  : IO (option BookFull) :=
  check_author (up_author_id book_update) ;;;
  validate_categories (truthy_list (up_category_ids book_update)) ;;;
  b <- db.update_book pg book_id
         (up_title book_update) (up_description book_update)
         (up_price book_update) (up_author_id book_update)
         (up_published_date book_update) (up_category_ids book_update) ;;
  match b with
  | None => raise (HTTPException 404 "Book not found")
  | Some _ => db.get_book_by_id book_id
  end.

Definition delete_book (book_id : Z) : IO bool :=
  ok <- db.delete_book pg book_id ;;
  if ok then ret true
  else raise (HTTPException 404 "Book not found").

(** The body of the listing endpoint: the books are fetched, the audit
    write is added to [background_tasks] (not run), the books are
    returned. *)
Definition list_books (author_id category_id : option Z)
    (search : option string) (limit offset : Z) (user_id : option Z)
    (background_tasks : option BackgroundTasks)
  : IO (list BookFull * option BackgroundTasks) :=
  books <- db.list_books pg author_id category_id search limit offset ;;
  match background_tasks with
  | Some tasks =>
      let details :=
        [("author_id", opt_val VInt author_id);
         ("category_id", opt_val VInt category_id);
         ("search", opt_val VText search);
         ("limit", VInt limit); ("offset", VInt offset)] in
      ret (books, Some (tasks ++ [db.log_action pg user_id "search_books" details]))
  | None => ret (books, None)
  end.

(** [limit: int = Query(50, le=100, gt=0)], [offset: int = Query(0, ge=0)] *)
Definition query_ok (limit offset : Z) : bool :=
  (0 <? limit) && (limit <=? 100) && (0 <=? offset).

(** The framework's side of a request with background tasks: the tasks run
    one after the other once the response is fixed; a task that raises
    ends the run, and its exception is not part of the response. *)
Fixpoint run_background (tasks : BackgroundTasks) (w : World) : World :=
  match tasks with
  | [] => w
  | t :: rest =>
      match t w with
      | (Return _, w') => run_background rest w'
      | (Raise _, w') => w'
      end
  end.

(** [GET /books/]: the framework validates the query, injects a fresh
    [BackgroundTasks], calls the endpoint, answers with what it returns
    and then runs the tasks. *)
Definition list_books_route (author_id category_id : option Z)
    (search : option string) (limit offset : Z) (user_id : option Z)
  : IO (list BookFull) :=
  fun w =>
    if query_ok limit offset then
      match list_books author_id category_id search limit offset user_id
                       (Some []) w with
      | (Return (books, tasks), w') =>
          (Return books, run_background (default [] tasks) w')
      | (Raise e, w') => (Raise e, w')
      end
    else (Raise (HTTPException 422 "Unprocessable Entity"), w).

End Endpoints.

End main.

(** ** Vocabulary of the statements below *)

(** A text that does not go on with a digit. *)
Definition no_digit_ahead (s : string) : Prop :=
  match s with
  | String c _ => digit c = None
  | EmptyString => True
  end.

(** A computation that only reads: whatever it returns or raises, the
    store is the one it started from. *)
Definition read_only {A} (m : IO A) : Prop :=
  forall w, store (m w).2 = store w.

(** The book [get_book_by_id] finds in a store: the first row of the
    book-author join with that id, with the categories of the book. *)
Definition book_view (book_id : Z) (s : Store) : option BookFull :=
  match head (filter (fun r => b_id (lr_book r) = book_id)
                     (db.books_join_authors s)) with
  | None => None
  | Some r =>
      Some (mkFull (lr_book r) (lr_author_name r)
                   (db.categories_of_book book_id s))
  end.

(** The update request with its [category_ids] replaced. *)
Definition with_category_ids (u : main.BookUpdateIn) (cids : option (list Z))
  : main.BookUpdateIn :=
  main.mkBookUpdateIn (main.up_title u) (main.up_description u)
    (main.up_price u) (main.up_author_id u) (main.up_published_date u) cids.

(** No core field is supplied. *)
Definition no_core_field (u : main.BookUpdateIn) : Prop :=
  main.up_title u = None /\ main.up_description u = None
  /\ main.up_price u = None /\ main.up_author_id u = None
  /\ main.up_published_date u = None.

(** The association rows of a book. *)
Definition associations (book_id : Z) (s : Store) : list (Z * Z) :=
  filter (fun bc : Z * Z => bc.1 = book_id) (book_categories s).

(** The categories a book is associated with: its association rows in row
    order, each with the matching rows of [categories] in row order. *)
Definition listed_categories (book_id : Z) (s : Store) : list CategoryLite :=
  bc ← associations book_id s;
  (fun c => mkLite (c_id c) (c_name c))
    <$> filter (fun c => bc.2 = c_id c) (categories s).

(** The rows the listing query returns (none when the server refuses
    it). *)
Definition primary_rows (pg : Backend) (a c : option Z) (q : option string)
    (limit offset : Z) (s : Store) : list ListRow :=
  match db.list_books_rows pg (db.list_books_sql a c q limit offset) s with
  | Done rows _ => rows
  | Failed _ => []
  end.

(** The rows of the FROM clause the filters call for: the category join is
    there when a category is asked for. *)
Definition listing_from (c : option Z) (s : Store)
  : list (ListRow * option (Z * Z)) :=
  db.list_books_from (match c with Some _ => true | None => false end) s.

(** The reading of the WHERE clause the filters call for, on a row of the
    FROM clause. *)
Definition listing_where (pg : Backend) (author_id category_id : option Z)
    (search : option string) (row : ListRow * option (Z * Z)) : bool :=
  let b := lr_book row.1 in
  match author_id with
  | Some a => bool_decide (b_author_id b = Some a)
  | None => true
  end
  &&
  match category_id, row.2 with
  | Some c, Some bc => bool_decide (bc.2 = c)
  | Some _, None => false
  | None, _ => true
  end
  &&
  match truthy_str search with
  | Some q =>
      match b_title b, b_description b with
      | Some t, Some d => fts_match pg (t +:+ " " +:+ d) q
      | _, _ => false
      end
  | None => true
  end.

(** The rows the listing selects, before the plan orders them and the
    ORDER BY sorts them. *)
Definition selected_rows (pg : Backend) (a c : option Z) (q : option string)
    (s : Store) : list ListRow :=
  fst <$> filter (fun row => listing_where pg a c q row) (listing_from c s).

(** The rows of the batched category query that belong to the book [k],
    in the order the query returned them. *)
Definition rows_of_book (k : Z) (cats : list (Z * CategoryLite))
  : list CategoryLite :=
  snd <$> filter (fun cr : Z * CategoryLite => cr.1 = k) cats.

(** The author and search predicates of the WHERE clause do not look at the
    association row. *)
Definition where_author_search (pg : Backend) (a : option Z) (q : option string)
    (b : BookRow) : bool :=
  match a with
  | Some x => bool_decide (b_author_id b = Some x)
  | None => true
  end
  &&
  match truthy_str q with
  | Some phrase =>
      match b_title b, b_description b with
      | Some t, Some d => fts_match pg (t +:+ " " +:+ d) phrase
      | _, _ => false
      end
  | None => true
  end.

(** The conjunction of the active filters, on a row of [books]: the author
    filter, membership of the category through an association row, and the
    text search over title and description. *)
Definition book_matches (pg : Backend) (a c : option Z) (q : option string)
    (s : Store) (b : BookRow) : bool :=
  match a with
  | Some x => bool_decide (b_author_id b = Some x)
  | None => true
  end
  &&
  match c with
  | Some y => bool_decide ((b_id b, y) ∈ book_categories s)
  | None => true
  end
  &&
  match truthy_str q with
  | Some phrase =>
      match b_title b, b_description b with
      | Some t, Some d => fts_match pg (t +:+ " " +:+ d) phrase
      | _, _ => false
      end
  | None => true
  end.

(** The keys and references of the data model: author ids are unique,
    every book references an author, and [book_categories] holds no pair
    twice. *)
Definition store_integrity (s : Store) : Prop :=
  NoDup (a_id <$> authors s)
  /\ Forall (fun b => exists a, a ∈ authors s /\ b_author_id b = Some (a_id a))
            (books s)
  /\ NoDup (book_categories s).

(** [books.id] is a key whose values were drawn from the sequence. *)
Definition id_key (s : Store) : Prop :=
  NoDup (b_id <$> books s)
  /\ Forall (fun r => b_id r <= books_id_seq s) (books s).

(** The collation is a total preorder on titles. *)
Definition collation_total (pg : Backend) : Prop :=
  forall x y, collate_leb pg x y = true \/ collate_leb pg y x = true.

(** The collation is a total order on titles: no two different strings
    compare equal. *)
Definition collation_order (pg : Backend) : Prop :=
  collation_total pg
  /\ (forall x y z, collate_leb pg x y = true -> collate_leb pg y z = true ->
                    collate_leb pg x z = true)
  /\ (forall x y, collate_leb pg x y = true -> collate_leb pg y x = true ->
                  x = y).

(** Two answers of the listing that carry the same books in the same
    order, the categories of each up to their order. *)
Definition same_books (l k : list BookFull) : Prop :=
  Forall2 (fun x y => bk x = bk y /\ author_name x = author_name y
                      /\ bk_categories x ≡ₚ bk_categories y) l k.

(** The same database with another check on the rows of [logs]: the audit
    insert succeeds or fails as [chk] decides. *)
Definition with_logs_check (pg : Backend) (chk : Store -> LogRow -> bool)
  : Backend :=
  mkBackend (books_check pg) (book_categories_check pg) chk
            (on_delete_cascade pg) (collate_leb pg) (fts_match pg)
            (scan pg) (scan_perm pg).

(** The details the listing endpoint logs. *)
Definition search_details (a c : option Z) (q : option string)
    (limit offset : Z) : list (string * val) :=
  [("author_id", opt_val VInt a); ("category_id", opt_val VInt c);
   ("search", opt_val VText q); ("limit", VInt limit); ("offset", VInt offset)].

(** An id that [get_author_by_id], resp. [get_category_by_id], resolves. *)
Definition author_exists (s : Store) (author_id : Z) : Prop :=
  exists a, a ∈ authors s /\ a_id a = author_id.

Definition category_exists (s : Store) (category_id : Z) : Prop :=
  exists c, c ∈ categories s /\ c_id c = category_id.

(** The row [SELECT * FROM books WHERE id=$1] finds. *)
Definition find_book (book_id : Z) (s : Store) : option BookRow :=
  head (filter (fun r => b_id r = book_id) (books s)).

(** The rows of [books] after the columns of the book [book_id] have been
    set. *)
Definition patched (book_id : Z) (t d : option string) (p : option float)
    (a : option Z) (pd : option date) (bs : list BookRow) : list BookRow :=
  (fun r => if decide (b_id r = book_id) then db.set_columns t d p a pd r
            else r) <$> bs.

(** What a partial update may do to a row [r], giving [r']: a column that
    was not supplied keeps its value, *)
Definition keeps_unsupplied (t d : option string) (p : option float)
    (a : option Z) (pd : option date) (r r' : BookRow) : Prop :=
  b_id r' = b_id r
  /\ (t = None -> b_title r' = b_title r)
  /\ (d = None -> b_description r' = b_description r)
  /\ (p = None -> b_price r' = b_price r)
  /\ (a = None -> b_author_id r' = b_author_id r)
  /\ (pd = None -> b_published_date r' = b_published_date r).

(** a column that was supplied holds the supplied value, *)
Definition takes_supplied (t d : option string) (p : option float)
    (a : option Z) (pd : option date) (r' : BookRow) : Prop :=
  (forall v, t = Some v -> b_title r' = Some v)
  /\ (forall v, d = Some v -> b_description r' = Some v)
  /\ (forall v, p = Some v -> b_price r' = Some v)
  /\ (forall v, a = Some v -> b_author_id r' = Some v)
  /\ (forall v, pd = Some v -> b_published_date r' = Some v).

(** and no column that held a value is NULL afterwards. *)
Definition no_new_null (r r' : BookRow) : Prop :=
  (is_Some (b_title r) -> is_Some (b_title r'))
  /\ (is_Some (b_description r) -> is_Some (b_description r'))
  /\ (is_Some (b_price r) -> is_Some (b_price r'))
  /\ (is_Some (b_author_id r) -> is_Some (b_author_id r'))
  /\ (is_Some (b_published_date r) -> is_Some (b_published_date r')).

(** Everything but [book_categories] is the same in both stores. *)
Definition same_but_associations (s s' : Store) : Prop :=
  authors s' = authors s /\ categories s' = categories s
  /\ books s' = books s /\ logs s' = logs s
  /\ books_id_seq s' = books_id_seq s.

(** A request to one of the book endpoints, and the world after serving
    it (the answer dropped). *)
Inductive call :=
| CreateBook (book : main.BookIn)
| GetBook (book_id : Z)
| UpdateBook (book_id : Z) (book_update : main.BookUpdateIn)
| DeleteBook (book_id : Z)
| ListBooks (author_id category_id : option Z) (search : option string)
            (limit offset : Z) (user_id : option Z).

Definition serve (pg : Backend) (w : World) (c : call) : World :=
  match c with
  | CreateBook book => (main.create_book pg book w).2
  | GetBook book_id => (main.get_book book_id w).2
  | UpdateBook book_id u => (main.update_book pg book_id u w).2
  | DeleteBook book_id => (main.delete_book pg book_id w).2
  | ListBooks a c q limit offset user_id =>
      (main.list_books_route pg a c q limit offset user_id w).2
  end.

(** What the listing attaches to a primary row, out of the rows [cats] of
    the category query. *)
Definition attach (cats : list (Z * CategoryLite)) (row : ListRow) : BookFull :=
  mkFull (lr_book row) (lr_author_name row)
         (rows_of_book (b_id (lr_book row)) cats).

(** ** db/db.py: authors, categories and users *)

Record UserRow := mkUser { u_id : Z; u_username : string; u_email : string }.

(** The store of the book operations together with what the remaining
    methods of [Database] work on: the table [users] and the sequences
    behind [authors.id], [categories.id] and [users.id]. *)
Record Directory := mkDirectory {
  catalog : Store;
  users : list UserRow;
  authors_id_seq : Z;
  categories_id_seq : Z;
  users_id_seq : Z
}.

(** Modelled from the spec: the schema of [authors], [categories] and
    [users] is not in the repository ("storage constraint violation ->
    rejected" is all the spec says of their inserts).  The constraints a new
    row must pass, the collation of [ORDER BY name] and the text [str(e)] of
    a driver exception are left open as parameters. *)
Record DirectoryBackend := mkDirectoryBackend {
  authors_check : Directory -> AuthorRow -> bool;
  categories_check : Directory -> CategoryRow -> bool;
  users_check : Directory -> UserRow -> bool;
  (** [x <= y] in the collation of [authors.name] and [categories.name] *)
  name_leb : string -> string -> bool;
  (** [str(e)] *)
  exn_str : Exn -> string
}.

Record Site := mkSite { directory : Directory; sent : list Stmt }.

(** Computations over the wider state. *)
Definition DIO (A : Type) : Type := Site -> outcome A * Site.

Module Database.

Definition with_catalog (d : Directory) (s : Store) : Directory :=
  mkDirectory s (users d) (authors_id_seq d) (categories_id_seq d)
              (users_id_seq d).

Definition with_authors (s : Store) (l : list AuthorRow) : Store :=
  mkStore l (categories s) (books s) (book_categories s) (logs s)
          (books_id_seq s).

Definition with_categories (s : Store) (l : list CategoryRow) : Store :=
  mkStore (authors s) l (books s) (book_categories s) (logs s)
          (books_id_seq s).

(** A method that works on the tables of the book operations, run on the
    wider state. *)
Definition lift {A} (m : IO A) : DIO A :=
  fun w =>
    let '(o, w') := m (mkWorld (catalog (directory w)) (sent w)) in
    (o, mkSite (with_catalog (directory w) (store w')) (issued w')).

Section Directory.
Context (dpg : DirectoryBackend).

(** *** Authors *)

Definition get_author_by_id (author_id : Z) : DIO (option AuthorRow) :=
  lift (db.get_author_by_id author_id).

Definition create_author (name : string) (bio : option string)
  : DIO AuthorRow :=
  fun w =>
    let q := mkStmt "INSERT INTO authors(name, bio) VALUES ($1, $2) RETURNING id, name, bio"
                    [VText name; opt_val VText bio] in
    let d := directory w in
    let id := authors_id_seq d + 1 in
    let row := mkAuthor id name bio in
    if authors_check dpg d row
    then (Return row,
          mkSite (mkDirectory
                    (with_authors (catalog d) (authors (catalog d) ++ [row]))
                    (users d) id (categories_id_seq d) (users_id_seq d))
                 (sent w ++ [q]))
    else (Raise (PostgresError q),
          mkSite (mkDirectory (catalog d) (users d) id (categories_id_seq d)
                              (users_id_seq d))
                 (sent w ++ [q])).

Definition author_name_le (x y : AuthorRow) : Prop :=
  name_leb dpg (a_name x) (a_name y).

#[global] Instance author_name_le_dec : RelDecision author_name_le.
Proof. intros x y. unfold author_name_le. apply _. Defined.

Definition list_authors : DIO (list AuthorRow) :=
  fun w =>
    (Return (merge_sort author_name_le (authors (catalog (directory w)))),
     mkSite (directory w)
            (sent w ++ [mkStmt "SELECT id, name, bio FROM authors ORDER BY name" []])).

(** *** Categories *)

Definition get_category_by_id (category_id : Z) : DIO (option CategoryRow) :=
  lift (db.get_category_by_id category_id).

Definition create_category (name : string) : DIO CategoryRow :=
  fun w =>
    let q := mkStmt "INSERT INTO categories(name) VALUES ($1) RETURNING id, name"
                    [VText name] in
    let d := directory w in
    let id := categories_id_seq d + 1 in
    let row := mkCategory id name in
    if categories_check dpg d row
    then (Return row,
          mkSite (mkDirectory
                    (with_categories (catalog d) (categories (catalog d) ++ [row]))
                    (users d) (authors_id_seq d) id (users_id_seq d))
                 (sent w ++ [q]))
    else (Raise (PostgresError q),
          mkSite (mkDirectory (catalog d) (users d) (authors_id_seq d) id
                              (users_id_seq d))
                 (sent w ++ [q])).

Definition category_name_le (x y : CategoryRow) : Prop :=
  name_leb dpg (c_name x) (c_name y).

#[global] Instance category_name_le_dec : RelDecision category_name_le.
Proof. intros x y. unfold category_name_le. apply _. Defined.

Definition list_categories : DIO (list CategoryRow) :=
  fun w =>
    (Return (merge_sort category_name_le (categories (catalog (directory w)))),
     mkSite (directory w)
            (sent w ++ [mkStmt "SELECT id, name FROM categories ORDER BY name" []])).

(** *** Users *)

Definition get_user_by_id (user_id : Z) : DIO (option UserRow) :=
  fun w =>
    (Return (head (filter (fun u => u_id u = user_id) (users (directory w)))),
     mkSite (directory w)
            (sent w ++ [mkStmt "SELECT id, username, email FROM users WHERE id=$1"
                               [VInt user_id]])).

Definition create_user (username email : string) : DIO UserRow :=
  fun w =>
    let q := mkStmt "INSERT INTO users(username, email) VALUES ($1, $2) RETURNING id, username, email"
                    [VText username; VText email] in
    let d := directory w in
    let id := users_id_seq d + 1 in
    let row := mkUser id username email in
    if users_check dpg d row
    then (Return row,
          mkSite (mkDirectory (catalog d) (users d ++ [row]) (authors_id_seq d)
                              (categories_id_seq d) id)
                 (sent w ++ [q]))
    else (Raise (PostgresError q),
          mkSite (mkDirectory (catalog d) (users d) (authors_id_seq d)
                              (categories_id_seq d) id)
                 (sent w ++ [q])).

End Directory.

End Database.

(** ** main.py: the author, category and user endpoints *)

Module app.

(** [AuthorIn], [CategoryIn], [UserIn] *)
Record AuthorIn := mkAuthorIn { name : string; bio : option string }.
Record CategoryIn := mkCategoryIn { category_name : string }.
Record UserIn := mkUserIn { username : string; email : string }.

Section Endpoints.
Context (dpg : DirectoryBackend).

(** [try: return await m  except Exception as e:
     raise HTTPException(status_code=400, detail=str(e))] *)
Definition or_400 {A} (m : DIO A) : DIO A :=
  fun w =>
    match m w with
    | (Return a, w') => (Return a, w')
    | (Raise e, w') => (Raise (HTTPException 400 (exn_str dpg e)), w')
    end.

(** [x = await m; if not x: raise HTTPException(404, detail); return x] *)
Definition or_404 {A} (detail : string) (m : DIO (option A)) : DIO A :=
  fun w =>
    match m w with
    | (Return (Some a), w') => (Return a, w')
    | (Return None, w') => (Raise (HTTPException 404 detail), w')
    | (Raise e, w') => (Raise e, w')
    end.

Definition create_author (author : AuthorIn) : DIO AuthorRow :=
  or_400 (Database.create_author dpg (name author) (bio author)).

Definition get_author (author_id : Z) : DIO AuthorRow :=
  or_404 "Author not found" (Database.get_author_by_id author_id).

Definition list_authors : DIO (list AuthorRow) := Database.list_authors dpg.

Definition create_category (category : CategoryIn) : DIO CategoryRow :=
  or_400 (Database.create_category dpg (category_name category)).

Definition get_category (category_id : Z) : DIO CategoryRow :=
  or_404 "Category not found" (Database.get_category_by_id category_id).

Definition list_categories : DIO (list CategoryRow) :=
  Database.list_categories dpg.

Definition create_user (user : UserIn) : DIO UserRow :=
  or_400 (Database.create_user dpg (username user) (email user)).

Definition get_user (user_id : Z) : DIO UserRow :=
  or_404 "User not found" (Database.get_user_by_id user_id).

End Endpoints.

End app.

(** The ids of a table are distinct and were drawn from its sequence. *)
Definition author_key (d : Directory) : Prop :=
  NoDup (a_id <$> authors (catalog d))
  /\ Forall (fun a => a_id a <= authors_id_seq d) (authors (catalog d)).

Definition category_key (d : Directory) : Prop :=
  NoDup (c_id <$> categories (catalog d))
  /\ Forall (fun c => c_id c <= categories_id_seq d) (categories (catalog d)).

Definition user_key (d : Directory) : Prop :=
  NoDup (u_id <$> users d)
  /\ Forall (fun u => u_id u <= users_id_seq d) (users d).

(** The name collation is total. *)
Definition name_order_total (dpg : DirectoryBackend) : Prop :=
  forall x y, name_leb dpg x y = true \/ name_leb dpg y x = true.

(** ** A concrete database

    A schema with the constraints the data model names: [books.author_id]
    references an author, [book_categories] has the composite key
    [(book_id, category_id)] and references both tables, deleting a book
    cascades.  Titles are compared byte-wise; the text search here is plain
    equality with the document; rows are produced in the order the tables
    hold them. *)

Definition demo_pg : Backend :=
  mkBackend
    (fun s r => bool_decide (Exists (fun a => b_author_id r = Some (a_id a)) (authors s)))
    (fun s bc =>
       bool_decide (Exists (fun r => b_id r = bc.1) (books s))
       && bool_decide (Exists (fun c => c_id c = bc.2) (categories s))
       && bool_decide (bc ∉ book_categories s))
    (fun _ _ => true)
    true
    String.leb
    (fun doc q => bool_decide (doc = q))
    (fun _ _ l => l)
    (fun _ _ l => Permutation_refl l).

(** The same database with no constraint declared and no cascade. *)
Definition loose_pg : Backend :=
  mkBackend (fun _ _ => true) (fun _ _ => true) (fun _ _ => true) false
            String.leb (fun doc q => bool_decide (doc = q))
            (fun _ _ l => l) (fun _ _ l => Permutation_refl l).

(** A server without constraints whose plan hands the rows out in reverse
    table order, except for a statement whose text ends in [0] (the first
    page of a listing). *)
Definition shuffling_pg : Backend :=
  mkBackend (fun _ _ => true) (fun _ _ => true) (fun _ _ => true) false
            String.leb (fun doc q => bool_decide (doc = q))
            (fun _ q l =>
               if bool_decide (last_char (text q) = Some "0"%char)
               then l else rev l)
            (fun _ q l =>
               match bool_decide (last_char (text q) = Some "0"%char) as b
                 return (if b then l else rev l) ≡ₚ l
               with
               | true => Permutation_refl l
               | false => Permutation_sym (Permutation_rev l)
               end).

Definition demo_date : date := Date 2001 2 3.

Definition dragons : BookRow :=
  mkBook 1 (Some "The Dragons of Winter") (Some "A tale") (Some 9.5%float)
         (Some 1) (Some demo_date).

Definition atlas : BookRow :=
  mkBook 2 (Some "Atlas") (Some "Maps") (Some 20%float) (Some 2)
         (Some demo_date).

Definition demo_store : Store :=
  mkStore [mkAuthor 1 "Ann" None; mkAuthor 2 "Bob" (Some "b. 1970")]
          [mkCategory 10 "Fantasy"; mkCategory 11 "History"]
          [dragons; atlas]
          [(1, 10); (1, 11)]
          []
          2.

Definition demo_world : World := mkWorld demo_store [].

(** Two books that carry the same title. *)
Definition twin_store : Store :=
  mkStore [mkAuthor 1 "Ann" None]
          []
          [mkBook 1 (Some "Echo") (Some "first") (Some 1%float) (Some 1)
                  (Some demo_date);
           mkBook 2 (Some "Echo") (Some "second") (Some 2%float) (Some 1)
                  (Some demo_date)]
          []
          []
          2.

(** A directory around the concrete store: usernames are unique, names are
    compared byte-wise, and the text of a driver exception names the
    statement. *)
Definition demo_dpg : DirectoryBackend :=
  mkDirectoryBackend
    (fun _ _ => true)
    (fun _ _ => true)
    (fun d u => bool_decide (u_username u ∉ (u_username <$> users d)))
    String.leb
    (fun e => match e with
              | PostgresError q => "rejected: " +:+ text q
              | HTTPException _ detail => detail
              end).

Definition demo_directory : Directory :=
  mkDirectory demo_store [mkUser 1 "ann" "ann@example.org"] 2 11 1.

Definition demo_site : Site := mkSite demo_directory [].

(** Requests used below. *)
Definition maps_of_winter : main.BookIn :=
  main.mkBookIn "Maps of Winter" "More maps" 12%float 2 demo_date [11; 10].

Definition ghost_author_book : main.BookIn :=
  main.mkBookIn "Nobody" "No author" 1%float 77 demo_date [10].

Definition ghost_category_book : main.BookIn :=
  main.mkBookIn "Somewhere" "Two good ids, then a bad one" 1%float 1 demo_date
                [10; 11; 99; 98].

Definition retitle : main.BookUpdateIn :=
  main.mkBookUpdateIn (Some "Dragons") None None None None None.

Definition carol : app.AuthorIn := app.mkAuthorIn "Carol" None.

Definition carols_book (author_id : Z) : main.BookIn :=
  main.mkBookIn "Carol's first" "A debut" 5%float author_id demo_date [10].

(** A directory whose [authors] accepts no new row. *)
Definition closed_dpg : DirectoryBackend :=
  mkDirectoryBackend (fun _ _ => false) (fun _ _ => true) (fun _ _ => true)
                     String.leb (exn_str demo_dpg).

(** * Properties *)

(** Two optional values of which exactly one is present cannot be
    "present together". *)
Ltac presence_clash H :=
  exfalso;
  let H1 := fresh in
  let H2 := fresh in
  destruct H as [H1 H2];
  first [ eapply is_Some_None, H1; eexists; reflexivity
        | eapply is_Some_None, H2; eexists; reflexivity ].

(** ** Reading numerals

    The numerals the code formats into its statements ([f'${idx}'],
    [f'LIMIT {limit}']) are read back as the numbers they were written
    from. *)

Lemma digit_pretty_N_char (x : N) :
  (x < 10)%N -> digit (pretty_N_char x) = Some (Z.of_N x).
Proof.
  intros Hx.
  assert (x = 0 \/ x = 1 \/ x = 2 \/ x = 3 \/ x = 4 \/ x = 5 \/ x = 6
          \/ x = 7 \/ x = 8 \/ x = 9)%N as H by lia.
  repeat (destruct H as [->|H]; [reflexivity|]). by subst.
Qed.

Lemma pretty_N_go_app (x : N) (s r : string) :
  pretty_N_go x s +:+ r = pretty_N_go x (s +:+ r).
Proof.
  revert s. induction (N.lt_wf_0 x) as [x _ IH]; intros s.
  destruct (decide (x = 0)%N) as [->|Hx]; [by rewrite !pretty_N_go_0|].
  rewrite (pretty_N_go_step x s), (pretty_N_go_step x (s +:+ r)) by lia.
  rewrite IH by (apply N.div_lt; lia). reflexivity.
Qed.

Lemma digits_pretty_N_go (x : N) :
  exists k, forall acc s,
    digits acc (pretty_N_go x s) = digits (acc * k + Z.of_N x) s.
Proof.
  induction (N.lt_wf_0 x) as [x _ IH].
  destruct (decide (x = 0)%N) as [->|Hx].
  - exists 1. intros acc s. rewrite pretty_N_go_0. f_equal. lia.
  - destruct (IH (x `div` 10)%N) as [k Hk]; [apply N.div_lt; lia|].
    exists (10 * k). intros acc s.
    rewrite pretty_N_go_step by lia. rewrite Hk.
    cbn [digits]. rewrite digit_pretty_N_char by (apply N.mod_lt; lia).
    f_equal. rewrite N2Z.inj_div, N2Z.inj_mod. change (Z.of_N 10) with 10.
    pose proof (Z_div_mod_eq_full (Z.of_N x) 10) as Hdm.
    revert Hdm. generalize (Z.of_N x `div` 10) (Z.of_N x `mod` 10).
    intros u v ->. ring.
Qed.

Lemma pretty_N_go_digit_first (x : N) (s : string) :
  (0 < x)%N ->
  exists c rest d, pretty_N_go x s = String c rest /\ digit c = Some d.
Proof.
  revert s. induction (N.lt_wf_0 x) as [x _ IH]; intros s Hx.
  rewrite pretty_N_go_step by lia.
  destruct (decide (x `div` 10 = 0)%N) as [->|Hd].
  - rewrite pretty_N_go_0. do 3 eexists. split; [reflexivity|].
    apply digit_pretty_N_char, N.mod_lt. lia.
  - apply IH; [apply N.div_lt; lia | by apply N.neq_0_lt_0].
Qed.

Lemma digits_stop (acc : Z) (r : string) :
  no_digit_ahead r -> digits acc r = (acc, r).
Proof. destruct r as [|c r]; [reflexivity|]. simpl. by intros ->. Qed.

Lemma number_pretty_N_go (x : N) (r : string) :
  (0 < x)%N -> no_digit_ahead r ->
  number (pretty_N_go x r) = Some (Z.of_N x, r).
Proof.
  intros Hx Hr. destruct (pretty_N_go_digit_first x r Hx) as (c & rest & d & E & Hd).
  unfold number. rewrite E, Hd, <- E.
  destruct (digits_pretty_N_go x) as [k Hk]. rewrite Hk. simpl.
  by rewrite digits_stop.
Qed.

Lemma digit_dash : digit "-" = None.
Proof. reflexivity. Qed.

(** Reading back a decimal numeral written by [str()]. *)
Lemma integer_pretty (z : Z) (r : string) :
  no_digit_ahead r -> integer (pretty z +:+ r) = Some (z, r).
Proof.
  intros Hr. destruct z as [|p|p].
  - change (pretty 0 +:+ r) with (String "0" r).
    unfold integer, number. simpl. by rewrite digits_stop.
  - change (pretty (Z.pos p)) with (pretty_N_go (N.pos p) EmptyString).
    rewrite pretty_N_go_app. change (EmptyString +:+ r) with r.
    destruct (pretty_N_go_digit_first (N.pos p) r ltac:(lia))
      as (c & rest & d & E & Hd).
    unfold integer. rewrite E.
    destruct (Ascii.eqb c "-") eqn:Ec.
    { apply Ascii.eqb_eq in Ec. subst c. discriminate Hd. }
    rewrite <- E. by rewrite number_pretty_N_go.
  - change (pretty (Z.neg p)) with ("-" +:+ pretty_N_go (N.pos p) EmptyString).
    change (("-" +:+ pretty_N_go (N.pos p) EmptyString) +:+ r)
      with (String "-" (pretty_N_go (N.pos p) EmptyString +:+ r)).
    rewrite pretty_N_go_app. change (EmptyString +:+ r) with r.
    unfold integer. simpl Ascii.eqb. cbv iota.
    by rewrite number_pretty_N_go.
Qed.

(** ** The listing query text *)

Example list_books_sql_all_filters :
  db.list_books_sql (Some 7) (Some 3) (Some "dragons") 50 0
  = mkStmt
      "SELECT b.id, b.title, b.description, b.price, b.author_id, b.published_date, a.name as author_name FROM books b JOIN authors a ON b.author_id = a.id JOIN book_categories bc ON b.id = bc.book_id WHERE b.author_id=$1 AND bc.category_id=$2 AND to_tsvector('english', b.title || ' ' || b.description) @@ plainto_tsquery('english', $3) ORDER BY b.title LIMIT 50 OFFSET 0"
      [VInt 7; VInt 3; VText "dragons"].
Proof. vm_compute. reflexivity. Qed.

(** The values of the three filters never reach the text: it is fixed by
    which of them are active, and by [limit] and [offset]. *)
Lemma list_books_sql_text_filters (a a' c c' : option Z) (q q' : option string)
    (limit offset : Z) :
  is_Some a <-> is_Some a' ->
  is_Some c <-> is_Some c' ->
  is_Some (truthy_str q) <-> is_Some (truthy_str q') ->
  text (db.list_books_sql a c q limit offset)
  = text (db.list_books_sql a' c' q' limit offset).
Proof.
  intros Ha Hc Hq. unfold db.list_books_sql.
  destruct (truthy_str q), (truthy_str q'); try presence_clash Hq;
    destruct a, a'; try presence_clash Ha;
    destruct c, c'; try presence_clash Hc;
  reflexivity.
Qed.

(** The bound parameters are the active filter values, in order; [limit]
    and [offset] are never among them. *)
Lemma list_books_sql_args (a c : option Z) (q : option string)
    (limit offset : Z) :
  args (db.list_books_sql a c q limit offset)
  = option_list (VInt <$> a) ++ option_list (VInt <$> c)
    ++ option_list (VText <$> truthy_str q).
Proof.
  unfold db.list_books_sql.
  destruct a, c, (truthy_str q); reflexivity.
Qed.

(** The text ends in the decimal numerals of [limit] and [offset]; what
    comes before them is fixed by the active filters. *)
Lemma string_length_app (a b : string) :
  String.length (a +:+ b) = (String.length a + String.length b)%nat.
Proof.
  induction a as [|c a IH]; [reflexivity|].
  change (S (String.length (a +:+ b)) = S (String.length a + String.length b)).
  by rewrite IH.
Qed.

Lemma string_app_inv_tail (a b s : string) : a +:+ s = b +:+ s -> a = b.
Proof.
  revert b. induction a as [|c a IH]; intros [|c' b] H; simpl in H.
  - reflexivity.
  - apply (f_equal String.length) in H.
    rewrite !string_length_app in H. simpl in H. lia.
  - apply (f_equal String.length) in H.
    rewrite !string_length_app in H. simpl in H. lia.
  - injection H as -> H. f_equal. by apply IH.
Qed.

Lemma string_app_assoc (a b c : string) : (a +:+ b) +:+ c = a +:+ b +:+ c.
Proof.
  induction a as [|x a IH]; [reflexivity|].
  change (String x ((a +:+ b) +:+ c) = String x (a +:+ b +:+ c)).
  by rewrite IH.
Qed.

Lemma list_books_sql_text_shape (a c : option Z) (q : option string) :
  exists prefix, forall limit offset,
    text (db.list_books_sql a c q limit offset)
    = prefix +:+ pretty limit +:+ " OFFSET " +:+ pretty offset.
Proof.
  unfold db.list_books_sql.
  destruct a, c, (truthy_str q); cbv beta iota zeta; cbn [app text join];
    eexists; intros limit offset;
    rewrite <- !string_app_assoc; reflexivity.
Qed.

Lemma list_books_sql_text_limit (a c : option Z) (q : option string)
    (limit limit' offset : Z) :
  limit <> limit' ->
  text (db.list_books_sql a c q limit offset)
  <> text (db.list_books_sql a c q limit' offset).
Proof.
  intros Hne Heq. destruct (list_books_sql_text_shape a c q) as [prefix Hp].
  rewrite !Hp in Heq. apply (inj (String.append prefix)) in Heq.
  apply string_app_inv_tail in Heq. by apply (inj pretty) in Heq.
Qed.

Lemma list_books_sql_text_offset (a c : option Z) (q : option string)
    (limit offset offset' : Z) :
  offset <> offset' ->
  text (db.list_books_sql a c q limit offset)
  <> text (db.list_books_sql a c q limit offset').
Proof.
  intros Hne Heq. destruct (list_books_sql_text_shape a c q) as [prefix Hp].
  rewrite !Hp in Heq. apply (inj (String.append prefix)) in Heq.
  apply (inj (String.append (pretty limit))) in Heq.
  apply (inj (String.append " OFFSET ")) in Heq.
  by apply (inj pretty) in Heq.
Qed.

(** C1: with the same filters present, [limit=10] and [limit=20] produce
    different query texts, and neither call binds any parameter: the limit
    (and likewise the offset) is formatted into the SQL, while the filter
    values next to it go through [$n] placeholders. *)
Theorem list_books_sql_limit_in_text :
  text (db.list_books_sql None None None 10 0)
    <> text (db.list_books_sql None None None 20 0)
  /\ text (db.list_books_sql None None None 50 0)
    <> text (db.list_books_sql None None None 50 5)
  /\ db.list_books_sql None None None 10 0
     = mkStmt
         "SELECT b.id, b.title, b.description, b.price, b.author_id, b.published_date, a.name as author_name FROM books b JOIN authors a ON b.author_id = a.id ORDER BY b.title LIMIT 10 OFFSET 0"
         [].
Proof.
  split; [|split].
  - vm_compute. discriminate.
  - vm_compute. discriminate.
  - vm_compute. reflexivity.
Qed.

(** ** Running computations *)

Lemma with_books_same (s : Store) : db.with_books s (books s) = s.
Proof. destruct s; reflexivity. Qed.

Lemma with_book_categories_same (s : Store) :
  db.with_book_categories s (book_categories s) = s.
Proof. destruct s; reflexivity. Qed.

Lemma rolled_back_tables (s0 s : Store) : tables (rolled_back s0 s) = tables s0.
Proof. reflexivity. Qed.

Lemma filter_all {A} (P : A -> Prop) `{!forall x, Decision (P x)} (l : list A) :
  Forall P l -> filter P l = l.
Proof.
  induction 1 as [|x l Hx _ IH]; [reflexivity|].
  rewrite filter_cons_True by assumption. by rewrite IH.
Qed.

Lemma filter_none {A} (P : A -> Prop) `{!forall x, Decision (P x)} (l : list A) :
  Forall (fun x => ~ P x) l -> filter P l = [].
Proof.
  induction 1 as [|x l Hx _ IH]; [reflexivity|].
  by rewrite filter_cons_False.
Qed.

(** *** Reads leave the store alone *)

Lemma read_only_ret {A} (a : A) : read_only (ret a).
Proof. intros w; reflexivity. Qed.

Lemma read_only_raise {A} (e : Exn) : read_only (@raise A e).
Proof. intros w; reflexivity. Qed.

Lemma read_only_fetch {A} (q : Stmt) (rows : Store -> A) :
  read_only (fetch q rows).
Proof. intros w; reflexivity. Qed.

Lemma read_only_bind {A B} (m : IO A) (k : A -> IO B) :
  read_only m -> (forall a, read_only (k a)) -> read_only (bind m k).
Proof.
  intros Hm Hk w. unfold bind. specialize (Hm w).
  destruct (m w) as [[a|e] w1]; simpl in *; [|assumption].
  rewrite Hk. assumption.
Qed.

Lemma read_only_for_each {A} (xs : list A) (body : A -> IO unit) :
  (forall x, read_only (body x)) -> read_only (for_each xs body).
Proof.
  intros Hb. induction xs as [|x xs IH]; simpl.
  - apply read_only_ret.
  - apply read_only_bind; [apply Hb | intros _; apply IH].
Qed.

Lemma read_only_validate_categories (ids : list Z) :
  read_only (main.validate_categories ids).
Proof.
  apply read_only_for_each. intros cid.
  apply read_only_bind; [apply read_only_fetch|].
  intros [c|]; [apply read_only_ret | apply read_only_raise].
Qed.

Lemma read_only_get_book_by_id (book_id : Z) :
  read_only (db.get_book_by_id book_id).
Proof.
  apply read_only_bind; [apply read_only_fetch|].
  intros [r|]; [|apply read_only_ret].
  apply read_only_bind; [apply read_only_fetch|].
  intros cats. apply read_only_ret.
Qed.

(** [get_book_by_id] never raises, and what it returns is a function of
    the store. *)
Lemma get_book_by_id_value (book_id : Z) (w : World) :
  (db.get_book_by_id book_id w).1 = Return (book_view book_id (store w)).
Proof.
  unfold db.get_book_by_id, book_view, bind, fetch, ret. simpl.
  destruct (head _); reflexivity.
Qed.

(** *** The association inserts *)

Lemma same_but_associations_refl (s : Store) : same_but_associations s s.
Proof. repeat split. Qed.

Lemma same_but_associations_trans (s1 s2 s3 : Store) :
  same_but_associations s1 s2 -> same_but_associations s2 s3 ->
  same_but_associations s1 s3.
Proof.
  intros (A1 & C1 & B1 & L1 & Q1) (A2 & C2 & B2 & L2 & Q2).
  repeat split; congruence.
Qed.

(** The loop [for cid in category_ids: INSERT INTO book_categories ...]
    touches nothing but [book_categories]; when it completes, it has
    appended one row per id, in order. *)
Lemma insert_loop_spec (pg : Backend) (book_id : Z) (cids : list Z)
    (w : World) (o : outcome unit) (w' : World) :
  for_each cids (fun cid =>
    execute (mkStmt db.insert_book_category_sql [VInt book_id; VInt cid])
            (db.insert_book_category pg book_id cid)) w = (o, w') ->
  same_but_associations (store w) (store w')
  /\ (forall u, o = Return u ->
        book_categories (store w')
        = book_categories (store w) ++ ((fun cid => (book_id, cid)) <$> cids)).
Proof.
  revert w. induction cids as [|cid cids IH]; intros w; simpl.
  - intros [= <- <-]. split; [apply same_but_associations_refl|].
    intros _ _. by rewrite app_nil_r.
  - unfold bind at 1, execute at 1, db.insert_book_category at 1.
    destruct (book_categories_check pg (store w) (book_id, cid)); simpl.
    + intros H. apply IH in H. simpl in H. destruct H as [Hf Hr]. split.
      * eapply same_but_associations_trans; [|exact Hf]. repeat split.
      * intros u Hu. rewrite (Hr u Hu). by rewrite <- app_assoc.
    + intros [= <- <-]. split; [repeat split | discriminate].
Qed.

(** *** The generated SET clause *)

Lemma update_fields_empty (t d : option string) (p : option float)
    (a : option Z) (pd : option date) :
  join ", " (db.update_fields t d p a pd).1.1 = EmptyString ->
  t = None /\ d = None /\ p = None /\ a = None /\ pd = None.
Proof.
  destruct t, d, p, a, pd; intros H; try (vm_compute in H; discriminate H).
  repeat split.
Qed.

Lemma update_fields_none :
  db.update_fields None None None None None = ([], [], 1).
Proof. reflexivity. Qed.

Lemma set_columns_none (r : BookRow) :
  db.set_columns None None None None None r = r.
Proof. destruct r; reflexivity. Qed.

Lemma set_columns_id (t d : option string) (p : option float)
    (a : option Z) (pd : option date) (r : BookRow) :
  b_id (db.set_columns t d p a pd r) = b_id r.
Proof. reflexivity. Qed.

Lemma patched_none (book_id : Z) (bs : list BookRow) :
  patched book_id None None None None None bs = bs.
Proof.
  unfold patched. induction bs as [|r bs IH]; [reflexivity|].
  rewrite fmap_cons, IH. destruct (decide _); [|reflexivity].
  by rewrite set_columns_none.
Qed.

(** *** The two halves of [update_book] *)

(** The statement the core update builds, read by the server, sets
    exactly the supplied columns of the rows with that id. *)
Lemma update_books_built (pg : Backend) (book_id : Z) (t d : option string)
    (p : option float) (a : option Z) (pd : option date) (s : Store)
    (uf : list string) (ps : list val) (idx : Z) :
  db.update_fields t d p a pd = (uf, ps, idx) ->
  join ", " uf <> EmptyString ->
  db.update_books pg
    (mkStmt ("UPDATE books SET " +:+ join ", " uf +:+ " WHERE id=$" +:+ pretty idx)
            (ps ++ [VInt book_id])) s
  = if forallb (fun r => books_check pg s (db.set_columns t d p a pd r))
               (filter (fun r => b_id r = book_id) (books s))
    then Done tt (db.with_books s (patched book_id t d p a pd (books s)))
    else Failed s.
Proof.
  intros E Hne. unfold db.update_books, patched. cbn [text args].
  destruct t, d, p, a, pd; injection E as <- <- <-;
    try (exfalso; apply Hne; reflexivity);
    match goal with
    | |- context [db.parse_update ?t] =>
        let r := eval vm_compute in (db.parse_update t) in
        replace (db.parse_update t) with r by (vm_compute; reflexivity)
    end;
    reflexivity.
Qed.

(** The core update either sets the columns of the rows with that id, or
    fails and changes nothing. *)
Lemma update_book_core_spec (pg : Backend) (book_id : Z) (t d : option string)
    (p : option float) (a : option Z) (pd : option date)
    (w : World) (o : outcome unit) (w' : World) :
  db.update_book_core pg book_id t d p a pd w = (o, w') ->
  (o = Return tt
   /\ store w' = db.with_books (store w) (patched book_id t d p a pd (books (store w))))
  \/ (exists e, o = Raise e /\ store w' = store w).
Proof.
  unfold db.update_book_core.
  pose proof (update_fields_empty t d p a pd) as Hempty.
  destruct (db.update_fields t d p a pd) as [[uf ps] idx] eqn:E. simpl in Hempty.
  destruct (decide (join ", " uf = EmptyString)) as [He|He].
  - destruct (Hempty He) as (-> & -> & -> & -> & ->).
    intros [= <- <-]. left. split; [reflexivity|].
    by rewrite patched_none, with_books_same.
  - unfold execute. rewrite (update_books_built pg book_id t d p a pd _ _ _ _ E He).
    destruct (forallb _ _); intros [= <- <-]; [left | right].
    + split; reflexivity.
    + eexists; split; [reflexivity|]. simpl. by destruct (store w).
Qed.

(** The category block touches nothing but [book_categories]; when it
    completes with ids supplied, the rows of the book have been replaced by
    one row per id. *)
Lemma update_book_categories_spec (pg : Backend) (book_id : Z)
    (cids : option (list Z)) (w : World) (o : outcome unit) (w' : World) :
  db.update_book_categories pg book_id cids w = (o, w') ->
  same_but_associations (store w) (store w')
  /\ (forall u, o = Return u ->
        book_categories (store w')
        = match cids with
          | None => book_categories (store w)
          | Some cs =>
              filter (fun bc : Z * Z => bc.1 <> book_id) (book_categories (store w))
              ++ ((fun cid => (book_id, cid)) <$> cs)
          end).
Proof.
  unfold db.update_book_categories. destruct cids as [cs|].
  - unfold bind at 1, execute at 1, db.delete_book_categories. simpl.
    intros H. apply insert_loop_spec in H. simpl in H.
    destruct H as [Hf Hr]. split; [|exact Hr].
    eapply same_but_associations_trans; [|exact Hf]. repeat split.
  - intros [= <- <-]. split; [apply same_but_associations_refl | reflexivity].
Qed.

Lemma rolled_back_same_seq (s s' : Store) :
  books_id_seq s' = books_id_seq s -> rolled_back s s' = s.
Proof. intros H. unfold rolled_back. rewrite H. by destruct s. Qed.

(** *** [update_book] as a whole

    A call that raises has been rolled back to the store it started from.
    A call that returns has set the supplied columns of the book, replaced
    its association rows when [category_ids] was supplied, and returns the
    row it then finds. *)
Lemma update_book_spec (pg : Backend) (book_id : Z) (t d : option string)
    (p : option float) (a : option Z) (pd : option date)
    (cids : option (list Z)) (w : World) (o : outcome (option BookRow))
    (w' : World) :
  db.update_book pg book_id t d p a pd cids w = (o, w') ->
  match o with
  | Raise _ => store w' = store w
  | Return row =>
      row = find_book book_id (store w')
      /\ books (store w') = patched book_id t d p a pd (books (store w))
      /\ book_categories (store w')
         = match cids with
           | None => book_categories (store w)
           | Some cs =>
               filter (fun bc : Z * Z => bc.1 <> book_id)
                      (book_categories (store w))
               ++ ((fun cid => (book_id, cid)) <$> cs)
           end
      /\ authors (store w') = authors (store w)
      /\ categories (store w') = categories (store w)
      /\ logs (store w') = logs (store w)
      /\ books_id_seq (store w') = books_id_seq (store w)
  end.
Proof.
  unfold db.update_book, transaction, bind.
  destruct (db.update_book_core pg book_id t d p a pd w) as [o1 w1] eqn:E1.
  apply update_book_core_spec in E1 as [[-> Hs1] | (e & -> & Hs1)].
  - destruct (db.update_book_categories pg book_id cids w1) as [o2 w2] eqn:E2.
    apply update_book_categories_spec in E2 as [(HA & HC & HB & HL & HQ) Hr].
    rewrite Hs1 in HA, HC, HB, HL, HQ, Hr. simpl in *.
    destruct o2 as [[]|e]; simpl.
    + intros [= <- <-]. simpl. rewrite (Hr tt eq_refl).
      repeat split; assumption.
    + intros [= <- <-]. simpl. by apply rolled_back_same_seq.
  - intros [= <- <-]. simpl. apply rolled_back_same_seq. by rewrite Hs1.
Qed.

(** ** Partial update *)

Lemma set_columns_keeps (t d : option string) (p : option float)
    (a : option Z) (pd : option date) (r : BookRow) :
  keeps_unsupplied t d p a pd r (db.set_columns t d p a pd r).
Proof. repeat split; intros ->; reflexivity. Qed.

Lemma set_columns_takes (t d : option string) (p : option float)
    (a : option Z) (pd : option date) (r : BookRow) :
  takes_supplied t d p a pd (db.set_columns t d p a pd r).
Proof. repeat split; intros v ->; reflexivity. Qed.

Lemma set_columns_no_new_null (t d : option string) (p : option float)
    (a : option Z) (pd : option date) (r : BookRow) :
  no_new_null r (db.set_columns t d p a pd r).
Proof.
  unfold no_new_null; simpl.
  destruct t, d, p, a, pd; repeat split; eauto.
Qed.

Lemma keeps_unsupplied_refl (t d : option string) (p : option float)
    (a : option Z) (pd : option date) (r : BookRow) :
  keeps_unsupplied t d p a pd r r.
Proof. repeat split. Qed.

Lemma no_new_null_refl (r : BookRow) : no_new_null r r.
Proof. repeat split; auto. Qed.

(** C6: whatever [update_book] is called with and however the call ends,
    the rows of [books] afterwards are the rows before, each mapped by a
    function that leaves the rows of other books alone, keeps every column
    that was not supplied, never turns a stored value into NULL, and - when
    the call returns - has given every supplied column of the book its
    supplied value. *)
Theorem update_book_sets_supplied_fields (pg : Backend) (book_id : Z)
    (t d : option string) (p : option float) (a : option Z)
    (pd : option date) (cids : option (list Z)) (w : World) :
  let run := db.update_book pg book_id t d p a pd cids w in
  exists f : BookRow -> BookRow,
    books (store run.2) = f <$> books (store w)
    /\ forall r,
         keeps_unsupplied t d p a pd r (f r)
         /\ no_new_null r (f r)
         /\ (b_id r <> book_id -> f r = r)
         /\ (forall row, run.1 = Return row -> b_id r = book_id ->
               takes_supplied t d p a pd (f r)).
Proof.
  intros run. subst run.
  destruct (db.update_book pg book_id t d p a pd cids w) as [o w'] eqn:E.
  apply update_book_spec in E. simpl. destruct o as [row|e].
  - destruct E as (_ & Hb & _).
    exists (fun r => if decide (b_id r = book_id)
                     then db.set_columns t d p a pd r else r).
    split; [exact Hb|]. intros r. destruct (decide (b_id r = book_id)).
    + split; [apply set_columns_keeps|].
      split; [apply set_columns_no_new_null|].
      split; [congruence|]. intros _ _ _. apply set_columns_takes.
    + split; [apply keeps_unsupplied_refl|].
      split; [apply no_new_null_refl|].
      split; [reflexivity|]. intros _ _ ?; contradiction.
  - exists (fun r => r). rewrite E. split; [by rewrite list_fmap_id|].
    intros r. split; [apply keeps_unsupplied_refl|].
    split; [apply no_new_null_refl|].
    split; [reflexivity | discriminate].
Qed.

(** ** Update with nothing supplied *)

Lemma update_book_core_none (pg : Backend) (book_id : Z) :
  db.update_book_core pg book_id None None None None None = ret tt.
Proof.
  unfold db.update_book_core. simpl.
  destruct (decide (EmptyString = EmptyString)); congruence.
Qed.

(** C10: on an existing book, [update_book] with every field [None] issues
    the final SELECT and nothing else (no UPDATE, no DELETE, no INSERT),
    leaves the store as it was and returns the stored row; the endpoint
    then answers with the book as [get_book_by_id] sees it in the unchanged
    store. *)
Theorem update_book_nothing_supplied (pg : Backend) (book_id : Z) (w : World)
    (r : BookRow) :
  find_book book_id (store w) = Some r ->
  db.update_book pg book_id None None None None None None w
  = (Return (Some r),
     mkWorld (store w)
             (issued w ++ [mkStmt "SELECT * FROM books WHERE id=$1" [VInt book_id]]))
  /\ (main.update_book pg book_id
        (main.mkBookUpdateIn None None None None None None) w).1
     = Return (book_view book_id (store w))
  /\ store (main.update_book pg book_id
              (main.mkBookUpdateIn None None None None None None) w).2
     = store w.
Proof.
  intros Hr.
  assert (db.update_book pg book_id None None None None None None w
          = (Return (Some r),
             mkWorld (store w)
               (issued w ++ [mkStmt "SELECT * FROM books WHERE id=$1" [VInt book_id]])))
    as Hdb.
  { unfold db.update_book. rewrite update_book_core_none.
    unfold transaction, bind, fetch, ret; simpl.
    unfold find_book in Hr. by rewrite Hr. }
  split; [exact Hdb|].
  assert (main.update_book pg book_id
            (main.mkBookUpdateIn None None None None None None) w
          = db.get_book_by_id book_id
              (mkWorld (store w)
                 (issued w ++ [mkStmt "SELECT * FROM books WHERE id=$1" [VInt book_id]])))
    as ->.
  { unfold main.update_book, main.validate_categories, main.check_author. simpl.
    unfold bind, ret. simpl. unfold find_book in Hr. by rewrite Hr. }
  split; [by rewrite get_book_by_id_value | by rewrite read_only_get_book_by_id].
Qed.

(** ** Deleting a book *)

Lemma filter_id_absent (book_id : Z) (bs : list BookRow) :
  book_id ∉ b_id <$> bs -> filter (fun r => b_id r = book_id) bs = [].
Proof.
  intros H. apply filter_none. apply Forall_forall. intros r Hr <-.
  apply H. apply list_elem_of_fmap. eauto.
Qed.

(** With [id] a key, at most one row carries a given id. *)
Lemma filter_id_at_most_one (book_id : Z) (bs : list BookRow) :
  NoDup (b_id <$> bs) ->
  (length (filter (fun r => b_id r = book_id) bs) <= 1)%nat.
Proof.
  induction bs as [|r bs IH]; intros Hnd; [simpl; lia|].
  rewrite fmap_cons in Hnd. apply NoDup_cons in Hnd as [Hr Hnd].
  destruct (decide (b_id r = book_id)) as [<-|Hne].
  - rewrite filter_cons_True by reflexivity.
    rewrite filter_id_absent by assumption. simpl; lia.
  - rewrite filter_cons_False by assumption. by apply IH.
Qed.

Lemma filter_id_after_delete (book_id : Z) (bs : list BookRow) :
  filter (fun r => b_id r = book_id) (filter (fun r => b_id r <> book_id) bs) = [].
Proof.
  apply filter_none. apply Forall_forall. intros r Hr.
  apply list_elem_of_filter in Hr as [Hr _]. intros ?; contradiction.
Qed.

(** What [delete_book] computes: the status is ['DELETE n'] for the number
    [n] of rows with that id, and the answer is whether the status ends in
    a character other than ['0']. *)
Lemma delete_book_run (pg : Backend) (book_id : Z) (w : World) :
  let n := length (filter (fun r => b_id r = book_id) (books (store w))) in
  exists s',
    db.delete_book pg book_id w
    = (Return (negb (bool_decide
                 (last_char ("DELETE " +:+ pretty n) = Some "0"%char))),
       mkWorld s' (issued w ++ [mkStmt "DELETE FROM books WHERE id=$1" [VInt book_id]]))
    /\ books s' = filter (fun r => b_id r <> book_id) (books (store w))
    /\ (n = 0%nat -> s' = store w).
Proof.
  intros n. unfold db.delete_book, bind, execute, db.delete_from_books, ret.
  fold n. eexists. split; [reflexivity|]. split.
  - destruct (on_delete_cascade pg && negb (n =? 0)%nat); reflexivity.
  - intros Hn. rewrite Hn. rewrite andb_false_r.
    assert (filter (fun r => b_id r <> book_id) (books (store w)) = books (store w))
      as ->.
    { apply filter_all. apply Forall_forall. intros r Hr Heq.
      apply length_zero_iff_nil in Hn.
      assert (r ∈ filter (fun r => b_id r = book_id) (books (store w))) as Hin
        by (apply list_elem_of_filter; split; assumption).
      rewrite Hn in Hin. by apply not_elem_of_nil in Hin. }
    apply with_books_same.
Qed.

(** C7: [delete_book] never raises.  With [id] a key of [books], it
    returns [True] exactly when a row with that id was there, and the row
    is gone afterwards; on an id with no row it returns [False] and leaves
    the store as it was; a second delete of the same id returns [False]. *)
Theorem delete_book_reports_removal (pg : Backend) (book_id : Z) (w : World) :
  NoDup (b_id <$> books (store w)) ->
  let run := db.delete_book pg book_id w in
  exists removed : bool,
    run.1 = Return removed
    /\ (removed = true <-> exists r, r ∈ books (store w) /\ b_id r = book_id)
    /\ books (store run.2)
       = filter (fun r => b_id r <> book_id) (books (store w))
    /\ (removed = false -> store run.2 = store w)
    /\ (db.delete_book pg book_id run.2).1 = Return false.
Proof.
  intros Hnd run. subst run.
  destruct (delete_book_run pg book_id w) as (s' & Hrun & Hbooks & Hsame).
  rewrite Hrun. cbn [fst snd store]. eexists. split; [reflexivity|].
  pose proof (filter_id_at_most_one book_id _ Hnd) as Hle.
  assert (forall r, r ∈ filter (fun r => b_id r = book_id) (books (store w))
                    <-> r ∈ books (store w) /\ b_id r = book_id) as Hmem.
  { intros r. rewrite list_elem_of_filter. tauto. }
  destruct (filter (fun r => b_id r = book_id) (books (store w)))
    as [|r0 [|r1 rest]] eqn:Hf; simpl in Hle; [| |lia].
  - (* no row: 'DELETE 0' *)
    split; [|split; [exact Hbooks|split]].
    + split; [vm_compute; discriminate|].
      intros (r & Hr). apply Hmem in Hr. by apply not_elem_of_nil in Hr.
    + intros _. by apply Hsame.
    + destruct (delete_book_run pg book_id
                  (mkWorld s' (issued w ++ [mkStmt "DELETE FROM books WHERE id=$1" [VInt book_id]])))
        as (s2 & Hrun2 & _). rewrite Hrun2. simpl.
      rewrite Hbooks, filter_id_after_delete. reflexivity.
  - (* one row: 'DELETE 1' *)
    split; [|split; [exact Hbooks|split]].
    + split; [|reflexivity]. intros _. exists r0. apply Hmem. left.
    + vm_compute. discriminate.
    + destruct (delete_book_run pg book_id
                  (mkWorld s' (issued w ++ [mkStmt "DELETE FROM books WHERE id=$1" [VInt book_id]])))
        as (s2 & Hrun2 & _). rewrite Hrun2. simpl.
      rewrite Hbooks, filter_id_after_delete. reflexivity.
Qed.

(** ** The key of [books] is kept

    The three operations that write to [books] keep [id] a key, however
    they end: the store a sequence of calls reaches from a store with a key
    has one. *)

Lemma patched_ids (book_id : Z) (t d : option string) (p : option float)
    (a : option Z) (pd : option date) (bs : list BookRow) :
  b_id <$> patched book_id t d p a pd bs = b_id <$> bs.
Proof.
  unfold patched. rewrite <- list_fmap_compose.
  apply Forall_fmap_ext, Forall_forall. intros r _. simpl.
  by destruct (decide _).
Qed.

Lemma update_book_keeps_id_key (pg : Backend) (book_id : Z)
    (t d : option string) (p : option float) (a : option Z)
    (pd : option date) (cids : option (list Z)) (w : World) :
  id_key (store w) ->
  id_key (store (db.update_book pg book_id t d p a pd cids w).2).
Proof.
  intros [Hnd Hle].
  destruct (db.update_book pg book_id t d p a pd cids w) as [o w'] eqn:E.
  apply update_book_spec in E. cbn [snd]. destruct o as [row|e].
  - destruct E as (_ & Hb & _ & _ & _ & _ & Hq). unfold id_key.
    rewrite Hb, Hq, patched_ids. split; [exact Hnd|].
    unfold patched. apply Forall_fmap, Forall_forall. intros r Hr. simpl.
    rewrite Forall_forall in Hle. specialize (Hle r Hr).
    by destruct (decide _).
  - rewrite E. by split.
Qed.

Lemma delete_book_keeps_id_key (pg : Backend) (book_id : Z) (w : World) :
  id_key (store w) -> id_key (store (db.delete_book pg book_id w).2).
Proof.
  intros [Hnd Hle].
  unfold db.delete_book, bind, execute, db.delete_from_books, ret.
  cbn [snd store].
  assert (NoDup (b_id <$> filter (fun r => b_id r <> book_id) (books (store w)))
          /\ Forall (fun r => b_id r <= books_id_seq (store w))
                    (filter (fun r => b_id r <> book_id) (books (store w))))
    as Hkey.
  { split.
    - eapply sublist_NoDup;
        first [exact Hnd | apply fmap_sublist, sublist_filter].
    - apply Forall_forall. intros r Hr.
      apply list_elem_of_filter in Hr as [_ Hr].
      rewrite Forall_forall in Hle. by apply Hle. }
  destruct (on_delete_cascade pg && _); exact Hkey.
Qed.

Lemma create_book_keeps_id_key (pg : Backend) (t d : string) (p : float)
    (a : Z) (pd : date) (cids : list Z) (w : World) :
  id_key (store w) -> id_key (store (db.create_book pg t d p a pd cids w).2).
Proof.
  intros [Hnd Hle]. rewrite Forall_forall in Hle.
  unfold db.create_book, transaction.
  unfold bind at 1 2. unfold execute at 1, db.insert_book.
  destruct (books_check pg (store w) _).
  - unfold bind at 1.
    match goal with |- context [for_each cids ?b ?w1] =>
      destruct (for_each cids b w1) as [o1 w1'] eqn:E end.
    apply insert_loop_spec in E as [(_ & _ & HB & _ & HQ) _].
    cbn [store books books_id_seq db.with_seq db.with_books] in HB, HQ.
    destruct o1 as [[]|e]; unfold ret; cbn [snd store]; unfold id_key.
    + rewrite HB, HQ. split.
      * rewrite fmap_app. apply NoDup_app. split; [exact Hnd|].
        split; [|apply NoDup_singleton].
        intros i Hi Hi'. apply list_elem_of_fmap in Hi as (r & -> & Hr).
        apply list_elem_of_singleton in Hi'. simpl in Hi'.
        specialize (Hle r Hr). lia.
      * apply Forall_app. split.
        -- apply Forall_forall. intros r Hr. specialize (Hle r Hr). lia.
        -- apply Forall_singleton. simpl. lia.
    + cbn [rolled_back books books_id_seq]. rewrite HQ. split; [exact Hnd|].
      apply Forall_forall. intros r Hr. specialize (Hle r Hr). lia.
  - cbn [snd store rolled_back books books_id_seq db.with_seq].
    split; [exact Hnd|].
    apply Forall_forall. intros r Hr. specialize (Hle r Hr). simpl. lia.
Qed.

(** ** Creating a book *)

Lemma head_filter_is_Some {A} (P : A -> Prop) `{!forall x, Decision (P x)}
    (l : list A) :
  is_Some (head (filter P l)) <-> exists x, x ∈ l /\ P x.
Proof.
  split.
  - intros [x Hx]. exists x.
    assert (x ∈ filter P l) as Hin.
    { destruct (filter P l) as [|y ys]; [discriminate|].
      injection Hx as ->. left. }
    apply list_elem_of_filter in Hin. tauto.
  - intros (x & Hx & HP).
    assert (x ∈ filter P l) as Hin by (apply list_elem_of_filter; tauto).
    destruct (filter P l); [by apply not_elem_of_nil in Hin | eauto].
Qed.

Lemma head_filter_None {A} (P : A -> Prop) `{!forall x, Decision (P x)}
    (l : list A) :
  head (filter P l) = None <-> ~ exists x, x ∈ l /\ P x.
Proof.
  rewrite <- head_filter_is_Some. rewrite eq_None_not_Some. reflexivity.
Qed.

(** The transaction of [create_book]: a call that raises leaves every
    table as it was; a call that returns has appended the book row, with
    the id drawn from the sequence, and one association row per category
    id. *)
Lemma create_book_spec (pg : Backend) (t d : string) (p : float) (a : Z)
    (pd : date) (cids : list Z) (w : World) (o : outcome BookRow) (w' : World) :
  db.create_book pg t d p a pd cids w = (o, w') ->
  match o with
  | Raise _ => tables (store w') = tables (store w)
  | Return row =>
      row = mkBook (books_id_seq (store w) + 1) (Some t) (Some d) (Some p)
                   (Some a) (Some pd)
      /\ books (store w') = books (store w) ++ [row]
      /\ book_categories (store w')
         = book_categories (store w) ++ ((fun cid => (b_id row, cid)) <$> cids)
      /\ authors (store w') = authors (store w)
      /\ categories (store w') = categories (store w)
      /\ logs (store w') = logs (store w)
  end.
Proof.
  unfold db.create_book, transaction.
  unfold bind at 1 2. unfold execute at 1, db.insert_book.
  destruct (books_check pg (store w) _).
  - unfold bind at 1.
    match goal with |- context [for_each cids ?b ?w1] =>
      destruct (for_each cids b w1) as [o1 w1'] eqn:E end.
    apply insert_loop_spec in E as [(HA & HC & HB & HL & HQ) Hr].
    cbn [store b_id] in *. destruct o1 as [[]|e]; intros [= <- <-].
    + rewrite (Hr tt eq_refl). cbn [store]. repeat split; assumption.
    + reflexivity.
  - intros [= <- <-]. reflexivity.
Qed.

Lemma validate_categories_cons (cid : Z) (ids : list Z) (w : World) :
  main.validate_categories (cid :: ids) w
  = let w1 := mkWorld (store w)
                (issued w ++ [mkStmt "SELECT id, name FROM categories WHERE id=$1"
                                     [VInt cid]]) in
    match head (filter (fun c => c_id c = cid) (categories (store w))) with
    | Some _ => main.validate_categories ids w1
    | None =>
        (Raise (HTTPException 400 ("Invalid category_id " +:+ pretty cid)), w1)
    end.
Proof.
  unfold main.validate_categories. simpl.
  unfold bind, db.get_category_by_id, fetch, ret, raise. simpl.
  destruct (head _); reflexivity.
Qed.

(** The validation loop: it returns when every id resolves, and otherwise
    raises the 400 of the first id that does not. *)
Lemma validate_categories_run (ids : list Z) (w : World) :
  (Forall (category_exists (store w)) ids
   /\ (main.validate_categories ids w).1 = Return tt)
  \/ (exists cid, cid ∈ ids /\ ~ category_exists (store w) cid
      /\ (main.validate_categories ids w).1
         = Raise (HTTPException 400 ("Invalid category_id " +:+ pretty cid))).
Proof.
  revert w. induction ids as [|cid ids IH]; intros w.
  - left. split; [constructor | reflexivity].
  - rewrite validate_categories_cons. cbv zeta.
    destruct (head (filter (fun c => c_id c = cid) (categories (store w))))
      as [c|] eqn:Hc.
    + assert (category_exists (store w) cid) as Hex.
      { apply (proj1 (head_filter_is_Some (fun c => c_id c = cid) _)). eauto. }
      match goal with |- context [main.validate_categories ids ?w1] =>
        destruct (IH w1) as [[Hall Hrun] | (bad & Hin & Hbad & Hrun)] end.
      * left. split; [constructor; assumption | exact Hrun].
      * right. exists bad. split; [by right|]. split; [exact Hbad | exact Hrun].
    + right. exists cid. split; [left|]. split; [|reflexivity].
      exact (proj1 (head_filter_None (fun c => c_id c = cid) _) Hc).
Qed.

Lemma book_view_is_Some (book_id : Z) (s : Store) (r : BookRow) (a : AuthorRow) :
  r ∈ books s -> b_id r = book_id -> a ∈ authors s ->
  b_author_id r = Some (a_id a) ->
  is_Some (book_view book_id s).
Proof.
  intros Hr Hid Ha Hfk. unfold book_view.
  assert (is_Some (head (filter (fun x => b_id (lr_book x) = book_id)
                                (db.books_join_authors s)))) as [x ->]; [|eauto].
  apply (proj2 (head_filter_is_Some (fun x => b_id (lr_book x) = book_id) _)).
  exists (mkListRow r (a_name a)).
  split; [|exact Hid]. unfold db.books_join_authors.
  apply list_elem_of_bind. exists r. split; [|exact Hr].
  apply list_elem_of_fmap. exists a. split; [reflexivity|].
  apply list_elem_of_filter. split; assumption.
Qed.

(** The endpoint, step by step. *)
Lemma create_book_unfold (pg : Backend) (book : main.BookIn) (w : World) :
  main.create_book pg book w
  = let w1 := mkWorld (store w)
                (issued w ++ [mkStmt "SELECT id, name, bio FROM authors WHERE id=$1"
                                     [VInt (main.author_id book)]]) in
    match head (filter (fun a => a_id a = main.author_id book)
                       (authors (store w))) with
    | None => (Raise (HTTPException 400 "Invalid author_id"), w1)
    | Some _ =>
        match main.validate_categories (main.category_ids book) w1 with
        | (Raise e, w2) => (Raise e, w2)
        | (Return _, w2) =>
            match db.create_book pg (main.title book) (main.description book)
                    (main.price book) (main.author_id book)
                    (main.published_date book) (main.category_ids book) w2 with
            | (Raise e, w3) => (Raise e, w3)
            | (Return row, w3) => db.get_book_by_id (b_id row) w3
            end
        end
    end.
Proof.
  unfold main.create_book, bind, db.get_author_by_id, fetch, raise.
  cbv zeta. destruct (head _); reflexivity.
Qed.

(** C3: [create_book] fails only by raising (it never answers without a
    book), and whenever it raises every table is as it was before the
    call: no book row and no association row persists.  When the author id
    or one of the category ids does not resolve, the call raises the 400 of
    the validation and the store, sequence included, is untouched. *)
Theorem create_book_failure_changes_nothing (pg : Backend) (book : main.BookIn)
    (w : World) :
  let run := main.create_book pg book w in
  (forall e, run.1 = Raise e -> tables (store run.2) = tables (store w))
  /\ run.1 <> Return None
  /\ (~ author_exists (store w) (main.author_id book)
      \/ ~ Forall (category_exists (store w)) (main.category_ids book) ->
      (exists detail, run.1 = Raise (HTTPException 400 detail))
      /\ store run.2 = store w).
Proof.
  intros run. subst run. rewrite create_book_unfold. cbv zeta.
  destruct (head (filter (fun a => a_id a = main.author_id book)
                         (authors (store w)))) as [a|] eqn:Ha.
  2:{ cbn [fst snd store]. split; [reflexivity|]. split; [discriminate|].
      intros _. split; [eauto | reflexivity]. }
  assert (a ∈ authors (store w) /\ a_id a = main.author_id book) as [Hain Haid].
  { assert (a ∈ filter (fun a => a_id a = main.author_id book) (authors (store w)))
      as Hin by (destruct (filter _ _); [discriminate | injection Ha as ->; left]).
    apply list_elem_of_filter in Hin. tauto. }
  match goal with |- context [main.validate_categories _ ?w0] =>
    set (w1 := w0) end.
  pose proof (read_only_validate_categories (main.category_ids book) w1) as Hro.
  pose proof (validate_categories_run (main.category_ids book) w1) as Hval.
  destruct (main.validate_categories (main.category_ids book) w1) as [o2 w2].
  cbn [fst snd store] in Hro, Hval. subst w1. cbn [store] in Hro, Hval.
  destruct Hval as [[Hall ->] | (bad & Hin & Hbad & ->)].
  2:{ cbn [fst snd]. split; [intros _ _; by rewrite Hro|].
      split; [discriminate|]. intros _. split; [eauto | exact Hro]. }
  destruct (db.create_book pg _ _ _ _ _ _ w2) as [o3 w3] eqn:E3.
  apply create_book_spec in E3. destruct o3 as [row|e].
  - destruct E3 as (Hrow & Hbooks & _ & Hauthors & _).
    pose proof (get_book_by_id_value (b_id row) w3) as Hv.
    destruct (db.get_book_by_id (b_id row) w3) as [o4 w4].
    cbn [fst snd] in *. subst o4.
    assert (is_Some (book_view (b_id row) (store w3))) as [bf Hbf].
    { apply (book_view_is_Some _ _ row a).
      - rewrite Hbooks. apply elem_of_app. right. left.
      - reflexivity.
      - by rewrite Hauthors, Hro.
      - rewrite Hrow. cbn [b_author_id]. by rewrite Haid. }
    rewrite Hbf. split; [discriminate|]. split; [discriminate|].
    intros [Hna | Hnc]; exfalso.
    + apply Hna. exists a. split; assumption.
    + apply Hnc. exact Hall.
  - cbn [fst snd]. split; [intros _ _; by rewrite E3, Hro|].
    split; [discriminate|].
    intros [Hna | Hnc]; exfalso.
    + apply Hna. exists a. split; assumption.
    + apply Hnc. exact Hall.
Qed.

(** The same category id twice passes the validation and makes the second
    association insert fail on the composite key: the transaction is rolled
    back, and only the sequence remembers the attempt. *)
Example create_book_duplicate_category_rolled_back :
  let book := main.mkBookIn "Maps of Winter" "More maps" 12%float 2 demo_date
                            [10; 10] in
  let run := main.create_book demo_pg book demo_world in
  run.1 = Raise (PostgresError
                   (mkStmt db.insert_book_category_sql [VInt 3; VInt 10]))
  /\ tables (store run.2) = tables demo_store
  /\ books_id_seq (store run.2) = 3.
Proof. vm_compute. repeat split. Qed.

Example create_book_ok :
  let book := main.mkBookIn "Maps of Winter" "More maps" 12%float 2 demo_date
                            [11; 10] in
  let run := main.create_book demo_pg book demo_world in
  run.1 = Return (Some (mkFull
                    (mkBook 3 (Some "Maps of Winter") (Some "More maps")
                            (Some 12%float) (Some 2) (Some demo_date))
                    "Bob" [mkLite 10 "Fantasy"; mkLite 11 "History"]))
  /\ book_categories (store run.2) = [(1, 10); (1, 11); (3, 11); (3, 10)].
Proof. vm_compute. repeat split. Qed.

(** ** The update endpoint *)

Lemma read_only_check_author (a : option Z) : read_only (main.check_author a).
Proof.
  unfold main.check_author. destruct (truthy_int a); [|apply read_only_ret].
  apply read_only_bind; [apply read_only_fetch|].
  intros [r|]; [apply read_only_ret | apply read_only_raise].
Qed.

(** The author check passes when the id is falsy or resolves, and raises
    the 400 otherwise. *)
Lemma check_author_run (a : option Z) (w : World) :
  ((forall x, truthy_int a = Some x -> author_exists (store w) x)
   /\ (main.check_author a w).1 = Return tt)
  \/ (exists x, truthy_int a = Some x /\ ~ author_exists (store w) x
      /\ (main.check_author a w).1
         = Raise (HTTPException 400 "Invalid author_id")).
Proof.
  unfold main.check_author. destruct (truthy_int a) as [x|].
  - unfold bind, db.get_author_by_id, fetch. cbn [fst snd store].
    destruct (head (filter (fun r => a_id r = x) (authors (store w)))) eqn:Hh.
    + left. split; [|reflexivity]. intros ? [= <-].
      apply (proj1 (head_filter_is_Some (fun r => a_id r = x) _)). eauto.
    + right. exists x. split; [reflexivity|]. split; [|reflexivity].
      exact (proj1 (head_filter_None (fun r => a_id r = x) _) Hh).
  - left. split; [discriminate | reflexivity].
Qed.

Lemma update_book_unfold (pg : Backend) (book_id : Z) (u : main.BookUpdateIn)
    (w : World) :
  main.update_book pg book_id u w
  = match main.check_author (main.up_author_id u) w with
    | (Raise e, w1) => (Raise e, w1)
    | (Return _, w1) =>
        match main.validate_categories (truthy_list (main.up_category_ids u)) w1 with
        | (Raise e, w2) => (Raise e, w2)
        | (Return _, w2) =>
            match db.update_book pg book_id (main.up_title u)
                    (main.up_description u) (main.up_price u)
                    (main.up_author_id u) (main.up_published_date u)
                    (main.up_category_ids u) w2 with
            | (Raise e, w3) => (Raise e, w3)
            | (Return None, w3) =>
                (Raise (HTTPException 404 "Book not found"), w3)
            | (Return (Some _), w3) => db.get_book_by_id book_id w3
            end
        end
    end.
Proof.
  unfold main.update_book, bind, raise.
  destruct (main.check_author _ w) as [[[]|e] w1]; [|reflexivity].
  destruct (main.validate_categories _ w1) as [[[]|e] w2]; [|reflexivity].
  destruct (db.update_book _ _ _ _ _ _ _ _ w2) as [[[r|]|e] w3]; reflexivity.
Qed.

Lemma filter_id_patched (book_id : Z) (t d : option string) (p : option float)
    (a : option Z) (pd : option date) (bs : list BookRow) :
  filter (fun r => b_id r = book_id) (patched book_id t d p a pd bs)
  = db.set_columns t d p a pd <$> filter (fun r => b_id r = book_id) bs.
Proof.
  unfold patched. induction bs as [|r bs IH]; [reflexivity|].
  rewrite fmap_cons. destruct (decide (b_id r = book_id)) as [Heq|Hne].
  - rewrite !filter_cons_True by (try rewrite set_columns_id; assumption).
    rewrite fmap_cons. by rewrite IH.
  - rewrite !filter_cons_False by assumption. exact IH.
Qed.

Lemma find_book_patched (book_id : Z) (t d : option string) (p : option float)
    (a : option Z) (pd : option date) (s s' : Store) :
  books s' = patched book_id t d p a pd (books s) ->
  find_book book_id s' = db.set_columns t d p a pd <$> find_book book_id s.
Proof.
  intros H. unfold find_book. rewrite H, filter_id_patched.
  by destruct (filter _ (books s)).
Qed.

Lemma patched_absent (book_id : Z) (t d : option string) (p : option float)
    (a : option Z) (pd : option date) (bs : list BookRow) :
  head (filter (fun r => b_id r = book_id) bs) = None ->
  patched book_id t d p a pd bs = bs.
Proof.
  unfold patched. induction bs as [|r bs IH]; [reflexivity|].
  rewrite fmap_cons. destruct (decide (b_id r = book_id)) as [Heq|Hne].
  - rewrite filter_cons_True by assumption. discriminate.
  - rewrite filter_cons_False by assumption. intros H. by rewrite IH.
Qed.

Lemma book_view_categories (book_id : Z) (s : Store) (bf : BookFull) :
  book_view book_id s = Some bf ->
  bk_categories bf = db.categories_of_book book_id s.
Proof.
  unfold book_view. destruct (head _); [|discriminate].
  by intros [= <-].
Qed.

Lemma categories_of_book_no_associations (book_id : Z) (s : Store) :
  associations book_id s = [] -> db.categories_of_book book_id s = [].
Proof.
  unfold associations, db.categories_of_book. intros Hno.
  induction (categories s) as [|c cs IH]; [reflexivity|].
  rewrite bind_cons, IH, app_nil_r.
  rewrite (filter_none (fun bc : Z * Z => c_id c = bc.2 /\ bc.1 = book_id));
    [reflexivity|].
  apply Forall_forall. intros bc Hbc [_ Hid].
  assert (bc ∈ filter (fun bc : Z * Z => bc.1 = book_id) (book_categories s)) as Hin
    by (apply list_elem_of_filter; split; assumption).
  rewrite Hno in Hin. by apply not_elem_of_nil in Hin.
Qed.

Lemma categories_of_book_ext (book_id : Z) (s s' : Store) :
  categories s' = categories s -> book_categories s' = book_categories s ->
  db.categories_of_book book_id s' = db.categories_of_book book_id s.
Proof. unfold db.categories_of_book. by intros -> ->. Qed.

(** Without inserts to run, [update_book] returns exactly when its core
    update does. *)
Lemma update_book_returns_iff_core (pg : Backend) (book_id : Z)
    (t d : option string) (p : option float) (a : option Z)
    (pd : option date) (cids : option (list Z)) (w : World) :
  cids = None \/ cids = Some [] ->
  (exists row, (db.update_book pg book_id t d p a pd cids w).1 = Return row)
  <-> (db.update_book_core pg book_id t d p a pd w).1 = Return tt.
Proof.
  intros Hc. unfold db.update_book, transaction, bind.
  destruct (db.update_book_core pg book_id t d p a pd w) as [[[]|e] w1].
  - destruct Hc as [-> | ->]; cbn; split; eauto.
  - cbn. split; [intros [? ?]|]; discriminate.
Qed.

Lemma store_ext (s s' : Store) :
  authors s' = authors s -> categories s' = categories s ->
  books s' = books s -> book_categories s' = book_categories s ->
  logs s' = logs s -> books_id_seq s' = books_id_seq s -> s' = s.
Proof. destruct s, s'; simpl; intros; congruence. Qed.

Lemma associations_after_clear (book_id : Z) (bcs : list (Z * Z)) (s : Store) :
  book_categories s
  = filter (fun bc : Z * Z => bc.1 <> book_id) bcs
    ++ ((fun cid => (book_id, cid)) <$> []) ->
  associations book_id s = [].
Proof.
  intros H. unfold associations. rewrite H. simpl. rewrite app_nil_r.
  apply filter_none. apply Forall_forall. intros bc Hbc.
  apply list_elem_of_filter in Hbc as [Hbc _]. intros ?; contradiction.
Qed.

(** C2: on an existing book, the update with [category_ids=[]] and the
    update with [category_ids] omitted (all other fields equal) end the
    same way - both return or both raise - and both return when no core
    field is supplied.  When the first returns, the book has no association
    row left and the book it answers with has an empty [categories]; when
    the second returns, [book_categories] is exactly as before and the book
    it answers with has the categories the book had. *)
Theorem update_book_empty_list_vs_omitted (pg : Backend) (book_id : Z)
    (u : main.BookUpdateIn) (w : World) :
  is_Some (find_book book_id (store w)) ->
  let empty := main.update_book pg book_id (with_category_ids u (Some [])) w in
  let omitted := main.update_book pg book_id (with_category_ids u None) w in
  (forall b, empty.1 = Return b ->
     associations book_id (store empty.2) = []
     /\ forall bf, b = Some bf -> bk_categories bf = [])
  /\ (forall b, omitted.1 = Return b ->
        book_categories (store omitted.2) = book_categories (store w)
        /\ forall bf, b = Some bf ->
             bk_categories bf = db.categories_of_book book_id (store w))
  /\ ((exists b, empty.1 = Return b) <-> (exists b, omitted.1 = Return b))
  /\ (no_core_field u -> exists b, empty.1 = Return b).
Proof.
  intros [r0 Hr0] empty omitted. subst empty omitted.
  rewrite !update_book_unfold. unfold with_category_ids.
  cbn [main.up_title main.up_description main.up_price main.up_author_id
       main.up_published_date main.up_category_ids truthy_list].
  pose proof (read_only_check_author (main.up_author_id u) w) as Hro.
  pose proof (check_author_run (main.up_author_id u) w) as Hca.
  destruct (main.check_author (main.up_author_id u) w) as [[[]|e] w1];
    cbn [fst snd] in Hro, Hca.
  2:{ repeat split; try (intros; discriminate);
        try (intros [? ?]; discriminate).
      intros (_ & _ & _ & Ha & _). rewrite Ha in Hca.
      destruct Hca as [[_ ?] | (x & ? & _)]; discriminate. }
  change (main.validate_categories [] w1) with (Return tt, w1).
  cbv iota beta.
  set (t := main.up_title u) in *. set (d := main.up_description u) in *.
  set (p := main.up_price u) in *. set (a := main.up_author_id u) in *.
  set (pd := main.up_published_date u) in *.
  pose proof (update_book_returns_iff_core pg book_id t d p a pd (Some []) w1
                (or_intror eq_refl)) as Hi1.
  pose proof (update_book_returns_iff_core pg book_id t d p a pd None w1
                (or_introl eq_refl)) as Hi2.
  assert (forall s', books s' = patched book_id t d p a pd (books (store w1)) ->
                     is_Some (find_book book_id s')) as Hfound.
  { intros s' Hs'. rewrite (find_book_patched _ _ _ _ _ _ _ _ Hs'), Hro, Hr0.
    eauto. }
  assert (no_core_field u ->
          (db.update_book_core pg book_id t d p a pd w1).1 = Return tt) as Hnone.
  { unfold no_core_field. fold t d p a pd. intros (-> & -> & -> & -> & ->).
    by rewrite update_book_core_none. }
  destruct (db.update_book pg book_id t d p a pd (Some []) w1) as [o1 w3] eqn:E1.
  destruct (db.update_book pg book_id t d p a pd None w1) as [o2 w4] eqn:E2.
  apply update_book_spec in E1, E2. cbn [fst] in Hi1, Hi2.
  destruct o1 as [row1|e1], o2 as [row2|e2].
  - destruct E1 as (-> & Hb1 & Hbc1 & _ & Hc1 & _).
    destruct E2 as (-> & Hb2 & Hbc2 & _ & Hc2 & _).
    destruct (Hfound _ Hb1) as [x1 ->]. destruct (Hfound _ Hb2) as [x2 ->].
    pose proof (get_book_by_id_value book_id w3) as Hv3.
    pose proof (read_only_get_book_by_id book_id w3) as Hr3.
    pose proof (get_book_by_id_value book_id w4) as Hv4.
    pose proof (read_only_get_book_by_id book_id w4) as Hr4.
    destruct (db.get_book_by_id book_id w3) as [o5 w5].
    destruct (db.get_book_by_id book_id w4) as [o6 w6].
    cbn [fst snd] in *. subst o5 o6. rewrite Hr3, Hr4.
    pose proof (associations_after_clear _ _ _ Hbc1) as Hno.
    split; [|split; [|split]].
    + intros b [= <-]. split; [exact Hno|]. intros bf Hbf.
      apply book_view_categories in Hbf. rewrite Hbf.
      by apply categories_of_book_no_associations.
    + intros b [= <-]. rewrite Hbc2, Hro. split; [reflexivity|].
      intros bf Hbf. apply book_view_categories in Hbf.
      rewrite Hbf. apply categories_of_book_ext; congruence.
    + split; eauto.
    + eauto.
  - exfalso. assert (exists row, Return row1 = Return row) as H by eauto.
    apply Hi1, Hi2 in H. destruct H; discriminate.
  - exfalso. assert (exists row, Return row2 = Return row) as H by eauto.
    apply Hi2, Hi1 in H. destruct H; discriminate.
  - cbn [fst snd]. repeat split; try (intros; discriminate);
      try (intros [? ?]; discriminate).
    intros Hn. apply Hnone, Hi1 in Hn. destruct Hn; discriminate.
Qed.

Lemma update_book_core_absent (pg : Backend) (book_id : Z) (t d : option string)
    (p : option float) (a : option Z) (pd : option date) (w : World) :
  find_book book_id (store w) = None ->
  (db.update_book_core pg book_id t d p a pd w).1 = Return tt.
Proof.
  intros Habs. unfold db.update_book_core.
  destruct (db.update_fields t d p a pd) as [[uf ps] idx] eqn:E.
  destruct (decide _) as [|He]; [reflexivity|].
  unfold execute. rewrite (update_books_built pg book_id t d p a pd _ _ _ _ E He).
  unfold find_book in Habs.
  destruct (filter (fun r => b_id r = book_id) (books (store w)));
    [reflexivity | discriminate].
Qed.

(** On an id with no row, and with no association row to insert or to
    remove, [update_book] returns [None] and the store is as before. *)
Lemma update_book_absent (pg : Backend) (book_id : Z) (t d : option string)
    (p : option float) (a : option Z) (pd : option date)
    (cids : option (list Z)) (w : World) :
  find_book book_id (store w) = None ->
  cids = None \/ (cids = Some [] /\ associations book_id (store w) = []) ->
  (db.update_book pg book_id t d p a pd cids w).1 = Return None
  /\ store (db.update_book pg book_id t d p a pd cids w).2 = store w.
Proof.
  intros Habs Hc.
  assert (cids = None \/ cids = Some []) as Hc' by (destruct Hc as [|[? _]]; eauto).
  pose proof (update_book_returns_iff_core pg book_id t d p a pd cids w Hc') as Hi.
  pose proof (update_book_core_absent pg book_id t d p a pd w Habs) as Hcore.
  apply Hi in Hcore as [row Hrow].
  destruct (db.update_book pg book_id t d p a pd cids w) as [o w'] eqn:E.
  apply update_book_spec in E. cbn [fst snd] in *. subst o.
  destruct E as (-> & Hb & Hbc & HA & HC & HL & HQ).
  rewrite (patched_absent _ _ _ _ _ _ _ Habs) in Hb.
  split.
  - f_equal. unfold find_book in *. by rewrite Hb.
  - apply store_ext; try assumption.
    destruct Hc as [-> | [-> Hno]]; [exact Hbc|].
    rewrite Hbc. simpl. rewrite app_nil_r. apply filter_all.
    apply Forall_forall. intros bc Hin Heq.
    assert (bc ∈ associations book_id (store w)) as Hin'
      by (apply list_elem_of_filter; split; assumption).
    rewrite Hno in Hin'. by apply not_elem_of_nil in Hin'.
Qed.

(** C4 (as amended): on an id with no book, the update raises the 400 of
    the validation when a supplied non-zero author id, or a supplied
    category id, does not resolve; when the references pass and
    [category_ids] is omitted - or empty, the id having no association
    row - it raises the 404 "Book not found".  In each of these cases the
    store is as before the call. *)
Theorem update_missing_book_not_found (pg : Backend) (book_id : Z)
    (u : main.BookUpdateIn) (w : World) :
  find_book book_id (store w) = None ->
  let run := main.update_book pg book_id u w in
  let author_ok :=
    forall a, truthy_int (main.up_author_id u) = Some a ->
              author_exists (store w) a in
  (~ author_ok ->
     run.1 = Raise (HTTPException 400 "Invalid author_id")
     /\ store run.2 = store w)
  /\ (author_ok ->
      ~ Forall (category_exists (store w)) (truthy_list (main.up_category_ids u)) ->
      (exists cid : Z,
         run.1 = Raise (HTTPException 400
                          ("Invalid category_id " +:+ pretty cid)))
      /\ store run.2 = store w)
  /\ (author_ok ->
      main.up_category_ids u = None
      \/ (main.up_category_ids u = Some []
          /\ associations book_id (store w) = []) ->
      run.1 = Raise (HTTPException 404 "Book not found")
      /\ store run.2 = store w).
Proof.
  intros Habs run author_ok. subst run author_ok.
  rewrite update_book_unfold.
  pose proof (read_only_check_author (main.up_author_id u) w) as Hro.
  pose proof (check_author_run (main.up_author_id u) w) as Hca.
  destruct (main.check_author (main.up_author_id u) w) as [o1 w1].
  cbn [fst snd] in Hro, Hca.
  destruct Hca as [[Hok ->] | (x & Hx & Hbad & ->)].
  2:{ cbn [fst snd]. split; [intros _; split; [reflexivity | exact Hro]|].
      split; intros Hall; exfalso; apply Hbad, Hall, Hx. }
  split; [intros Hn; exfalso; apply Hn, Hok|].
  pose proof (read_only_validate_categories
                (truthy_list (main.up_category_ids u)) w1) as Hro2.
  pose proof (validate_categories_run
                (truthy_list (main.up_category_ids u)) w1) as Hval.
  destruct (main.validate_categories _ w1) as [o2 w2].
  cbn [fst snd] in Hro2, Hval. rewrite Hro in Hro2, Hval.
  destruct Hval as [[Hall ->] | (bad & Hin & Hbad & ->)].
  2:{ cbn [fst snd]. split; [intros _ _; split; [eauto | exact Hro2]|].
      intros _ [Hnone | [Hempty _]]; exfalso.
      - rewrite Hnone in Hin. by apply not_elem_of_nil in Hin.
      - rewrite Hempty in Hin. by apply not_elem_of_nil in Hin. }
  split; [intros _ Hn; exfalso; apply Hn, Hall|].
  intros _ Hc.
  assert (find_book book_id (store w2) = None) as Habs2 by (by rewrite Hro2).
  rewrite <- Hro2 in Hc.
  destruct (update_book_absent pg book_id (main.up_title u)
              (main.up_description u) (main.up_price u) (main.up_author_id u)
              (main.up_published_date u) (main.up_category_ids u) w2 Habs2 Hc)
    as [Hv Hs].
  destruct (db.update_book pg book_id _ _ _ _ _ _ w2) as [o3 w3].
  cbn [fst snd] in *. subst o3. cbv iota beta. cbn [fst snd].
  split; [reflexivity | congruence].
Qed.

(** C4 (as stated) fails: the book 99 does not exist, the author 77 does
    not exist either, and the update answers with the 400 of the author
    check, not with the 404. *)
Lemma missing_book_invalid_author_gets_400 :
  let u := main.mkBookUpdateIn None None None (Some 77) None None in
  find_book 99 (store demo_world) = None
  /\ (main.update_book demo_pg 99 u demo_world).1
     = Raise (HTTPException 400 "Invalid author_id")
  /\ (main.update_book demo_pg 99 u demo_world).1
     <> Raise (HTTPException 404 "Book not found").
Proof. vm_compute. repeat split. discriminate. Qed.

(** What the amended statement leaves out: with ids supplied for a book
    that does not exist, the association insert either violates the
    foreign key (the error of the database is what the caller gets) or,
    where no such key is declared, succeeds and is committed before the 404
    is raised. *)
Example missing_book_with_categories_example :
  let u := main.mkBookUpdateIn None None None None None (Some [10]) in
  (main.update_book demo_pg 99 u demo_world).1
  = Raise (PostgresError (mkStmt db.insert_book_category_sql [VInt 99; VInt 10]))
  /\ (main.update_book loose_pg 99 u demo_world).1
     = Raise (HTTPException 404 "Book not found")
  /\ book_categories (store (main.update_book loose_pg 99 u demo_world).2)
     = [(1, 10); (1, 11); (99, 10)].
Proof. vm_compute. repeat split. Qed.

(** ** The listing statement, read by the server *)

Lemma string_app_nil_r (s : string) : s +:+ EmptyString = s.
Proof.
  induction s as [|c s IH]; [reflexivity|].
  change (String c (s +:+ EmptyString) = String c s). by rewrite IH.
Qed.

Lemma parse_page_pretty (limit offset : Z) :
  db.parse_page (pretty limit +:+ " OFFSET " +:+ pretty offset)
  = Some (limit, offset).
Proof.
  unfold db.parse_page.
  rewrite integer_pretty by reflexivity. cbn [mbind option_bind fst snd].
  change (strip_prefix " OFFSET " (" OFFSET " +:+ pretty offset))
    with (Some (pretty offset)). cbn [mbind option_bind].
  rewrite <- (string_app_nil_r (pretty offset)).
  rewrite integer_pretty by exact I. cbn [mbind option_bind fst snd].
  by destruct (decide (EmptyString = EmptyString)).
Qed.

(** The text [list_books] builds is a listing the server reads: the
    category join is there exactly when a category is asked for, the
    predicates of the WHERE clause find their arguments and are together
    the conjunction of the active filters, and the page is the one asked
    for. *)
Lemma list_books_sql_read (pg : Backend) (a c : option Z) (q : option string)
    (limit offset : Z) :
  let sql := db.list_books_sql a c q limit offset in
  let join_bc := match c with Some _ => true | None => false end in
  exists conds tests,
    db.parse_select (text sql) = Some (db.mkSelect join_bc conds limit offset)
    /\ mapM (fun cd => param (args sql) (db.placeholder cd)
                         ≫= db.cond_test pg join_bc cd) conds
       = Some tests
    /\ all_bound (db.placeholder <$> conds) (args sql) = true
    /\ forall row, forallb (fun t => t row) tests = listing_where pg a c q row.
Proof.
  intros sql join_bc. subst sql join_bc.
  rewrite list_books_sql_args.
  pose proof (parse_page_pretty limit offset) as HT.
  unfold db.list_books_sql, listing_where.
  destruct a as [x|], c as [y|], (truthy_str q) as [phrase|];
    cbv beta iota zeta; cbn [text join app];
    revert HT; generalize (pretty limit +:+ " OFFSET " +:+ pretty offset);
    intros T HT;
    (eexists; eexists; split;
     [ lazy -[db.parse_page]; rewrite HT; reflexivity
     | split; [ cbn; reflexivity
              | split; [ vm_compute; reflexivity
                       | intros [r [bc|]]; cbn [forallb fst snd];
                         rewrite ?andb_true_r, ?andb_assoc; reflexivity ]]]).
Qed.

(** Running the statement [list_books] builds: the rows the filters call
    for, in the order of the plan, sorted by title, cut to the page. *)
Lemma list_books_rows_built (pg : Backend) (a c : option Z) (q : option string)
    (limit offset : Z) (s : Store) :
  db.list_books_rows pg (db.list_books_sql a c q limit offset) s
  = if decide (limit < 0 \/ offset < 0) then Failed s
    else Done (take (Z.to_nat limit)
                 (drop (Z.to_nat offset)
                    (merge_sort (db.row_title_le pg)
                       (scan pg _ (db.list_books_sql a c q limit offset)
                          (selected_rows pg a c q s))))) s.
Proof.
  destruct (list_books_sql_read pg a c q limit offset)
    as (conds & tests & Hp & Hm & Hb & Hw).
  unfold db.list_books_rows. rewrite Hp.
  cbn [db.sel_join_bc db.sel_where db.sel_limit db.sel_offset].
  rewrite Hm, Hb. cbn [negb].
  destruct (decide (limit < 0 \/ offset < 0)); [reflexivity|].
  cbv zeta. unfold selected_rows, listing_from. do 7 f_equal.
  apply list_filter_iff. intros row. by rewrite Hw.
Qed.

Lemma primary_rows_page (pg : Backend) (a c : option Z) (q : option string)
    (limit offset : Z) (s : Store) :
  0 <= limit -> 0 <= offset ->
  primary_rows pg a c q limit offset s
  = take (Z.to_nat limit)
      (drop (Z.to_nat offset)
         (merge_sort (db.row_title_le pg)
            (scan pg _ (db.list_books_sql a c q limit offset)
               (selected_rows pg a c q s)))).
Proof.
  intros Hl Ho. unfold primary_rows. rewrite list_books_rows_built.
  destruct (decide (limit < 0 \/ offset < 0)); [lia | reflexivity].
Qed.

(** ** Listing: attaching the categories *)

(** One step of the grouping loop, seen through [d.get(k, [])]. *)
Lemma group_step_lookup (d : gmap Z (list CategoryLite)) (cr : Z * CategoryLite)
    (k : Z) :
  default [] (db.group_step d cr !! k)
  = default [] (d !! k) ++ (if decide (cr.1 = k) then [cr.2] else []).
Proof.
  unfold db.group_step. destruct (decide (cr.1 = k)) as [<-|Hne].
  - rewrite lookup_insert_eq. simpl. f_equal.
    destruct (decide (is_Some (d !! cr.1))) as [[l Hl]|Hn]; [reflexivity|].
    rewrite lookup_insert_eq. simpl.
    apply eq_None_not_Some in Hn. by rewrite Hn.
  - rewrite lookup_insert_ne by assumption. rewrite app_nil_r.
    destruct (decide (is_Some (d !! cr.1))); [reflexivity|].
    by rewrite lookup_insert_ne.
Qed.

(** The grouping loop as a whole: the entry of a book is the list of the
    categories of its rows, in the order of the rows. *)
Lemma group_lookup (cats : list (Z * CategoryLite))
    (d : gmap Z (list CategoryLite)) (k : Z) :
  default [] (foldl db.group_step d cats !! k)
  = default [] (d !! k) ++ rows_of_book k cats.
Proof.
  unfold rows_of_book.
  revert d. induction cats as [|cr cats IH]; intros d; simpl.
  - by rewrite app_nil_r.
  - rewrite IH, group_step_lookup, <- app_assoc. f_equal.
    destruct (decide (cr.1 = k)) as [Heq|Hne].
    + by rewrite filter_cons_True.
    + by rewrite filter_cons_False.
Qed.

(** The rows of the category join that belong to a listed book are the
    categories the book is associated with. *)
Lemma category_join_of (book_ids : list Z) (s : Store) (k : Z) :
  k ∈ book_ids ->
  rows_of_book k
    (filter (fun cr : Z * CategoryLite => cr.1 ∈ book_ids)
       (bc ← book_categories s;
        (fun c => (bc.1, mkLite (c_id c) (c_name c)))
          <$> filter (fun c => bc.2 = c_id c) (categories s)))
  = listed_categories k s.
Proof.
  intros Hk. unfold rows_of_book, listed_categories, associations.
  rewrite list_filter_filter.
  induction (book_categories s) as [|bc bcs IH]; [reflexivity|].
  rewrite bind_cons, filter_app, fmap_app, IH. clear IH.
  destruct (decide (bc.1 = k)) as [Heq|Hne].
  - rewrite (filter_cons_True (fun bc : Z * Z => bc.1 = k)) by assumption.
    rewrite bind_cons. f_equal.
    rewrite filter_all.
    + rewrite <- list_fmap_compose. reflexivity.
    + apply Forall_forall. intros cr Hcr.
      apply list_elem_of_fmap in Hcr as (c & -> & _). simpl.
      split; [assumption | by rewrite Heq].
  - rewrite (filter_cons_False (fun bc : Z * Z => bc.1 = k)) by assumption.
    rewrite filter_none; [reflexivity|].
    apply Forall_forall. intros cr Hcr.
    apply list_elem_of_fmap in Hcr as (c & -> & _). simpl. tauto.
Qed.

(** Whatever order the category query returns its rows in, the rows of a
    listed book are its categories. *)
Lemma categories_of_books_of (pg : Backend) (book_ids : list Z) (s : Store)
    (k : Z) :
  k ∈ book_ids ->
  rows_of_book k (db.categories_of_books pg book_ids s)
  ≡ₚ listed_categories k s.
Proof.
  intros Hk. rewrite <- (category_join_of book_ids s k Hk).
  unfold db.categories_of_books, rows_of_book.
  by rewrite scan_perm.
Qed.

Lemma listed_categories_no_associations (book_id : Z) (s : Store) :
  associations book_id s = [] -> listed_categories book_id s = [].
Proof. unfold listed_categories. by intros ->. Qed.

(** [list_books] with counts that are not negative: the statements it
    issues and what it returns. *)
Lemma list_books_run (pg : Backend) (a c : option Z) (q : option string)
    (limit offset : Z) (w : World) :
  0 <= limit -> 0 <= offset ->
  db.list_books pg a c q limit offset w
  = let rows := primary_rows pg a c q limit offset (store w) in
    let sql := db.list_books_sql a c q limit offset in
    let ids := (fun r => b_id (lr_book r)) <$> rows in
    match rows with
    | [] => (Return [], mkWorld (store w) (issued w ++ [sql]))
    | _ =>
        (Return (attach (db.categories_of_books pg ids (store w)) <$> rows),
         mkWorld (store w)
           (issued w ++ [sql; mkStmt db.list_books_categories_sql [VInts ids]]))
    end.
Proof.
  intros Hl Ho. unfold primary_rows.
  unfold db.list_books, bind, execute. cbv zeta.
  rewrite list_books_rows_built.
  destruct (decide (limit < 0 \/ offset < 0)) as [Hneg|_]; [lia|].
  set (rows := take _ _).
  destruct rows as [|r rows']; [reflexivity|].
  cbv iota beta. set (rows := r :: rows').
  destruct ((fun r => b_id (lr_book r)) <$> rows) as [|i ids] eqn:Eids;
    [discriminate|].
  rewrite <- Eids. clear Eids i ids.
  unfold fetch, ret. cbn [store issued]. rewrite <- app_assoc. f_equal. f_equal.
  apply Forall_fmap_ext, Forall_forall. intros row Hrow. unfold attach. f_equal.
  by rewrite group_lookup, lookup_empty.
Qed.

(** C8: with counts that are not negative, [list_books] returns, without
    touching the store, one book per row of the primary query; each book
    carries the categories of its rows of the category query, in the order
    that query returned them; these are the categories the book is
    associated with, and none for a book with no association row; and when
    the primary query yields no row, that query is the only statement
    issued. *)
Theorem list_books_attaches_categories (pg : Backend) (a c : option Z)
    (q : option string) (limit offset : Z) (w : World) :
  0 <= limit -> 0 <= offset ->
  let run := db.list_books pg a c q limit offset w in
  let rows := primary_rows pg a c q limit offset (store w) in
  let ids := (fun r => b_id (lr_book r)) <$> rows in
  let cats := db.categories_of_books pg ids (store w) in
  exists result,
    run.1 = Return result
    /\ store run.2 = store w
    /\ (fun bf => mkListRow (bk bf) (author_name bf)) <$> result = rows
    /\ Forall (fun bf =>
                 bk_categories bf = rows_of_book (b_id (bk bf)) cats
                 /\ bk_categories bf
                    ≡ₚ listed_categories (b_id (bk bf)) (store w)
                 /\ (associations (b_id (bk bf)) (store w) = [] ->
                     bk_categories bf = []))
              result
    /\ (rows = [] ->
        issued run.2 = issued w ++ [db.list_books_sql a c q limit offset])
    /\ (rows <> [] ->
        issued run.2
        = issued w
          ++ [db.list_books_sql a c q limit offset;
              mkStmt db.list_books_categories_sql [VInts ids]]).
Proof.
  intros Hl Ho run rows ids cats. subst run cats ids rows.
  rewrite (list_books_run pg a c q limit offset w Hl Ho). cbv zeta.
  destruct (primary_rows pg a c q limit offset (store w)) as [|r rows'] eqn:E.
  - exists []. cbn [fst snd store issued].
    repeat split; try reflexivity; [constructor | congruence].
  - cbv iota. rewrite <- E.
    set (rows := primary_rows pg a c q limit offset (store w)).
    set (cats := db.categories_of_books pg _ (store w)).
    eexists. cbn [fst snd store issued].
    split; [reflexivity|]. split; [reflexivity|]. split; [|split; [|split]].
    + rewrite <- list_fmap_compose.
      rewrite <- (list_fmap_id rows) at 2.
      apply Forall_fmap_ext, Forall_forall. intros [b n] _. reflexivity.
    + apply Forall_fmap, Forall_forall. intros row Hrow.
      unfold attach. cbn [bk bk_categories compose].
      assert (rows_of_book (b_id (lr_book row)) cats
              ≡ₚ listed_categories (b_id (lr_book row)) (store w)) as Hperm.
      { apply categories_of_books_of.
        apply list_elem_of_fmap. exists row. split; [reflexivity | exact Hrow]. }
      split; [reflexivity|]. split; [exact Hperm|].
      intros Hnone. apply Permutation_nil_r.
      rewrite <- (listed_categories_no_associations _ _ Hnone).
      by symmetry.
    + unfold rows. rewrite E. discriminate.
    + intros _. reflexivity.
Qed.

(** ** Listing: which books, in which order *)

(** In a list whose keys are distinct, the rows carrying the key of a
    member are that member alone. *)
Lemma filter_key_singleton {A K} (f : A -> K) (P : A -> Prop)
    `{!forall x, Decision (P x)} (l : list A) (x0 : A) :
  NoDup (f <$> l) -> x0 ∈ l -> (forall x, P x <-> f x = f x0) ->
  filter P l = [x0].
Proof.
  intros Hnd Hin HP. induction l as [|x l IH]; [by apply not_elem_of_nil in Hin|].
  rewrite fmap_cons in Hnd. apply NoDup_cons in Hnd as [Hx Hnd].
  apply elem_of_cons in Hin as [<-|Hin].
  - rewrite filter_cons_True by (by apply HP). f_equal.
    apply filter_none, Forall_forall. intros y Hy Hpy. apply Hx.
    apply HP in Hpy. rewrite <- Hpy. apply list_elem_of_fmap. eauto.
  - rewrite filter_cons_False; [by apply IH|].
    intros Hpx. apply Hx. apply HP in Hpx. rewrite Hpx.
    apply list_elem_of_fmap. eauto.
Qed.

Lemma filter_NoDup_eq {A} `{!EqDecision A} (P : A -> Prop)
    `{!forall x, Decision (P x)} (l : list A) (k : A) :
  NoDup l -> (forall x, P x <-> x = k) ->
  filter P l = if decide (k ∈ l) then [k] else [].
Proof.
  intros Hnd HP. destruct (decide (k ∈ l)) as [Hin|Hnin].
  - apply (filter_key_singleton (fun x => x)); [by rewrite list_fmap_id| |]; assumption.
  - apply filter_none, Forall_forall. intros x Hx Hpx.
    apply HP in Hpx. by subst.
Qed.

Lemma filter_fmap_comm {A B} (f : A -> B) (P : B -> Prop)
    `{!forall y, Decision (P y)} (l : list A) :
  filter P (f <$> l) = f <$> filter (fun x => P (f x)) l.
Proof.
  induction l as [|x l IH]; [reflexivity|].
  rewrite fmap_cons. destruct (decide (P (f x))).
  - rewrite !filter_cons_True by assumption. by rewrite fmap_cons, IH.
  - by rewrite !filter_cons_False.
Qed.

Lemma listing_where_no_category (pg : Backend) (a : option Z)
    (q : option string) (r : ListRow) (bc : option (Z * Z)) :
  listing_where pg a None q (r, bc) = where_author_search pg a q (lr_book r).
Proof.
  unfold listing_where, where_author_search. simpl.
  by rewrite andb_true_r.
Qed.

Lemma listing_where_category (pg : Backend) (a : option Z) (y : Z)
    (q : option string) (r : ListRow) (bc : Z * Z) :
  listing_where pg a (Some y) q (r, Some bc)
  = where_author_search pg a q (lr_book r) && bool_decide (bc.2 = y).
Proof.
  unfold listing_where, where_author_search. simpl.
  destruct (match a with Some _ => _ | None => _ end),
    (bool_decide (bc.2 = y)),
    (match truthy_str q with Some _ => _ | None => _ end); reflexivity.
Qed.

Lemma book_matches_split (pg : Backend) (a c : option Z) (q : option string)
    (s : Store) (b : BookRow) :
  book_matches pg a c q s b
  = where_author_search pg a q b
    && match c with
       | Some y => bool_decide ((b_id b, y) ∈ book_categories s)
       | None => true
       end.
Proof.
  unfold book_matches, where_author_search.
  destruct (match a with Some _ => _ | None => _ end),
    (match c with Some _ => _ | None => _ end),
    (match truthy_str q with Some _ => _ | None => _ end); reflexivity.
Qed.

Lemma filter_cons_bool {A} (f : A -> bool) (x : A) (l : list A) :
  filter (fun y => f y) (x :: l)
  = (if f x then [x] else []) ++ filter (fun y => f y) l.
Proof.
  destruct (f x) eqn:E.
  - rewrite filter_cons_True; [reflexivity | rewrite E; exact I].
  - rewrite filter_cons_False; [reflexivity | rewrite E; exact (fun H => H)].
Qed.

(** With author ids distinct, a book that references an author joins with
    exactly that author. *)
Lemma join_one_author (s : Store) (b : BookRow) (a0 : AuthorRow) :
  NoDup (a_id <$> authors s) -> a0 ∈ authors s ->
  b_author_id b = Some (a_id a0) ->
  (fun a => mkListRow b (a_name a))
    <$> filter (fun a => b_author_id b = Some (a_id a)) (authors s)
  = [mkListRow b (a_name a0)].
Proof.
  intros Hnd Hin Hfk.
  rewrite (filter_key_singleton a_id _ _ a0 Hnd Hin); [reflexivity|].
  intros x. rewrite Hfk. split; [by intros [= ->] | by intros ->].
Qed.

(** What one book contributes to the selected rows when a category filter
    is present: itself, once, when it passes the other filters and has the
    association row; nothing otherwise. *)
Lemma selected_with_category (pg : Backend) (a : option Z) (y : Z)
    (q : option string) (s : Store) (b : BookRow) (n : string) :
  NoDup (book_categories s) ->
  lr_book <$> (fst <$>
    filter (fun row => listing_where pg a (Some y) q row)
      ((fun bc => (mkListRow b n, Some bc))
         <$> filter (fun bc : Z * Z => b_id (lr_book (mkListRow b n)) = bc.1)
                    (book_categories s)))
  = if book_matches pg a (Some y) q s b then [b] else [].
Proof.
  intros Hnd. rewrite filter_fmap_comm, <- !list_fmap_compose.
  rewrite list_filter_filter, book_matches_split.
  destruct (where_author_search pg a q b) eqn:Hw.
  - rewrite (filter_NoDup_eq _ _ (b_id b, y) Hnd).
    + simpl. destruct (decide ((b_id b, y) ∈ book_categories s)) as [Hin|Hnin].
      * by rewrite bool_decide_eq_true_2.
      * by rewrite bool_decide_eq_false_2.
    + intros [i j]. rewrite listing_where_category.
      cbn [lr_book fst snd]. rewrite Hw. simpl.
      rewrite bool_decide_spec. split.
      * intros [-> ->]. reflexivity.
      * intros [= -> ->]. split; reflexivity.
  - simpl. rewrite filter_none; [reflexivity|].
    apply Forall_forall. intros bc _ [Hwhere _].
    rewrite listing_where_category in Hwhere. cbn [lr_book] in Hwhere.
    by rewrite Hw in Hwhere.
Qed.

(** The rows the listing selects are the books that satisfy every active
    filter, each once. *)
Lemma selected_books (pg : Backend) (a c : option Z) (q : option string)
    (s : Store) :
  store_integrity s ->
  lr_book <$> selected_rows pg a c q s
  = filter (fun b => book_matches pg a c q s b) (books s).
Proof.
  intros (Hnd & Hfk & Hbc).
  unfold selected_rows, listing_from, db.list_books_from, db.books_join_authors.
  revert Hfk. induction (books s) as [|b bs IH]; intros Hfk.
  - by destruct c.
  - apply Forall_cons in Hfk as [(a0 & Ha0 & Hb) Hfk]. specialize (IH Hfk).
    rewrite filter_cons_bool, bind_cons.
    rewrite (join_one_author s b a0 Hnd Ha0 Hb).
    destruct c as [y|].
    + rewrite bind_app, bind_singleton, filter_app, !fmap_app, IH. f_equal.
      by apply selected_with_category.
    + rewrite fmap_app, filter_app, !fmap_app, IH. f_equal.
      rewrite book_matches_split, andb_true_r. simpl.
      rewrite filter_cons_bool, listing_where_no_category. simpl.
      by destruct (where_author_search pg a q b).
Qed.

Lemma row_title_le_total (pg : Backend) :
  collation_total pg -> Total (db.row_title_le pg).
Proof.
  intros Ht x y. unfold db.row_title_le, db.title_le, db.null_last_leb.
  destruct (b_title (lr_book x)) as [tx|], (b_title (lr_book y)) as [ty|];
    simpl; auto.
  destruct (Ht tx ty) as [H|H]; rewrite H; simpl; auto.
Qed.

(** C5: on a store that respects the keys and references of the data
    model, with a total collation and counts that are not negative,
    [list_books] returns the page [offset, offset + limit) of a list that is
    sorted by title and is a permutation of the books satisfying all active
    filters; in particular every returned book has the author asked for. *)
Theorem list_books_filters_order_page (pg : Backend) (a c : option Z)
    (q : option string) (limit offset : Z) (w : World) :
  store_integrity (store w) -> collation_total pg ->
  0 <= limit -> 0 <= offset ->
  exists result ordered,
    (db.list_books pg a c q limit offset w).1 = Return result
    /\ ordered ≡ₚ filter (fun b => book_matches pg a c q (store w) b)
                         (books (store w))
    /\ Sorted (db.title_le pg) ordered
    /\ bk <$> result = take (Z.to_nat limit) (drop (Z.to_nat offset) ordered)
    /\ Forall (fun bf => book_matches pg a c q (store w) (bk bf) = true) result
    /\ (forall x, a = Some x ->
          Forall (fun bf => b_author_id (bk bf) = Some x) result).
Proof.
  intros Hint Htot Hl Ho.
  set (sql := db.list_books_sql a c q limit offset).
  set (selected := scan pg _ sql (selected_rows pg a c q (store w))).
  set (ordered := lr_book <$> merge_sort (db.row_title_le pg) selected).
  assert (ordered ≡ₚ filter (fun b => book_matches pg a c q (store w) b)
                            (books (store w))) as Hperm.
  { unfold ordered. rewrite merge_sort_Permutation.
    unfold selected. rewrite scan_perm. by rewrite selected_books. }
  assert (exists result,
             (db.list_books pg a c q limit offset w).1 = Return result
             /\ bk <$> result
                = take (Z.to_nat limit) (drop (Z.to_nat offset) ordered))
    as (result & Hrun & Hpage).
  { rewrite (list_books_run pg a c q limit offset w Hl Ho). cbv zeta.
    assert (lr_book <$> primary_rows pg a c q limit offset (store w)
            = take (Z.to_nat limit) (drop (Z.to_nat offset) ordered)) as Hrows.
    { rewrite primary_rows_page by assumption.
      unfold ordered, selected, sql. by rewrite fmap_take, fmap_drop. }
    destruct (primary_rows pg a c q limit offset (store w)) as [|r rows].
    - exists []. split; [reflexivity | exact Hrows].
    - eexists. split; [reflexivity|]. cbn [fst].
      rewrite <- list_fmap_compose. exact Hrows. }
  assert (Forall (fun bf => book_matches pg a c q (store w) (bk bf) = true) result)
    as Hall.
  { apply Forall_forall. intros bf Hbf.
    assert (bk bf ∈ bk <$> result) as Hin
      by (apply list_elem_of_fmap; eauto).
    rewrite Hpage in Hin.
    apply subseteq_take, subseteq_drop in Hin. rewrite Hperm in Hin.
    apply list_elem_of_filter in Hin as [Hb _]. by apply Is_true_true. }
  exists result, ordered. split; [exact Hrun|]. split; [exact Hperm|].
  split; [|split; [exact Hpage|split; [exact Hall|]]].
  - unfold ordered.
    apply (Sorted_fmap lr_book (db.row_title_le pg) (db.title_le pg)).
    + intros x y Hxy. exact Hxy.
    + apply Sorted_merge_sort. by apply row_title_le_total.
  - intros x ->. eapply Forall_impl; [exact Hall|].
    intros bf Hbf. unfold book_matches in Hbf.
    apply andb_true_iff in Hbf as [Hbf _]. apply andb_true_iff in Hbf as [Hbf _].
    by apply bool_decide_eq_true in Hbf.
Qed.

(** ** The audit log *)

Lemma list_books_store (pg : Backend) (a c : option Z) (q : option string)
    (limit offset : Z) (w : World) :
  store (db.list_books pg a c q limit offset w).2 = store w.
Proof.
  unfold db.list_books, bind, execute. cbv zeta.
  rewrite list_books_rows_built.
  destruct (decide (limit < 0 \/ offset < 0)).
  - cbn [snd store]. by apply rolled_back_same_seq.
  - destruct (_ <$> _); reflexivity.
Qed.

(** The listing does not look at the constraints of [logs]. *)
Lemma list_books_with_logs_check (pg : Backend) (chk : Store -> LogRow -> bool)
    (a c : option Z) (q : option string) (limit offset : Z) :
  db.list_books (with_logs_check pg chk) a c q limit offset
  = db.list_books pg a c q limit offset.
Proof. reflexivity. Qed.

(** C9: the answer of [GET /books/] is the same whatever the audit insert
    does - it is what [list_books] returned, fixed before the task runs -
    while the store shows the outcome of the insert: one more row in [logs]
    when it succeeded, none when it failed. *)
Theorem list_books_route_ignores_log_outcome (pg : Backend)
    (f g : Store -> LogRow -> bool) (a c : option Z) (q : option string)
    (limit offset : Z) (user_id : option Z) (w : World) :
  let route chk :=
    main.list_books_route (with_logs_check pg chk) a c q limit offset user_id w in
  let row := mkLog user_id "search_books" (search_details a c q limit offset) in
  (route f).1 = (route g).1
  /\ (route f).1
     = (if main.query_ok limit offset
        then (db.list_books pg a c q limit offset w).1
        else Raise (HTTPException 422 "Unprocessable Entity"))
  /\ (forall books, (route f).1 = Return books ->
        logs (store (route f).2)
        = if f (store w) row then logs (store w) ++ [row] else logs (store w)).
Proof.
  intros route row.
  assert (forall chk,
    (route chk).1
    = (if main.query_ok limit offset
       then (db.list_books pg a c q limit offset w).1
       else Raise (HTTPException 422 "Unprocessable Entity"))
    /\ (forall books, (route chk).1 = Return books ->
          logs (store (route chk).2)
          = if chk (store w) row then logs (store w) ++ [row]
            else logs (store w))) as Hroute.
  { intros chk. subst route. cbv beta.
    unfold main.list_books_route, main.list_books, bind.
    rewrite list_books_with_logs_check.
    destruct (main.query_ok limit offset); [|split; [reflexivity | discriminate]].
    pose proof (list_books_store pg a c q limit offset w) as Hst.
    destruct (db.list_books pg a c q limit offset w) as [[books|e] w1];
      [|split; [reflexivity | discriminate]].
    cbn [snd] in Hst. unfold ret. cbn [fst snd].
    split; [reflexivity|]. intros _ _.
    unfold default, from_option, id. cbn [app main.run_background].
    unfold db.log_action, execute, db.insert_log.
    fold (search_details a c q limit offset). fold row.
    cbn [logs_check with_logs_check]. rewrite Hst.
    destruct (chk (store w) row); cbn [snd store logs db.with_logs rolled_back];
      rewrite ?Hst; reflexivity. }
  split; [|exact (Hroute f)].
  rewrite (proj1 (Hroute f)), (proj1 (Hroute g)). reflexivity.
Qed.

(** ** The model on the concrete database *)

Example list_books_by_author :
  (db.list_books demo_pg (Some 1) None None 50 0 demo_world).1
  = Return [mkFull dragons "Ann" [mkLite 10 "Fantasy"; mkLite 11 "History"]].
Proof. vm_compute. reflexivity. Qed.

Example list_books_ordered_by_title :
  (fun bf => b_id (bk bf))
    <$> match (db.list_books demo_pg None None None 50 0 demo_world).1 with
        | Return l => l
        | Raise _ => []
        end
  = [2; 1].
Proof. vm_compute. reflexivity. Qed.

(** The categories come in the order the category query returned its
    rows: on the same store, a plan that scans in reverse attaches them in
    reverse. *)
Example plan_decides_category_order :
  (db.list_books shuffling_pg (Some 1) None None 50 0 demo_world).1
  = Return [mkFull dragons "Ann" [mkLite 11 "History"; mkLite 10 "Fantasy"]].
Proof. vm_compute. reflexivity. Qed.

(** [ORDER BY b.title] leaves books with the same title in the order of
    the plan, which may differ from one statement to the next: the second
    page can repeat the book of the first. *)
Example tied_titles_page_repeats_a_book :
  let ids run := (fun bf => b_id (bk bf))
                   <$> match run with Return l => l | Raise _ => [] end in
  let w := mkWorld twin_store [] in
  ids (db.list_books shuffling_pg None None None 1 0 w).1 = [1]
  /\ ids (db.list_books shuffling_pg None None None 1 1 w).1 = [1]
  /\ ids (db.list_books shuffling_pg None None None 2 0 w).1 = [1; 2].
Proof. vm_compute. repeat split. Qed.

(** The server runs what it reads, not what the caller meant: a text that
    is not a listing, and a listing with a placeholder left without
    argument, are refused. *)
Example server_refuses_other_text :
  db.list_books_rows demo_pg (mkStmt "SELECT * FROM books" []) demo_store
  = Failed demo_store.
Proof. vm_compute. reflexivity. Qed.

Example server_refuses_missing_argument :
  db.list_books_rows demo_pg
    (mkStmt (text (db.list_books_sql (Some 1) None None 50 0)) []) demo_store
  = Failed demo_store.
Proof. vm_compute. reflexivity. Qed.

(** An UPDATE that binds NULL to a column clears it: that [update_book]
    never clears a column is a property of the statement it builds. *)
Example server_sets_null_when_bound :
  db.update_books loose_pg
    (mkStmt "UPDATE books SET title=$1 WHERE id=$2" [VNull; VInt 2]) demo_store
  = Done tt (db.with_books demo_store
               [dragons;
                mkBook 2 None (Some "Maps") (Some 20%float) (Some 2)
                       (Some demo_date)]).
Proof. vm_compute. reflexivity. Qed.

Example list_books_negative_limit :
  (db.list_books demo_pg None None None (-1) 0 demo_world).1
  = Raise (PostgresError (db.list_books_sql None None None (-1) 0)).
Proof. vm_compute. reflexivity. Qed.

Example update_book_clear_categories :
  let u := main.mkBookUpdateIn None None None None None (Some []) in
  let run := main.update_book demo_pg 1 u demo_world in
  run.1 = Return (Some (mkFull dragons "Ann" []))
  /\ book_categories (store run.2) = [].
Proof. vm_compute. repeat split. Qed.

Example update_book_keep_categories :
  let u := main.mkBookUpdateIn (Some "Dragons") None None None None None in
  let run := main.update_book demo_pg 1 u demo_world in
  run.1 = Return (Some (mkFull
                    (mkBook 1 (Some "Dragons") (Some "A tale") (Some 9.5%float)
                            (Some 1) (Some demo_date))
                    "Ann" [mkLite 10 "Fantasy"; mkLite 11 "History"]))
  /\ book_categories (store run.2) = [(1, 10); (1, 11)].
Proof. vm_compute. repeat split. Qed.

Example delete_book_twice :
  let run1 := db.delete_book demo_pg 1 demo_world in
  let run2 := db.delete_book demo_pg 1 run1.2 in
  run1.1 = Return true /\ run2.1 = Return false
  /\ books (store run1.2) = [atlas]
  /\ book_categories (store run1.2) = [].
Proof. vm_compute. repeat split. Qed.

(** ** The theorems at concrete inputs *)

Lemma demo_store_integrity : store_integrity demo_store.
Proof.
  split; [|split].
  - apply (bool_decide_unpack _). vm_compute. exact I.
  - repeat constructor.
    + exists (mkAuthor 1 "Ann" None). split; [left | reflexivity].
    + exists (mkAuthor 2 "Bob" (Some "b. 1970")). split; [right; left | reflexivity].
  - apply (bool_decide_unpack _). vm_compute. exact I.
Defined.

Lemma update_book_empty_list_vs_omitted_witness :
  let u := main.mkBookUpdateIn None None None None None None in
  is_Some (find_book 1 (store demo_world))
  /\ exists b, (main.update_book demo_pg 1 (with_category_ids u (Some []))
                                 demo_world).1 = Return b.
Proof.
  intros u.
  assert (is_Some (find_book 1 (store demo_world))) as H by (by eexists).
  split; [exact H|].
  apply (update_book_empty_list_vs_omitted demo_pg 1 u demo_world H).
  repeat split.
Defined.

Lemma update_missing_book_not_found_witness :
  let u := main.mkBookUpdateIn (Some "Ghost") None None None None None in
  find_book 99 (store demo_world) = None
  /\ (main.update_book demo_pg 99 u demo_world).1
     = Raise (HTTPException 404 "Book not found")
  /\ store (main.update_book demo_pg 99 u demo_world).2 = store demo_world.
Proof.
  intros u. split; [reflexivity|].
  apply (update_missing_book_not_found demo_pg 99 u demo_world eq_refl).
  - intros a Ha. discriminate Ha.
  - left. reflexivity.
Defined.

Lemma list_books_filters_order_page_witness :
  store_integrity (store demo_world) /\ collation_total demo_pg
  /\ 0 <= 50 /\ 0 <= 0
  /\ exists result ordered,
       (db.list_books demo_pg (Some 1) None (Some "") 50 0 demo_world).1
       = Return result
       /\ ordered ≡ₚ filter (fun b => book_matches demo_pg (Some 1) None (Some "")
                                        (store demo_world) b)
                            (books (store demo_world))
       /\ Sorted (db.title_le demo_pg) ordered
       /\ bk <$> result = take (Z.to_nat 50) (drop (Z.to_nat 0) ordered)
       /\ Forall (fun bf => book_matches demo_pg (Some 1) None (Some "")
                              (store demo_world) (bk bf) = true) result
       /\ (forall x, Some 1 = Some x ->
             Forall (fun bf => b_author_id (bk bf) = Some x) result).
Proof.
  assert (collation_total demo_pg) as Ht by exact String.leb_total.
  assert (0 <= 50) as Hl by lia. assert (0 <= 0) as Ho by lia.
  split; [exact demo_store_integrity|]. split; [exact Ht|].
  split; [exact Hl|]. split; [exact Ho|].
  exact (list_books_filters_order_page demo_pg (Some 1) None (Some "") 50 0
           demo_world demo_store_integrity Ht Hl Ho).
Defined.

Lemma list_books_attaches_categories_witness :
  0 <= 50 /\ 0 <= 0
  /\ exists result,
       (db.list_books demo_pg None None None 50 0 demo_world).1 = Return result
       /\ Forall (fun bf =>
                    bk_categories bf
                    = rows_of_book (b_id (bk bf))
                        (db.categories_of_books demo_pg
                           ((fun r => b_id (lr_book r))
                              <$> primary_rows demo_pg None None None 50 0
                                    (store demo_world))
                           (store demo_world))
                    /\ bk_categories bf
                       ≡ₚ listed_categories (b_id (bk bf)) (store demo_world)
                    /\ (associations (b_id (bk bf)) (store demo_world) = [] ->
                        bk_categories bf = []))
                 result.
Proof.
  assert (0 <= 50) as Hl by lia. assert (0 <= 0) as Ho by lia.
  split; [exact Hl|]. split; [exact Ho|].
  destruct (list_books_attaches_categories demo_pg None None None 50 0
              demo_world Hl Ho) as (result & Hrun & _ & _ & Hcats & _).
  exists result. split; [exact Hrun | exact Hcats].
Defined.

Lemma delete_book_reports_removal_witness :
  NoDup (b_id <$> books (store demo_world))
  /\ exists removed : bool,
       (db.delete_book demo_pg 1 demo_world).1 = Return removed
       /\ (removed = true
           <-> exists r, r ∈ books (store demo_world) /\ b_id r = 1)
       /\ books (store (db.delete_book demo_pg 1 demo_world).2)
          = filter (fun r => b_id r <> 1) (books (store demo_world))
       /\ (removed = false
           -> store (db.delete_book demo_pg 1 demo_world).2 = store demo_world)
       /\ (db.delete_book demo_pg 1 (db.delete_book demo_pg 1 demo_world).2).1
          = Return false.
Proof.
  assert (NoDup (b_id <$> books (store demo_world))) as Hnd.
  { apply (bool_decide_unpack _). vm_compute. exact I. }
  split; [exact Hnd|].
  exact (delete_book_reports_removal demo_pg 1 demo_world Hnd).
Defined.

Lemma update_book_nothing_supplied_witness :
  find_book 1 (store demo_world) = Some dragons
  /\ db.update_book demo_pg 1 None None None None None None demo_world
     = (Return (Some dragons),
        mkWorld demo_store [mkStmt "SELECT * FROM books WHERE id=$1" [VInt 1]]).
Proof.
  split; [reflexivity|].
  exact (proj1 (update_book_nothing_supplied demo_pg 1 demo_world dragons eq_refl)).
Defined.

(** * Further properties of the book operations *)

(** ** Reading one book *)

(** In a join whose left rows have distinct ids, the rows of one book are
    the rows that book joins with. *)
Lemma filter_bind_key (J : BookRow -> list ListRow) (bs : list BookRow)
    (r : BookRow) :
  (forall b x, x ∈ J b -> lr_book x = b) ->
  NoDup (b_id <$> bs) -> r ∈ bs ->
  filter (fun x => b_id (lr_book x) = b_id r) (bs ≫= J) = J r.
Proof.
  intros HJ. induction bs as [|b bs IH]; intros Hnd Hin;
    [by apply not_elem_of_nil in Hin|].
  rewrite fmap_cons in Hnd. apply NoDup_cons in Hnd as [Hb Hnd].
  rewrite bind_cons, filter_app.
  assert (forall b', b_id b' <> b_id r ->
            filter (fun x => b_id (lr_book x) = b_id r) (J b') = []) as Hout.
  { intros b' Hne. apply filter_none, Forall_forall. intros x Hx.
    by rewrite (HJ b' x Hx). }
  apply elem_of_cons in Hin as [->|Hin].
  - rewrite filter_all.
    + rewrite filter_none; [by rewrite app_nil_r|].
      apply Forall_forall. intros x Hx Hid.
      apply list_elem_of_bind in Hx as (b' & Hx & Hb').
      rewrite (HJ b' x Hx) in Hid. apply Hb. rewrite <- Hid.
      apply list_elem_of_fmap. eauto.
    + apply Forall_forall. intros x Hx. by rewrite (HJ b x Hx).
  - rewrite Hout, IH; [reflexivity | assumption | assumption|].
    intros Heq. apply Hb. rewrite Heq. apply list_elem_of_fmap. eauto.
Qed.

Lemma join_row_book (s : Store) (b : BookRow) (x : ListRow) :
  x ∈ (fun a => mkListRow b (a_name a))
        <$> filter (fun a => b_author_id b = Some (a_id a)) (authors s) ->
  lr_book x = b.
Proof. intros Hx. apply list_elem_of_fmap in Hx as (a & -> & _). reflexivity. Qed.

(** With book ids and author ids distinct, the only row of the join that
    carries the id of a book is that book with its author. *)
Lemma join_rows_of_book (s : Store) (r : BookRow) (a : AuthorRow) :
  NoDup (b_id <$> books s) -> NoDup (a_id <$> authors s) ->
  r ∈ books s -> a ∈ authors s -> b_author_id r = Some (a_id a) ->
  filter (fun x => b_id (lr_book x) = b_id r) (db.books_join_authors s)
  = [mkListRow r (a_name a)].
Proof.
  intros Hb Ha Hr Hin Hfk. unfold db.books_join_authors.
  rewrite (filter_bind_key _ _ r (join_row_book s) Hb Hr).
  by apply join_one_author.
Qed.

Lemma get_book_unfold (book_id : Z) (w : World) :
  (main.get_book book_id w).1
  = match book_view book_id (store w) with
    | Some b => Return b
    | None => Raise (HTTPException 404 "Book not found")
    end
  /\ store (main.get_book book_id w).2 = store w.
Proof.
  unfold main.get_book, bind.
  pose proof (get_book_by_id_value book_id w) as Hv.
  pose proof (read_only_get_book_by_id book_id w) as Hro.
  destruct (db.get_book_by_id book_id w) as [o w']. cbn [fst snd] in *.
  subst o.
  destruct (book_view book_id (store w)); split; first [assumption | reflexivity].
Qed.

(** X1: with [books.id] and [authors.id] keys, [GET /books/{id}] on the id
    of a stored book that references a stored author answers with exactly
    that row, the name of that author and the categories joined to the
    book, and leaves the store alone. *)
Theorem get_book_returns_stored_row (w : World) (r : BookRow) (a : AuthorRow) :
  NoDup (b_id <$> books (store w)) -> NoDup (a_id <$> authors (store w)) ->
  r ∈ books (store w) -> a ∈ authors (store w) ->
  b_author_id r = Some (a_id a) ->
  (main.get_book (b_id r) w).1
  = Return (mkFull r (a_name a) (db.categories_of_book (b_id r) (store w)))
  /\ store (main.get_book (b_id r) w).2 = store w.
Proof.
  intros Hb Ha Hr Hin Hfk.
  destruct (get_book_unfold (b_id r) w) as [-> Hs]. split; [|exact Hs].
  unfold book_view. by rewrite (join_rows_of_book _ r a Hb Ha Hr Hin Hfk).
Qed.

(** X2: [GET /books/{id}] raises the 404 exactly when no row of [books]
    with that id references a stored author: an id with no row, and equally
    a row whose author is missing, is "Book not found". *)
Theorem get_book_not_found_iff (book_id : Z) (w : World) :
  (main.get_book book_id w).1 = Raise (HTTPException 404 "Book not found")
  <-> ~ exists r a, r ∈ books (store w) /\ a ∈ authors (store w)
                    /\ b_id r = book_id /\ b_author_id r = Some (a_id a).
Proof.
  destruct (get_book_unfold book_id w) as [-> _]. unfold book_view.
  destruct (head _) as [x|] eqn:Hh.
  - split; [discriminate|]. intros Hno. exfalso. apply Hno.
    assert (x ∈ filter (fun x => b_id (lr_book x) = book_id)
                       (db.books_join_authors (store w))) as Hx.
    { destruct (filter _ _); [discriminate | injection Hh as ->; left]. }
    apply list_elem_of_filter in Hx as [Hid Hx].
    apply list_elem_of_bind in Hx as (r & Hx & Hr).
    apply list_elem_of_fmap in Hx as (a & -> & Ha).
    apply list_elem_of_filter in Ha as [Hfk Ha].
    exists r, a. repeat split; assumption.
  - split; [|reflexivity]. intros _ (r & a & Hr & Ha & Hid & Hfk).
    apply (proj1 (head_filter_None
                    (fun x => b_id (lr_book x) = book_id) _)) in Hh.
    apply Hh. exists (mkListRow r (a_name a)). split; [|exact Hid].
    apply list_elem_of_bind. exists r. split; [|exact Hr].
    apply list_elem_of_fmap. exists a. split; [reflexivity|].
    apply list_elem_of_filter. split; assumption.
Qed.

(** ** Creating a book: what a successful call leaves behind *)

Lemma head_filter_elem {A} (P : A -> Prop) `{!forall x, Decision (P x)}
    (l : list A) (x : A) :
  head (filter P l) = Some x -> x ∈ l /\ P x.
Proof.
  intros Hh.
  assert (x ∈ filter P l) as Hx
    by (destruct (filter P l); [discriminate | injection Hh as ->; left]).
  apply list_elem_of_filter in Hx. tauto.
Qed.

(** The view of a row appended with an id above every stored id. *)
Lemma book_view_appended (s s' : Store) (row : BookRow) (a : AuthorRow)
    (author : Z) :
  Forall (fun r => b_id r < b_id row) (books s) ->
  books s' = books s ++ [row] -> authors s' = authors s ->
  b_author_id row = Some author ->
  head (filter (fun a => a_id a = author) (authors s)) = Some a ->
  book_view (b_id row) s'
  = Some (mkFull row (a_name a) (db.categories_of_book (b_id row) s')).
Proof.
  intros Hlt Hb Ha Hfk Hh. unfold book_view, db.books_join_authors.
  rewrite Hb, Ha, bind_app, filter_app, bind_singleton.
  rewrite filter_none.
  2:{ apply Forall_forall. intros x Hx Hid.
      apply list_elem_of_bind in Hx as (r & Hx & Hr).
      rewrite (join_row_book s r x Hx) in Hid.
      rewrite Forall_forall in Hlt. specialize (Hlt r Hr). lia. }
  rewrite app_nil_l, filter_all.
  2:{ apply Forall_forall. intros x Hx. by rewrite (join_row_book s row x Hx). }
  rewrite (list_filter_iff _ (fun a => a_id a = author)).
  2:{ intros x. rewrite Hfk. split; [by intros [= ->] | by intros ->]. }
  destruct (filter (fun a => a_id a = author) (authors s)) as [|a0 l];
    [discriminate|].
  injection Hh as ->. reflexivity.
Qed.

(** X3: when [POST /books/] answers with a book, on a store whose book ids
    came from the sequence: the book carries the next id of the sequence
    (not used by any stored book), the supplied fields and the name of a
    stored author with the supplied id; every supplied category id
    resolves; [books] has grown by exactly that row and [book_categories]
    by one row per supplied id, in order and duplicates included; and
    [GET /books/{id}] on the new id answers with the same book. *)
Theorem create_book_round_trip (pg : Backend) (book : main.BookIn)
    (w w' : World) (bf : BookFull) :
  id_key (store w) ->
  main.create_book pg book w = (Return (Some bf), w') ->
  bk bf = mkBook (books_id_seq (store w) + 1) (Some (main.title book))
                 (Some (main.description book)) (Some (main.price book))
                 (Some (main.author_id book)) (Some (main.published_date book))
  /\ ~ (b_id (bk bf) ∈ b_id <$> books (store w))
  /\ (exists a, a ∈ authors (store w) /\ a_id a = main.author_id book
                /\ author_name bf = a_name a)
  /\ Forall (category_exists (store w)) (main.category_ids book)
  /\ books (store w') = books (store w) ++ [bk bf]
  /\ book_categories (store w')
     = book_categories (store w)
       ++ ((fun cid => (b_id (bk bf), cid)) <$> main.category_ids book)
  /\ (main.get_book (b_id (bk bf)) w').1 = Return bf.
Proof.
  intros [Hnd Hle] Hrun. rewrite create_book_unfold in Hrun. cbv zeta in Hrun.
  destruct (head (filter (fun a => a_id a = main.author_id book)
                         (authors (store w)))) as [a|] eqn:Ha;
    [|discriminate].
  match type of Hrun with context [main.validate_categories _ ?w0] =>
    set (w1 := w0) in * end.
  pose proof (read_only_validate_categories (main.category_ids book) w1) as Hro.
  pose proof (validate_categories_run (main.category_ids book) w1) as Hval.
  destruct (main.validate_categories (main.category_ids book) w1) as [o2 w2].
  cbn [fst snd store] in Hro, Hval. subst w1. cbn [store] in Hro, Hval.
  destruct Hval as [[Hall ->] | (bad & _ & _ & ->)]; [|discriminate].
  destruct (db.create_book pg _ _ _ _ _ _ w2) as [o3 w3] eqn:E3.
  apply create_book_spec in E3. destruct o3 as [row|e]; [|discriminate].
  destruct E3 as (Hrow & Hbooks & Hbc & Hauthors & _).
  rewrite Hro in Hrow, Hbooks, Hbc, Hauthors.
  pose proof (get_book_by_id_value (b_id row) w3) as Hv.
  pose proof (read_only_get_book_by_id (b_id row) w3) as Hro3.
  rewrite Hrun in Hv, Hro3. cbn [fst snd] in Hv, Hro3.
  assert (Forall (fun r => b_id r < b_id row) (books (store w))) as Hlt.
  { apply Forall_forall. intros r Hr. rewrite Forall_forall in Hle.
    specialize (Hle r Hr). rewrite Hrow. simpl. lia. }
  assert (b_author_id row = Some (main.author_id book)) as Hfk
    by (by rewrite Hrow).
  pose proof (book_view_appended (store w) (store w3) row a _ Hlt Hbooks
                Hauthors Hfk Ha) as Hview.
  rewrite Hview in Hv. injection Hv as Hbf. subst bf. cbn [bk author_name].
  apply head_filter_elem in Ha as [Hain Haid].
  split; [exact Hrow|]. split.
  { intros Hin. apply list_elem_of_fmap in Hin as (r & Hid & Hr).
    rewrite Forall_forall in Hlt. specialize (Hlt r Hr). lia. }
  split; [eauto|]. split; [exact Hall|].
  split; [by rewrite Hro3|]. split; [by rewrite Hro3|].
  destruct (get_book_unfold (b_id row) w') as [-> _].
  by rewrite Hro3, Hview.
Qed.

(** ** Creating a book: the order of the validation *)

Lemma validate_categories_all_exist (ids : list Z) (w : World) :
  Forall (category_exists (store w)) ids ->
  main.validate_categories ids w
  = (Return tt,
     mkWorld (store w)
       (issued w
        ++ ((fun cid => mkStmt "SELECT id, name FROM categories WHERE id=$1"
                               [VInt cid]) <$> ids))).
Proof.
  revert w. induction ids as [|cid ids IH]; intros w Hall.
  - unfold main.validate_categories. simpl. unfold ret.
    rewrite app_nil_r. by destruct w.
  - apply Forall_cons in Hall as [Hc Hall].
    rewrite validate_categories_cons. cbv zeta.
    apply (proj2 (head_filter_is_Some (fun c => c_id c = cid) _)) in Hc
      as [c ->].
    rewrite IH by exact Hall. cbn [store issued fmap list_fmap].
    by rewrite <- app_assoc.
Qed.

(** The loop stops at the first id that does not resolve: it has issued one
    SELECT per id up to and including that one, and raises the 400 that
    names it. *)
Lemma validate_categories_first_missing (pre post : list Z) (c : Z) (w : World) :
  Forall (category_exists (store w)) pre -> ~ category_exists (store w) c ->
  main.validate_categories (pre ++ c :: post) w
  = (Raise (HTTPException 400 ("Invalid category_id " +:+ pretty c)),
     mkWorld (store w)
       (issued w
        ++ ((fun cid => mkStmt "SELECT id, name FROM categories WHERE id=$1"
                               [VInt cid]) <$> (pre ++ [c])))).
Proof.
  revert w. induction pre as [|cid pre IH]; intros w Hall Hc.
  - rewrite app_nil_l, validate_categories_cons. cbv zeta.
    apply (proj2 (head_filter_None (fun x => c_id x = c) _)) in Hc.
    by rewrite Hc.
  - apply Forall_cons in Hall as [Hcid Hall].
    rewrite <- app_comm_cons, validate_categories_cons. cbv zeta.
    apply (proj2 (head_filter_is_Some (fun x => c_id x = cid) _)) in Hcid
      as [x ->].
    rewrite IH by assumption. cbn [store issued]. f_equal. f_equal.
    rewrite <- app_assoc. reflexivity.
Qed.

(** X4: [POST /books/] with an author id that does not resolve raises
    "Invalid author_id" after a single SELECT: the category ids are not
    looked at, nothing is written. *)
Theorem create_book_checks_author_first (pg : Backend) (book : main.BookIn)
    (w : World) :
  ~ author_exists (store w) (main.author_id book) ->
  main.create_book pg book w
  = (Raise (HTTPException 400 "Invalid author_id"),
     mkWorld (store w)
       (issued w ++ [mkStmt "SELECT id, name, bio FROM authors WHERE id=$1"
                            [VInt (main.author_id book)]])).
Proof.
  intros Hno. rewrite create_book_unfold. cbv zeta.
  apply (proj2 (head_filter_None
                  (fun a => a_id a = main.author_id book) _)) in Hno.
  by rewrite Hno.
Qed.

(** X5: [POST /books/] with a valid author and category ids of which [c] is
    the first that does not resolve raises the 400 that names [c]; it has
    issued the author SELECT and one category SELECT per id up to [c], no
    INSERT, and the store is untouched. *)
Theorem create_book_names_first_missing_category (pg : Backend)
    (book : main.BookIn) (pre post : list Z) (c : Z) (w : World) :
  author_exists (store w) (main.author_id book) ->
  main.category_ids book = pre ++ c :: post ->
  Forall (category_exists (store w)) pre -> ~ category_exists (store w) c ->
  main.create_book pg book w
  = (Raise (HTTPException 400 ("Invalid category_id " +:+ pretty c)),
     mkWorld (store w)
       (issued w
        ++ mkStmt "SELECT id, name, bio FROM authors WHERE id=$1"
                  [VInt (main.author_id book)]
           :: ((fun cid => mkStmt "SELECT id, name FROM categories WHERE id=$1"
                                  [VInt cid]) <$> (pre ++ [c])))).
Proof.
  intros Ha Hids Hpre Hc. rewrite create_book_unfold. cbv zeta.
  apply (proj2 (head_filter_is_Some
                  (fun a => a_id a = main.author_id book) _)) in Ha as [a ->].
  rewrite Hids, validate_categories_first_missing by assumption.
  cbn [store issued]. by rewrite <- app_assoc.
Qed.

(** ** Updating: association rows *)

Lemma associations_app (book_id : Z) (l1 l2 : list (Z * Z)) (s' : Store) :
  book_categories s' = l1 ++ l2 ->
  associations book_id s'
  = filter (fun bc : Z * Z => bc.1 = book_id) l1
    ++ filter (fun bc : Z * Z => bc.1 = book_id) l2.
Proof. intros H. unfold associations. by rewrite H, filter_app. Qed.

(** X6: [update_book] replaces, never merges: when it returns with
    [category_ids] supplied, the association rows of the book are one row
    per supplied id, in order; whatever it is called with and however it
    ends, the association rows of every other book are as before; and a
    call that raises - also after the DELETE and some of the INSERTs have
    run - leaves the whole store as it was. *)
Theorem update_book_replaces_associations (pg : Backend) (book_id : Z)
    (t d : option string) (p : option float) (a : option Z)
    (pd : option date) (cids : option (list Z)) (w : World) :
  let run := db.update_book pg book_id t d p a pd cids w in
  (forall row cs, run.1 = Return row -> cids = Some cs ->
     associations book_id (store run.2) = (fun c => (book_id, c)) <$> cs)
  /\ (forall other, other <> book_id ->
        associations other (store run.2) = associations other (store w))
  /\ (forall e, run.1 = Raise e -> store run.2 = store w).
Proof.
  intros run. subst run.
  destruct (db.update_book pg book_id t d p a pd cids w) as [o w'] eqn:E.
  apply update_book_spec in E. cbn [fst snd]. destruct o as [row|e].
  - destruct E as (_ & _ & Hbc & _). split; [|split; [|discriminate]].
    + intros _ cs _ ->. rewrite (associations_app _ _ _ _ Hbc).
      rewrite list_filter_filter, filter_none, app_nil_l.
      * apply filter_all, Forall_forall. intros bc Hbc'.
        apply list_elem_of_fmap in Hbc' as (c & -> & _). reflexivity.
      * apply Forall_forall. intros bc _ [H1 H2]. contradiction.
    + intros other Hne. destruct cids as [cs|].
      * rewrite (associations_app _ _ _ _ Hbc).
        rewrite list_filter_filter. rewrite (filter_none _ (_ <$> cs)).
        -- rewrite app_nil_r. unfold associations. apply list_filter_iff.
           intros bc. split; [tauto | intros ->; tauto].
        -- apply Forall_forall. intros bc Hbc'.
           apply list_elem_of_fmap in Hbc' as (c & -> & _). simpl. congruence.
      * unfold associations. by rewrite Hbc.
  - rewrite E. split; [discriminate|]. split; [reflexivity | reflexivity].
Qed.

(** An update whose second association insert fails on the composite key:
    the DELETE and the first INSERT are undone with it. *)
Example update_book_duplicate_category_rolled_back :
  let run := db.update_book demo_pg 1 (Some "Dragons") None None None None
                            (Some [11; 11]) demo_world in
  run.1 = Raise (PostgresError
                   (mkStmt db.insert_book_category_sql [VInt 1; VInt 11]))
  /\ store run.2 = demo_store
  /\ length (issued run.2) = 4%nat.
Proof. vm_compute. repeat split. Qed.

(** ** Updating: the generated statement *)

Lemma update_fields_presence (t t' d d' : option string) (p p' : option float)
    (a a' : option Z) (pd pd' : option date) :
  (is_Some t <-> is_Some t') -> (is_Some d <-> is_Some d') ->
  (is_Some p <-> is_Some p') -> (is_Some a <-> is_Some a') ->
  (is_Some pd <-> is_Some pd') ->
  (db.update_fields t d p a pd).1.1 = (db.update_fields t' d' p' a' pd').1.1
  /\ (db.update_fields t d p a pd).2 = (db.update_fields t' d' p' a' pd').2.
Proof.
  intros Ht Hd Hp Ha Hpd.
  destruct t, t'; try presence_clash Ht;
    destruct d, d'; try presence_clash Hd;
    destruct p, p'; try presence_clash Hp;
    destruct a, a'; try presence_clash Ha;
    destruct pd, pd'; try presence_clash Hpd;
    split; reflexivity.
Qed.

Lemma update_fields_params (t d : option string) (p : option float)
    (a : option Z) (pd : option date) :
  (db.update_fields t d p a pd).1.2
  = option_list (VText <$> t) ++ option_list (VText <$> d)
    ++ option_list (VFloat <$> p) ++ option_list (VInt <$> a)
    ++ option_list (VDate <$> pd).
Proof. destruct t, d, p, a, pd; reflexivity. Qed.

(** The statements the core block issues: none when no field is supplied,
    else the one UPDATE built from the supplied fields. *)
Lemma update_book_core_issued (pg : Backend) (book_id : Z)
    (t d : option string) (p : option float) (a : option Z)
    (pd : option date) (w : World) :
  issued (db.update_book_core pg book_id t d p a pd w).2
  = issued w
    ++ (let '(up_fields, params, idx) := db.update_fields t d p a pd in
        if decide (join ", " up_fields = EmptyString) then []
        else [mkStmt ("UPDATE books SET " +:+ join ", " up_fields
                        +:+ " WHERE id=$" +:+ pretty idx)
                     (params ++ [VInt book_id])]).
Proof.
  unfold db.update_book_core.
  destruct (db.update_fields t d p a pd) as [[uf ps] idx].
  destruct (decide (join ", " uf = EmptyString)).
  - unfold ret. cbn [snd]. by rewrite app_nil_r.
  - unfold execute. by destruct (db.update_books _ _ _).
Qed.

(** X7: the core UPDATE of [update_book] binds every value: for two calls
    that supply the same set of fields, whatever the values and the book
    ids, the texts of the statements issued are the same; and the
    parameters of the statement issued are the supplied values, in the
    order title, description, price, author_id, published_date, followed by
    the book id. *)
Theorem update_book_core_binds_values (pg : Backend) (book_id book_id' : Z)
    (t t' d d' : option string) (p p' : option float) (a a' : option Z)
    (pd pd' : option date) (w : World) :
  (is_Some t <-> is_Some t') -> (is_Some d <-> is_Some d') ->
  (is_Some p <-> is_Some p') -> (is_Some a <-> is_Some a') ->
  (is_Some pd <-> is_Some pd') ->
  text <$> issued (db.update_book_core pg book_id t d p a pd w).2
  = text <$> issued (db.update_book_core pg book_id' t' d' p' a' pd' w).2
  /\ exists new,
       issued (db.update_book_core pg book_id t d p a pd w).2 = issued w ++ new
       /\ Forall (fun q =>
                    args q
                    = option_list (VText <$> t) ++ option_list (VText <$> d)
                      ++ option_list (VFloat <$> p) ++ option_list (VInt <$> a)
                      ++ option_list (VDate <$> pd) ++ [VInt book_id])
                 new.
Proof.
  intros Ht Hd Hp Ha Hpd.
  destruct (update_fields_presence t t' d d' p p' a a' pd pd' Ht Hd Hp Ha Hpd)
    as [Huf Hidx].
  rewrite !update_book_core_issued.
  pose proof (update_fields_params t d p a pd) as Hps.
  destruct (db.update_fields t d p a pd) as [[uf ps] idx].
  destruct (db.update_fields t' d' p' a' pd') as [[uf' ps'] idx'].
  cbn [fst snd] in Huf, Hidx, Hps. subst uf' idx' ps. split.
  - rewrite !fmap_app. f_equal. by destruct (decide _).
  - eexists. split; [reflexivity|].
    destruct (decide _); constructor; [|constructor].
    cbn [args]. by rewrite <- !app_assoc.
Qed.

(** ** Deleting: what is left alone *)

(** X8: [delete_book] touches [books] and, through a cascade only, the
    association rows of the deleted book: authors, categories, logs and the
    sequence are as before, and so are the association rows of every other
    book.  Without a cascade [book_categories] is untouched - the rows of
    the deleted book stay behind; with a cascade, deleting a stored book
    leaves it no association row. *)
Theorem delete_book_frame (pg : Backend) (book_id : Z) (w : World) :
  let s' := store (db.delete_book pg book_id w).2 in
  authors s' = authors (store w) /\ categories s' = categories (store w)
  /\ logs s' = logs (store w) /\ books_id_seq s' = books_id_seq (store w)
  /\ (forall other, other <> book_id ->
        associations other s' = associations other (store w))
  /\ (on_delete_cascade pg = false ->
        book_categories s' = book_categories (store w))
  /\ (on_delete_cascade pg = true ->
        (exists r, r ∈ books (store w) /\ b_id r = book_id) ->
        associations book_id s' = []).
Proof.
  unfold db.delete_book, bind, execute, db.delete_from_books, ret.
  cbn [snd store]. set (n := length _).
  assert (forall other (l : list (Z * Z)), other <> book_id ->
            filter (fun bc : Z * Z => bc.1 = other)
                   (filter (fun bc : Z * Z => bc.1 <> book_id) l)
            = filter (fun bc : Z * Z => bc.1 = other) l) as Hother.
  { intros other l Hne. rewrite list_filter_filter. apply list_filter_iff.
    intros bc. split; [tauto | intros ->; tauto]. }
  destruct (on_delete_cascade pg); cbn [andb].
  - destruct (negb (n =? 0)%nat) eqn:Hn;
      cbn [authors categories logs books_id_seq book_categories
           db.with_books db.with_book_categories];
      repeat split; try discriminate.
    + intros other Hne. by apply Hother.
    + intros _ _. unfold associations. cbn [book_categories].
      apply filter_none, Forall_forall. intros bc Hbc.
      apply list_elem_of_filter in Hbc as [Hbc _]. intros ?; contradiction.
    + intros _ (r & Hr & Hid). exfalso.
      apply negb_false_iff, Nat.eqb_eq in Hn. subst n.
      apply length_zero_iff_nil in Hn.
      assert (r ∈ filter (fun r => b_id r = book_id) (books (store w))) as Hin
        by (apply list_elem_of_filter; split; assumption).
      rewrite Hn in Hin. by apply not_elem_of_nil in Hin.
  - cbn [authors categories logs books_id_seq book_categories db.with_books].
    repeat split; discriminate.
Qed.

Lemma delete_endpoint_unfold (pg : Backend) (book_id : Z) (w : World) :
  main.delete_book pg book_id w
  = match db.delete_book pg book_id w with
    | (Return true, w') => (Return true, w')
    | (Return false, w') => (Raise (HTTPException 404 "Book not found"), w')
    | (Raise e, w') => (Raise e, w')
    end.
Proof.
  unfold main.delete_book, bind.
  by destruct (db.delete_book pg book_id w) as [[[]|e] w'].
Qed.

(** X9: with [books.id] a key, [DELETE /books/{id}] answers with success
    when a book has the id, and no book has it afterwards; on an id no book
    has, it raises the 404 and the store is as before. *)
Theorem delete_endpoint_found_or_404 (pg : Backend) (book_id : Z) (w : World) :
  NoDup (b_id <$> books (store w)) ->
  let run := main.delete_book pg book_id w in
  ((exists r, r ∈ books (store w) /\ b_id r = book_id) ->
     run.1 = Return true /\ find_book book_id (store run.2) = None)
  /\ ((~ exists r, r ∈ books (store w) /\ b_id r = book_id) ->
       run.1 = Raise (HTTPException 404 "Book not found")
       /\ store run.2 = store w).
Proof.
  intros Hnd run. subst run. rewrite delete_endpoint_unfold.
  destruct (delete_book_run pg book_id w) as (s' & -> & Hbooks & Hsame).
  pose proof (filter_id_at_most_one book_id _ Hnd) as Hle.
  assert (forall r, r ∈ filter (fun r => b_id r = book_id) (books (store w))
                    <-> r ∈ books (store w) /\ b_id r = book_id) as Hmem.
  { intros r. rewrite list_elem_of_filter. tauto. }
  destruct (filter (fun r => b_id r = book_id) (books (store w)))
    as [|r0 [|r1 rest]]; simpl in Hle; [| |lia].
  - change (negb (bool_decide (last_char ("DELETE " +:+ pretty (length (@nil BookRow)))
                               = Some "0"%char))) with false.
    cbn [fst snd store]. split.
    + intros (r & Hr). apply Hmem in Hr. by apply not_elem_of_nil in Hr.
    + intros _. split; [reflexivity | by apply Hsame].
  - change (negb (bool_decide (last_char ("DELETE " +:+ pretty (length [r0]))
                               = Some "0"%char))) with true.
    cbn [fst snd store]. split.
    + intros _. split; [reflexivity|]. unfold find_book.
      by rewrite Hbooks, filter_id_after_delete.
    + intros Hno. exfalso. apply Hno. exists r0. apply Hmem. left.
Qed.

(** ** The key of [books] across requests *)

Lemma create_endpoint_keeps_id_key (pg : Backend) (book : main.BookIn)
    (w : World) :
  id_key (store w) -> id_key (store (main.create_book pg book w).2).
Proof.
  intros Hk. rewrite create_book_unfold. cbv zeta.
  destruct (head _); [|exact Hk].
  match goal with |- context [main.validate_categories _ ?w0] =>
    set (w1 := w0) end.
  pose proof (read_only_validate_categories (main.category_ids book) w1) as Hro.
  destruct (main.validate_categories (main.category_ids book) w1) as [[[]|e] w2];
    cbn [snd] in Hro; subst w1; cbn [store] in Hro;
    [|cbn [snd]; by rewrite Hro].
  rewrite <- Hro in Hk.
  pose proof (create_book_keeps_id_key pg (main.title book)
                (main.description book) (main.price book) (main.author_id book)
                (main.published_date book) (main.category_ids book) w2 Hk) as Hk3.
  destruct (db.create_book pg _ _ _ _ _ _ w2) as [[row|e] w3];
    cbn [snd] in Hk3; [|exact Hk3].
  by rewrite read_only_get_book_by_id.
Qed.

Lemma update_endpoint_keeps_id_key (pg : Backend) (book_id : Z)
    (u : main.BookUpdateIn) (w : World) :
  id_key (store w) -> id_key (store (main.update_book pg book_id u w).2).
Proof.
  intros Hk. rewrite update_book_unfold.
  pose proof (read_only_check_author (main.up_author_id u) w) as Hro.
  destruct (main.check_author (main.up_author_id u) w) as [[[]|e] w1];
    cbn [snd] in Hro; [|cbn [snd]; by rewrite Hro].
  pose proof (read_only_validate_categories
                (truthy_list (main.up_category_ids u)) w1) as Hro2.
  destruct (main.validate_categories _ w1) as [[[]|e] w2];
    cbn [snd] in Hro2; [|cbn [snd]; by rewrite Hro2, Hro].
  rewrite <- Hro, <- Hro2 in Hk.
  pose proof (update_book_keeps_id_key pg book_id (main.up_title u)
                (main.up_description u) (main.up_price u) (main.up_author_id u)
                (main.up_published_date u) (main.up_category_ids u) w2 Hk) as Hk3.
  destruct (db.update_book pg book_id _ _ _ _ _ _ w2) as [[[r|]|e] w3];
    cbn [snd] in Hk3; try exact Hk3.
  by rewrite read_only_get_book_by_id.
Qed.

Lemma delete_endpoint_keeps_id_key (pg : Backend) (book_id : Z) (w : World) :
  id_key (store w) -> id_key (store (main.delete_book pg book_id w).2).
Proof.
  intros Hk. rewrite delete_endpoint_unfold.
  pose proof (delete_book_keeps_id_key pg book_id w Hk) as Hk'.
  by destruct (db.delete_book pg book_id w) as [[[]|e] w'].
Qed.

(** The listing route writes to [logs] at most. *)
Lemma list_books_route_frame (pg : Backend) (a c : option Z)
    (q : option string) (limit offset : Z) (user_id : option Z) (w : World) :
  let s' := store (main.list_books_route pg a c q limit offset user_id w).2 in
  authors s' = authors (store w) /\ categories s' = categories (store w)
  /\ books s' = books (store w)
  /\ book_categories s' = book_categories (store w)
  /\ books_id_seq s' = books_id_seq (store w).
Proof.
  unfold main.list_books_route, main.list_books, bind.
  destruct (main.query_ok limit offset); [|repeat split].
  pose proof (list_books_store pg a c q limit offset w) as Hst.
  destruct (db.list_books pg a c q limit offset w) as [[books|e] w1];
    cbn [snd] in Hst; [|cbn [snd]; rewrite Hst; repeat split].
  unfold ret. cbn [fst snd]. unfold default, from_option, id.
  cbn [app main.run_background].
  unfold db.log_action, execute, db.insert_log.
  destruct (logs_check pg (store w1) _); cbn [snd store]; rewrite <- Hst;
    repeat split.
Qed.

(** X10: serving any sequence of requests to the book endpoints, whatever
    their arguments and however each ends, keeps [books.id] a key whose
    values lie below the sequence. *)
Theorem serve_keeps_id_key (pg : Backend) (calls : list call) (w : World) :
  id_key (store w) -> id_key (store (foldl (serve pg) w calls)).
Proof.
  revert w. induction calls as [|c calls IH]; intros w Hk; [exact Hk|].
  simpl. apply IH. destruct c as [book|id|id u|id|a c q limit offset uid];
    cbn [serve].
  - by apply create_endpoint_keeps_id_key.
  - by rewrite (proj2 (get_book_unfold id w)).
  - by apply update_endpoint_keeps_id_key.
  - by apply delete_endpoint_keeps_id_key.
  - destruct (list_books_route_frame pg a c q limit offset uid w)
      as (_ & _ & Hb & _ & Hq).
    destruct Hk as [Hnd Hle]. unfold id_key. cbv zeta in Hb, Hq.
    rewrite Hb, Hq. by split.
Qed.

(** ** Listing: pages *)

(** What [list_books] returns for counts that are not negative. *)
Lemma list_books_value (pg : Backend) (a c : option Z) (q : option string)
    (limit offset : Z) (w : World) :
  0 <= limit -> 0 <= offset ->
  (db.list_books pg a c q limit offset w).1
  = let rows := primary_rows pg a c q limit offset (store w) in
    Return (attach (db.categories_of_books pg
                      ((fun r => b_id (lr_book r)) <$> rows) (store w))
              <$> rows).
Proof.
  intros Hl Ho. rewrite (list_books_run pg a c q limit offset w Hl Ho).
  cbv zeta. by destruct (primary_rows pg a c q limit offset (store w)).
Qed.

(** X11: [GET /books/] never answers with more books than [limit], and so
    never with more than 100: a request outside [0 < limit <= 100],
    [0 <= offset] is refused before the database is asked. *)
Theorem list_books_route_at_most_limit (pg : Backend) (a c : option Z)
    (q : option string) (limit offset : Z) (user_id : option Z) (w : World)
    (books : list BookFull) :
  (main.list_books_route pg a c q limit offset user_id w).1 = Return books ->
  (length books <= Z.to_nat limit)%nat /\ 0 < limit <= 100 /\ 0 <= offset.
Proof.
  unfold main.list_books_route, main.list_books, bind.
  destruct (main.query_ok limit offset) eqn:Hq; [|discriminate].
  unfold main.query_ok in Hq.
  apply andb_true_iff in Hq as [Hq Ho]. apply andb_true_iff in Hq as [Hl Hu].
  apply Z.ltb_lt in Hl. apply Z.leb_le in Hu, Ho.
  pose proof (list_books_value pg a c q limit offset w ltac:(lia) Ho) as Hv.
  cbv zeta in Hv.
  destruct (db.list_books pg a c q limit offset w) as [[bs|e] w1];
    cbn [fst] in Hv; [|discriminate].
  unfold ret. cbn [fst]. intros [= <-]. injection Hv as ->.
  split; [|lia]. rewrite length_fmap, primary_rows_page by lia.
  rewrite length_take. lia.
Qed.

Lemma row_title_le_trans (pg : Backend) :
  collation_order pg -> Transitive (db.row_title_le pg).
Proof.
  intros (_ & Htr & _) x y z.
  unfold db.row_title_le, db.title_le, db.null_last_leb.
  destruct (b_title (lr_book x)) as [tx|], (b_title (lr_book y)) as [ty|],
    (b_title (lr_book z)) as [tz|]; simpl; try tauto.
  intros Hxy Hyz. apply Is_true_true. apply Is_true_true in Hxy, Hyz. eauto.
Qed.

Lemma row_title_le_same_title (pg : Backend) (x y : ListRow) :
  collation_order pg ->
  db.row_title_le pg x y -> db.row_title_le pg y x ->
  b_title (lr_book x) = b_title (lr_book y).
Proof.
  intros (_ & _ & Has).
  unfold db.row_title_le, db.title_le, db.null_last_leb.
  destruct (b_title (lr_book x)) as [tx|], (b_title (lr_book y)) as [ty|];
    simpl; try tauto.
  intros Hxy Hyx. apply Is_true_true in Hxy, Hyx. f_equal. eauto.
Qed.

Lemma NoDup_fmap_eq {A B} (f : A -> B) (l : list A) (x y : A) :
  NoDup (f <$> l) -> x ∈ l -> y ∈ l -> f x = f y -> x = y.
Proof.
  induction l as [|z l IH]; intros Hnd Hx Hy Hf;
    [by apply not_elem_of_nil in Hx|].
  rewrite fmap_cons in Hnd. apply NoDup_cons in Hnd as [Hz Hnd].
  apply elem_of_cons in Hx as [->|Hx], Hy as [->|Hy]; [reflexivity| | |by apply IH].
  - exfalso. apply Hz. rewrite Hf. by apply list_elem_of_fmap_2.
  - exfalso. apply Hz. rewrite <- Hf. by apply list_elem_of_fmap_2.
Qed.

(** When no two selected books carry the same title, the sorted rows do not
    depend on the order in which the plan produced them. *)
Lemma sorted_rows_unique (pg : Backend) (a c : option Z) (q : option string)
    (s : Store) (sql1 sql2 : Stmt) :
  store_integrity s -> collation_order pg ->
  NoDup (b_title <$> filter (fun b => book_matches pg a c q s b) (books s)) ->
  merge_sort (db.row_title_le pg) (scan pg _ sql1 (selected_rows pg a c q s))
  = merge_sort (db.row_title_le pg) (scan pg _ sql2 (selected_rows pg a c q s)).
Proof.
  intros Hint Hord Hnd.
  pose proof (row_title_le_trans pg Hord) as Htrans.
  pose proof (row_title_le_total pg (proj1 Hord)) as Htot.
  apply (Sorted_unique_strong (db.row_title_le pg)).
  - intros x y Hx Hy Hxy Hyx.
    rewrite merge_sort_Permutation, scan_perm in Hx, Hy.
    apply (NoDup_fmap_eq (fun r => b_title (lr_book r))
             (selected_rows pg a c q s)); [|assumption..|].
    + rewrite (list_fmap_compose lr_book b_title).
      by rewrite selected_books.
    + by apply (row_title_le_same_title pg).
  - by apply Sorted_merge_sort.
  - by apply Sorted_merge_sort.
  - by rewrite !merge_sort_Permutation, !scan_perm.
Qed.

(** A row listed by two calls gets the same book from both, the categories
    up to their order. *)
Lemma attach_same_book (pg : Backend) (s : Store) (rows rows' : list ListRow)
    (x : ListRow) :
  x ∈ rows -> x ∈ rows' ->
  let cats l :=
    db.categories_of_books pg ((fun r => b_id (lr_book r)) <$> l) s in
  bk (attach (cats rows) x) = bk (attach (cats rows') x)
  /\ author_name (attach (cats rows) x) = author_name (attach (cats rows') x)
  /\ bk_categories (attach (cats rows) x)
     ≡ₚ bk_categories (attach (cats rows') x).
Proof.
  intros Hx Hx' cats. split; [reflexivity|]. split; [reflexivity|].
  unfold attach, cats. cbn [bk_categories].
  rewrite !categories_of_books_of; [reflexivity| |];
    apply list_elem_of_fmap; eauto.
Qed.

(** X12: consecutive pages concatenate when the titles decide the order:
    on a store that respects the keys and references of the data model,
    with a collation that is a total order and no two books that pass the
    filters carrying the same title, the books of the page [limit1] at
    [offset] followed by those of the page [limit2] at [offset + limit1]
    are the books of the page [limit1 + limit2] at [offset], in the same
    order, the categories of each book up to their order. *)
Theorem list_books_pages_concatenate (pg : Backend) (a c : option Z)
    (q : option string) (limit1 limit2 offset : Z) (w w1 w2 : World) :
  store_integrity (store w) -> collation_order pg ->
  NoDup (b_title <$> filter (fun b => book_matches pg a c q (store w) b)
                            (books (store w))) ->
  0 <= limit1 -> 0 <= limit2 -> 0 <= offset ->
  store w1 = store w -> store w2 = store w ->
  exists page1 page2 both,
    (db.list_books pg a c q limit1 offset w).1 = Return page1
    /\ (db.list_books pg a c q limit2 (offset + limit1) w1).1 = Return page2
    /\ (db.list_books pg a c q (limit1 + limit2) offset w2).1 = Return both
    /\ same_books (page1 ++ page2) both.
Proof.
  intros Hint Hord Hnd H1 H2 Ho Hw1 Hw2.
  rewrite !list_books_value by lia. rewrite Hw1, Hw2. cbv zeta.
  do 3 eexists. repeat (split; [reflexivity|]).
  set (sorted := merge_sort (db.row_title_le pg)
                   (scan pg _ (db.list_books_sql a c q limit1 offset)
                      (selected_rows pg a c q (store w)))).
  assert (primary_rows pg a c q limit1 offset (store w)
          = take (Z.to_nat limit1) (drop (Z.to_nat offset) sorted)) as E1.
  { by rewrite primary_rows_page by lia. }
  assert (primary_rows pg a c q limit2 (offset + limit1) (store w)
          = take (Z.to_nat limit2)
              (drop (Z.to_nat limit1) (drop (Z.to_nat offset) sorted))) as E2.
  { rewrite primary_rows_page by lia.
    rewrite (sorted_rows_unique pg a c q (store w) _
               (db.list_books_sql a c q limit1 offset) Hint Hord Hnd).
    fold sorted. by rewrite drop_drop, Z2Nat.inj_add by lia. }
  assert (primary_rows pg a c q (limit1 + limit2) offset (store w)
          = primary_rows pg a c q limit1 offset (store w)
            ++ primary_rows pg a c q limit2 (offset + limit1) (store w)) as E3.
  { rewrite E1, E2, take_take_drop. rewrite primary_rows_page by lia.
    rewrite (sorted_rows_unique pg a c q (store w) _
               (db.list_books_sql a c q limit1 offset) Hint Hord Hnd).
    fold sorted. by rewrite Z2Nat.inj_add by lia. }
  set (rows1 := primary_rows pg a c q limit1 offset (store w)) in *.
  set (rows2 := primary_rows pg a c q limit2 (offset + limit1) (store w)) in *.
  rewrite E3, fmap_app. unfold same_books.
  apply Forall2_app; apply Forall2_fmap, Forall_Forall2_diag, Forall_forall;
    intros x Hx; apply (attach_same_book pg (store w)); try exact Hx;
    apply elem_of_app; [by left | by right].
Qed.

(** ** Listing and reading agree *)

Lemma bind_const_nil {A B} (l : list A) : l ≫= (fun _ => @nil B) = [].
Proof. induction l as [|x l IH]; [reflexivity|]. by rewrite bind_cons, IH. Qed.

Lemma Permutation_of_eq {A} (l k : list A) : l = k -> l ≡ₚ k.
Proof. by intros ->. Qed.

Lemma bind_app_Permutation {A B} (g h : A -> list B) (l : list A) :
  l ≫= (fun x => g x ++ h x) ≡ₚ (l ≫= g) ++ (l ≫= h).
Proof.
  induction l as [|x l IH]; [reflexivity|].
  rewrite !bind_cons, IH, <- !app_assoc. apply Permutation_app_head.
  rewrite !app_assoc. apply Permutation_app_tail, Permutation_app_comm.
Qed.

(** Two nested loops may be swapped, up to the order of the results. *)
Lemma bind_swap_Permutation {A B C} (f : A -> B -> list C)
    (l : list A) (k : list B) :
  l ≫= (fun x => k ≫= (fun y => f x y))
  ≡ₚ k ≫= (fun y => l ≫= (fun x => f x y)).
Proof.
  induction l as [|x l IH].
  - change (k ≫= (fun y => [] ≫= (fun x => f x y)))
      with (k ≫= (fun _ : B => @nil C)).
    by rewrite bind_const_nil.
  - rewrite bind_cons, IH.
    rewrite <- (bind_app_Permutation (fun y => f x y)
                  (fun y => l ≫= (fun x => f x y)) k).
    apply Permutation_of_eq. apply list_bind_ext; [|reflexivity].
    intros y. by rewrite bind_cons.
Qed.

Lemma fmap_filter_as_bind {A B} (P : A -> Prop) `{!forall x, Decision (P x)}
    (g : A -> B) (l : list A) :
  g <$> filter P l = l ≫= (fun x => if decide (P x) then [g x] else []).
Proof.
  induction l as [|x l IH]; [reflexivity|].
  rewrite bind_cons, <- IH. destruct (decide (P x)).
  - by rewrite filter_cons_True.
  - by rewrite filter_cons_False.
Qed.

Lemma bind_filter_as_bind {A B} (P : A -> Prop) `{!forall x, Decision (P x)}
    (g : A -> list B) (l : list A) :
  filter P l ≫= g = l ≫= (fun x => if decide (P x) then g x else []).
Proof.
  induction l as [|x l IH]; [reflexivity|].
  rewrite bind_cons, <- IH. destruct (decide (P x)).
  - by rewrite filter_cons_True, bind_cons.
  - by rewrite filter_cons_False.
Qed.

(** The single-book query and the batched query give a book the same
    categories, up to their order. *)
Lemma categories_of_book_listed (book_id : Z) (s : Store) :
  db.categories_of_book book_id s ≡ₚ listed_categories book_id s.
Proof.
  unfold db.categories_of_book, listed_categories, associations.
  rewrite bind_filter_as_bind.
  rewrite (list_bind_ext
             (fun c => (fun _ : Z * Z => mkLite (c_id c) (c_name c))
                         <$> filter (fun bc : Z * Z => c_id c = bc.2 /\ bc.1 = book_id)
                                    (book_categories s))
             (fun c => book_categories s ≫= (fun bc =>
                if decide (bc.1 = book_id)
                then if decide (bc.2 = c_id c)
                     then [mkLite (c_id c) (c_name c)] else []
                else []))
             (categories s) (categories s)); [|intros c|reflexivity].
  - rewrite bind_swap_Permutation. apply Permutation_of_eq.
    apply list_bind_ext; [|reflexivity]. intros bc.
    destruct (decide (bc.1 = book_id)); [|by rewrite bind_const_nil].
    by rewrite fmap_filter_as_bind.
  - rewrite fmap_filter_as_bind. apply list_bind_ext; [|reflexivity].
    intros bc. destruct (decide (bc.1 = book_id)) as [Hid|Hid],
      (decide (bc.2 = c_id c)) as [Hc|Hc];
      destruct (decide (c_id c = bc.2 /\ bc.1 = book_id)) as [[? ?]|Hn];
      try reflexivity; try congruence.
    exfalso. apply Hn. split; congruence.
Qed.

Lemma elem_of_join (s : Store) (x : ListRow) :
  x ∈ db.books_join_authors s ->
  exists r a, r ∈ books s /\ a ∈ authors s /\ b_author_id r = Some (a_id a)
              /\ x = mkListRow r (a_name a).
Proof.
  intros Hx. apply list_elem_of_bind in Hx as (r & Hx & Hr).
  apply list_elem_of_fmap in Hx as (a & -> & Ha).
  apply list_elem_of_filter in Ha as [Hfk Ha]. eauto 10.
Qed.

Lemma primary_rows_in_join (pg : Backend) (a c : option Z) (q : option string)
    (limit offset : Z) (s : Store) (x : ListRow) :
  0 <= limit -> 0 <= offset ->
  x ∈ primary_rows pg a c q limit offset s -> x ∈ db.books_join_authors s.
Proof.
  intros Hl Ho. rewrite primary_rows_page by assumption. intros Hx.
  apply subseteq_take, subseteq_drop in Hx.
  rewrite merge_sort_Permutation, scan_perm in Hx.
  apply list_elem_of_fmap in Hx as ([y bc] & -> & Hy).
  apply list_elem_of_filter in Hy as [_ Hy].
  unfold listing_from, db.list_books_from in Hy. destruct c as [cid|].
  - apply list_elem_of_bind in Hy as (r & Hy & Hr).
    apply list_elem_of_fmap in Hy as (bc' & [= -> ->] & _). exact Hr.
  - apply list_elem_of_fmap in Hy as (r & [= -> ->] & Hr). exact Hr.
Qed.

(** X13: with [books.id] and [authors.id] keys, every book [list_books]
    returns is the book [get_book_by_id] finds under its id: the same row
    and author name, and the same categories up to their order. *)
Theorem list_books_agrees_with_get_book (pg : Backend) (a c : option Z)
    (q : option string) (limit offset : Z) (w : World) :
  NoDup (b_id <$> books (store w)) -> NoDup (a_id <$> authors (store w)) ->
  0 <= limit -> 0 <= offset ->
  exists result,
    (db.list_books pg a c q limit offset w).1 = Return result
    /\ Forall (fun bf =>
                 exists bf',
                   book_view (b_id (bk bf)) (store w) = Some bf'
                   /\ bk bf' = bk bf /\ author_name bf' = author_name bf
                   /\ bk_categories bf' ≡ₚ bk_categories bf)
              result.
Proof.
  intros Hb Ha Hl Ho. rewrite (list_books_value pg a c q limit offset w Hl Ho).
  cbv zeta. eexists. split; [reflexivity|].
  apply Forall_fmap, Forall_forall. intros x Hx.
  pose proof Hx as Hin.
  apply primary_rows_in_join, elem_of_join in Hx
    as (r & au & Hr & Hau & Hfk & ->); [|assumption..].
  unfold attach, book_view. cbn [bk author_name bk_categories lr_book
                                  lr_author_name compose].
  rewrite (join_rows_of_book _ r au Hb Ha Hr Hau Hfk). cbn [head].
  eexists. split; [reflexivity|]. cbn [bk author_name bk_categories lr_book
                                        lr_author_name].
  split; [reflexivity|]. split; [reflexivity|].
  rewrite categories_of_book_listed. symmetry.
  apply categories_of_books_of.
  apply list_elem_of_fmap. exists (mkListRow r (a_name au)).
  split; [reflexivity | exact Hin].
Qed.

(** * Authors, categories and users *)

Lemma with_catalog_same (d : Directory) : Database.with_catalog d (catalog d) = d.
Proof. by destruct d. Qed.

Lemma get_author_by_id_run (author_id : Z) (w : Site) :
  Database.get_author_by_id author_id w
  = (Return (head (filter (fun a => a_id a = author_id)
                          (authors (catalog (directory w))))),
     mkSite (directory w)
       (sent w ++ [mkStmt "SELECT id, name, bio FROM authors WHERE id=$1"
                          [VInt author_id]])).
Proof.
  unfold Database.get_author_by_id, Database.lift, db.get_author_by_id, fetch.
  cbn [store issued]. by rewrite with_catalog_same.
Qed.

Lemma get_category_by_id_run (category_id : Z) (w : Site) :
  Database.get_category_by_id category_id w
  = (Return (head (filter (fun c => c_id c = category_id)
                          (categories (catalog (directory w))))),
     mkSite (directory w)
       (sent w ++ [mkStmt "SELECT id, name FROM categories WHERE id=$1"
                          [VInt category_id]])).
Proof.
  unfold Database.get_category_by_id, Database.lift, db.get_category_by_id, fetch.
  cbn [store issued]. by rewrite with_catalog_same.
Qed.

(** The row appended with an id above every stored id is the one the
    lookup by that id finds, and the lookup by any other id is as before. *)
Lemma head_filter_appended {A} (key : A -> Z) (l : list A) (row : A) :
  Forall (fun x => key x < key row) l ->
  head (filter (fun x => key x = key row) (l ++ [row])) = Some row
  /\ forall k, k <> key row ->
       head (filter (fun x => key x = k) (l ++ [row]))
       = head (filter (fun x => key x = k) l).
Proof.
  intros Hlt. split.
  - rewrite filter_app, filter_none.
    + by rewrite app_nil_l, filter_cons_True.
    + eapply Forall_impl; [exact Hlt|]. intros x Hx. simpl in Hx. lia.
  - intros k Hk. rewrite filter_app, filter_cons_False by (simpl; congruence).
    by rewrite filter_nil, app_nil_r.
Qed.

Lemma key_appended {A} (key : A -> Z) (l : list A) (row : A) (seq : Z) :
  NoDup (key <$> l) -> Forall (fun x => key x <= seq) l -> key row = seq + 1 ->
  NoDup (key <$> (l ++ [row]))
  /\ Forall (fun x => key x <= seq + 1) (l ++ [row])
  /\ Forall (fun x => key x < key row) l
  /\ ~ (key row ∈ key <$> l).
Proof.
  intros Hnd Hle Hrow.
  assert (Forall (fun x => key x < key row) l) as Hlt.
  { eapply Forall_impl; [exact Hle|]. intros x Hx. simpl in Hx. lia. }
  assert (~ (key row ∈ key <$> l)) as Hfresh.
  { intros Hin. apply list_elem_of_fmap in Hin as (x & Hk & Hx).
    rewrite Forall_forall in Hlt. specialize (Hlt x Hx). lia. }
  split; [|split; [|split; assumption]].
  - rewrite fmap_app. apply NoDup_app. split; [exact Hnd|].
    split; [|apply NoDup_singleton].
    intros k Hk Hk'. apply list_elem_of_singleton in Hk'. simpl in Hk'.
    subst k. by apply Hfresh.
  - apply Forall_app. split.
    + eapply Forall_impl; [exact Hle|]. intros x Hx. simpl in Hx. lia.
    + apply Forall_singleton. lia.
Qed.

(** ** Authors *)

(** X14: when [POST /authors/] answers, on a store whose author ids came
    from the sequence: the author carries the next id of the sequence (an
    id no stored author has) and the supplied name and bio; [authors] has
    grown by exactly that row and nothing else has changed;
    [GET /authors/{id}] on the new id answers with the same author, lookups
    by any other id are as before; and the ids still come from the
    sequence. *)
Theorem create_author_round_trip (dpg : DirectoryBackend)
    (author : app.AuthorIn) (w w' : Site) (row : AuthorRow) :
  author_key (directory w) ->
  app.create_author dpg author w = (Return row, w') ->
  row = mkAuthor (authors_id_seq (directory w) + 1) (app.name author)
                 (app.bio author)
  /\ ~ (a_id row ∈ a_id <$> authors (catalog (directory w)))
  /\ authors (catalog (directory w')) = authors (catalog (directory w)) ++ [row]
  /\ Database.with_authors (catalog (directory w'))
       (authors (catalog (directory w))) = catalog (directory w)
  /\ users (directory w') = users (directory w)
  /\ (app.get_author (a_id row) w').1 = Return row
  /\ (forall id, id <> a_id row ->
        (Database.get_author_by_id id w').1
        = (Database.get_author_by_id id w).1)
  /\ author_key (directory w').
Proof.
  intros [Hnd Hle]. unfold app.create_author, app.or_400, Database.create_author.
  cbv zeta. destruct (authors_check dpg _ _); [|discriminate].
  intros [= <- <-]. cbn [directory catalog users authors authors_id_seq
                         Database.with_authors].
  set (row := mkAuthor _ _ _).
  destruct (key_appended a_id (authors (catalog (directory w))) row
              (authors_id_seq (directory w)) Hnd Hle eq_refl)
    as (Hnd' & Hle' & Hlt & Hfresh).
  destruct (head_filter_appended a_id _ row Hlt) as [Hget Hother].
  split; [reflexivity|]. split; [exact Hfresh|]. split; [reflexivity|].
  split; [by destruct (catalog (directory w))|]. split; [reflexivity|].
  split; [|split].
  - unfold app.get_author, app.or_404. rewrite get_author_by_id_run.
    unfold Database.with_authors. cbn [directory catalog authors].
    by rewrite Hget.
  - intros id Hid. rewrite !get_author_by_id_run.
    unfold Database.with_authors. cbn [fst directory catalog authors].
    by rewrite (Hother id Hid).
  - split; assumption.
Qed.

(** X15: [POST /authors/] fails in one way only: the 400 whose detail is
    the text of the driver's exception for the INSERT; no row has been
    added to any table. *)
Theorem create_author_failure_is_400 (dpg : DirectoryBackend)
    (author : app.AuthorIn) (w : Site) :
  let run := app.create_author dpg author w in
  forall e, run.1 = Raise e ->
    e = HTTPException 400
          (exn_str dpg
             (PostgresError
                (mkStmt "INSERT INTO authors(name, bio) VALUES ($1, $2) RETURNING id, name, bio"
                        [VText (app.name author); opt_val VText (app.bio author)])))
    /\ catalog (directory run.2) = catalog (directory w)
    /\ users (directory run.2) = users (directory w).
Proof.
  unfold app.create_author, app.or_400, Database.create_author. cbv zeta.
  destruct (authors_check dpg _ _); cbn [fst snd]; intros e [= <-].
  repeat split.
Qed.

Lemma author_name_le_total (dpg : DirectoryBackend) :
  name_order_total dpg -> Total (Database.author_name_le dpg).
Proof.
  intros Ht x y. unfold Database.author_name_le.
  destruct (Ht (a_name x) (a_name y)) as [H|H]; rewrite H; simpl; auto.
Qed.

(** X16: with a total collation, [GET /authors/] answers with every stored
    author exactly once, in ascending order of name, and changes nothing. *)
Theorem list_authors_sorted (dpg : DirectoryBackend) (w : Site) :
  name_order_total dpg ->
  exists result,
    (app.list_authors dpg w).1 = Return result
    /\ result ≡ₚ authors (catalog (directory w))
    /\ Sorted (Database.author_name_le dpg) result
    /\ directory (app.list_authors dpg w).2 = directory w.
Proof.
  intros Ht. unfold app.list_authors, Database.list_authors. cbn [fst snd].
  eexists. split; [reflexivity|]. split; [apply merge_sort_Permutation|].
  split; [|reflexivity]. apply Sorted_merge_sort. by apply author_name_le_total.
Qed.

(** X17: [GET /authors/{id}] raises the 404 "Author not found" exactly when
    no stored author has the id; otherwise it answers with a stored author
    of that id.  It changes nothing either way. *)
Theorem get_author_not_found_iff (author_id : Z) (w : Site) :
  ((app.get_author author_id w).1
   = Raise (HTTPException 404 "Author not found")
   <-> ~ author_exists (catalog (directory w)) author_id)
  /\ (forall a, (app.get_author author_id w).1 = Return a ->
        a ∈ authors (catalog (directory w)) /\ a_id a = author_id)
  /\ directory (app.get_author author_id w).2 = directory w.
Proof.
  unfold app.get_author, app.or_404. rewrite get_author_by_id_run.
  destruct (head (filter (fun a => a_id a = author_id)
                         (authors (catalog (directory w))))) as [a|] eqn:Hh;
    cbn [fst snd directory].
  - split; [|split; [|reflexivity]].
    + split; [discriminate|]. intros Hno. exfalso. apply Hno.
      apply (proj1 (head_filter_is_Some (fun a => a_id a = author_id) _)).
      rewrite Hh. eauto.
    + intros a' [= <-]. by apply head_filter_elem in Hh.
  - split; [|split; [discriminate | reflexivity]].
    split; [|reflexivity]. intros _.
    exact (proj1 (head_filter_None (fun a => a_id a = author_id) _) Hh).
Qed.

(** ** Categories *)

(** X18: when [POST /categories/] answers, on a store whose category ids
    came from the sequence: the category carries the next id of the
    sequence (an id no stored category has) and the supplied name -
    whether or not a stored category already has that name -;
    [categories] has grown by exactly that row; [GET /categories/{id}] on
    the new id answers with the same category, lookups by any other id are
    as before; and the ids still come from the sequence. *)
Theorem create_category_round_trip (dpg : DirectoryBackend)
    (category : app.CategoryIn) (w w' : Site) (row : CategoryRow) :
  category_key (directory w) ->
  app.create_category dpg category w = (Return row, w') ->
  row = mkCategory (categories_id_seq (directory w) + 1)
                   (app.category_name category)
  /\ ~ (c_id row ∈ c_id <$> categories (catalog (directory w)))
  /\ categories (catalog (directory w'))
     = categories (catalog (directory w)) ++ [row]
  /\ users (directory w') = users (directory w)
  /\ (app.get_category (c_id row) w').1 = Return row
  /\ (forall id, id <> c_id row ->
        (Database.get_category_by_id id w').1
        = (Database.get_category_by_id id w).1)
  /\ category_key (directory w').
Proof.
  intros [Hnd Hle].
  unfold app.create_category, app.or_400, Database.create_category.
  cbv zeta. destruct (categories_check dpg _ _); [|discriminate].
  intros [= <- <-]. cbn [directory catalog users categories_id_seq].
  set (row := mkCategory _ _).
  destruct (key_appended c_id (categories (catalog (directory w))) row
              (categories_id_seq (directory w)) Hnd Hle eq_refl)
    as (Hnd' & Hle' & Hlt & Hfresh).
  destruct (head_filter_appended c_id _ row Hlt) as [Hget Hother].
  split; [reflexivity|]. split; [exact Hfresh|]. split; [reflexivity|].
  split; [reflexivity|]. split; [|split].
  - unfold app.get_category, app.or_404. rewrite get_category_by_id_run.
    unfold Database.with_categories. cbn [directory catalog categories].
    by rewrite Hget.
  - intros id Hid. rewrite !get_category_by_id_run.
    unfold Database.with_categories. cbn [fst directory catalog categories].
    by rewrite (Hother id Hid).
  - split; assumption.
Qed.

Lemma category_name_le_total (dpg : DirectoryBackend) :
  name_order_total dpg -> Total (Database.category_name_le dpg).
Proof.
  intros Ht x y. unfold Database.category_name_le.
  destruct (Ht (c_name x) (c_name y)) as [H|H]; rewrite H; simpl; auto.
Qed.

(** X19: with a total collation, [GET /categories/] answers with every
    stored category exactly once, in ascending order of name, and changes
    nothing. *)
Theorem list_categories_sorted (dpg : DirectoryBackend) (w : Site) :
  name_order_total dpg ->
  exists result,
    (app.list_categories dpg w).1 = Return result
    /\ result ≡ₚ categories (catalog (directory w))
    /\ Sorted (Database.category_name_le dpg) result
    /\ directory (app.list_categories dpg w).2 = directory w.
Proof.
  intros Ht. unfold app.list_categories, Database.list_categories.
  cbn [fst snd]. eexists. split; [reflexivity|].
  split; [apply merge_sort_Permutation|]. split; [|reflexivity].
  apply Sorted_merge_sort. by apply category_name_le_total.
Qed.

(** ** Users *)

(** X20: when [POST /users/] answers, on a store whose user ids came from
    the sequence: the user carries the next id of the sequence (an id no
    stored user has) and the supplied username and email; [users] has grown
    by exactly that row and the catalog is untouched; [GET /users/{id}] on
    the new id answers with the same user, lookups by any other id are as
    before; and the ids still come from the sequence. *)
Theorem create_user_round_trip (dpg : DirectoryBackend) (user : app.UserIn)
    (w w' : Site) (row : UserRow) :
  user_key (directory w) ->
  app.create_user dpg user w = (Return row, w') ->
  row = mkUser (users_id_seq (directory w) + 1) (app.username user)
               (app.email user)
  /\ ~ (u_id row ∈ u_id <$> users (directory w))
  /\ users (directory w') = users (directory w) ++ [row]
  /\ catalog (directory w') = catalog (directory w)
  /\ (app.get_user (u_id row) w').1 = Return row
  /\ (forall id, id <> u_id row ->
        (Database.get_user_by_id id w').1 = (Database.get_user_by_id id w).1)
  /\ user_key (directory w').
Proof.
  intros [Hnd Hle]. unfold app.create_user, app.or_400, Database.create_user.
  cbv zeta. destruct (users_check dpg _ _); [|discriminate].
  intros [= <- <-]. cbn [directory catalog users users_id_seq].
  set (row := mkUser _ _ _).
  destruct (key_appended u_id (users (directory w)) row
              (users_id_seq (directory w)) Hnd Hle eq_refl)
    as (Hnd' & Hle' & Hlt & Hfresh).
  destruct (head_filter_appended u_id _ row Hlt) as [Hget Hother].
  split; [reflexivity|]. split; [exact Hfresh|]. split; [reflexivity|].
  split; [reflexivity|]. split; [|split].
  - unfold app.get_user, app.or_404, Database.get_user_by_id.
    cbn [directory users fst]. by rewrite Hget.
  - intros id Hid. unfold Database.get_user_by_id.
    cbn [fst directory users]. by rewrite (Hother id Hid).
  - split; assumption.
Qed.

(** X21: [GET /categories/{id}] and [GET /users/{id}] raise their 404
    exactly when no stored row has the id, answer with a stored row of that
    id otherwise, and change nothing. *)
Theorem get_category_get_user_not_found_iff (id : Z) (w : Site) :
  ((app.get_category id w).1 = Raise (HTTPException 404 "Category not found")
   <-> ~ category_exists (catalog (directory w)) id)
  /\ (forall c, (app.get_category id w).1 = Return c ->
        c ∈ categories (catalog (directory w)) /\ c_id c = id)
  /\ directory (app.get_category id w).2 = directory w
  /\ ((app.get_user id w).1 = Raise (HTTPException 404 "User not found")
      <-> ~ exists u, u ∈ users (directory w) /\ u_id u = id)
  /\ (forall u, (app.get_user id w).1 = Return u ->
        u ∈ users (directory w) /\ u_id u = id)
  /\ directory (app.get_user id w).2 = directory w.
Proof.
  unfold app.get_category, app.get_user, app.or_404.
  rewrite get_category_by_id_run. unfold Database.get_user_by_id.
  split; [|split; [|split; [|split; [|split]]]].
  - destruct (head (filter (fun c => c_id c = id) _)) as [c|] eqn:Hh;
      cbn [fst].
    + split; [discriminate|]. intros Hno. exfalso. apply Hno.
      apply (proj1 (head_filter_is_Some (fun c => c_id c = id) _)).
      rewrite Hh. eauto.
    + split; [|reflexivity]. intros _.
      exact (proj1 (head_filter_None (fun c => c_id c = id) _) Hh).
  - destruct (head (filter (fun c => c_id c = id) _)) as [c|] eqn:Hh;
      cbn [fst]; [|discriminate].
    intros c' [= <-]. by apply head_filter_elem in Hh.
  - by destruct (head (filter (fun c => c_id c = id) _)).
  - destruct (head (filter (fun u => u_id u = id) _)) as [u|] eqn:Hh;
      cbn [fst].
    + split; [discriminate|]. intros Hno. exfalso. apply Hno.
      apply (proj1 (head_filter_is_Some (fun u => u_id u = id) _)).
      rewrite Hh. eauto.
    + split; [|reflexivity]. intros _.
      exact (proj1 (head_filter_None (fun u => u_id u = id) _) Hh).
  - destruct (head (filter (fun u => u_id u = id) _)) as [u|] eqn:Hh;
      cbn [fst]; [|discriminate].
    intros u' [= <-]. by apply head_filter_elem in Hh.
  - by destruct (head (filter (fun u => u_id u = id) _)).
Qed.

(** X22: [POST /categories/] and [POST /users/] fail in one way only: the
    400 whose detail is the text of the driver's exception for the INSERT;
    no row has been added to any table. *)
Theorem create_category_create_user_failure_is_400 (dpg : DirectoryBackend)
    (category : app.CategoryIn) (user : app.UserIn) (w : Site) :
  (forall e, (app.create_category dpg category w).1 = Raise e ->
     e = HTTPException 400
           (exn_str dpg
              (PostgresError
                 (mkStmt "INSERT INTO categories(name) VALUES ($1) RETURNING id, name"
                         [VText (app.category_name category)])))
     /\ catalog (directory (app.create_category dpg category w).2)
        = catalog (directory w)
     /\ users (directory (app.create_category dpg category w).2)
        = users (directory w))
  /\ (forall e, (app.create_user dpg user w).1 = Raise e ->
        e = HTTPException 400
              (exn_str dpg
                 (PostgresError
                    (mkStmt "INSERT INTO users(username, email) VALUES ($1, $2) RETURNING id, username, email"
                            [VText (app.username user); VText (app.email user)])))
        /\ catalog (directory (app.create_user dpg user w).2)
           = catalog (directory w)
        /\ users (directory (app.create_user dpg user w).2)
           = users (directory w)).
Proof.
  unfold app.create_category, app.create_user, app.or_400,
    Database.create_category, Database.create_user. cbv zeta.
  split.
  - destruct (categories_check dpg _ _); cbn [fst snd]; intros e [= <-].
    repeat split.
  - destruct (users_check dpg _ _); cbn [fst snd]; intros e [= <-].
    repeat split.
Qed.

(** * Updating, then reading *)

(** X23: when [PUT /books/{id}] answers with a book, on a store where
    [books.id] is a key: the id had a stored row, the row of the answer is
    that row with the supplied columns set, and [GET /books/{id}]
    afterwards answers with the same book. *)
Theorem update_book_then_get (pg : Backend) (book_id : Z)
    (u : main.BookUpdateIn) (w w' : World) (bf : BookFull) :
  NoDup (b_id <$> books (store w)) ->
  main.update_book pg book_id u w = (Return (Some bf), w') ->
  (exists r, find_book book_id (store w) = Some r
             /\ bk bf = db.set_columns (main.up_title u) (main.up_description u)
                          (main.up_price u) (main.up_author_id u)
                          (main.up_published_date u) r)
  /\ (main.get_book book_id w').1 = Return bf.
Proof.
  intros Hnd Hrun. rewrite update_book_unfold in Hrun.
  pose proof (read_only_check_author (main.up_author_id u) w) as Hro.
  destruct (main.check_author (main.up_author_id u) w) as [[[]|e] w1];
    cbn [snd] in Hro; [|discriminate].
  pose proof (read_only_validate_categories
                (truthy_list (main.up_category_ids u)) w1) as Hro2.
  destruct (main.validate_categories _ w1) as [[[]|e] w2];
    cbn [snd] in Hro2; [|discriminate].
  destruct (db.update_book pg book_id _ _ _ _ _ _ w2) as [o3 w3] eqn:E3.
  apply update_book_spec in E3.
  destruct o3 as [[row|]|e]; [|discriminate|discriminate].
  destruct E3 as (_ & Hbooks & _). rewrite Hro2, Hro in Hbooks.
  pose proof (get_book_by_id_value book_id w3) as Hv.
  pose proof (read_only_get_book_by_id book_id w3) as Hro3.
  rewrite Hrun in Hv, Hro3. cbn [fst snd] in Hv, Hro3.
  injection Hv as Hview. symmetry in Hview. split.
  - unfold book_view in Hview.
    destruct (head (filter _ (db.books_join_authors (store w3))))
      as [x|] eqn:Hh; [|discriminate].
    injection Hview as <-. cbn [bk].
    apply head_filter_elem in Hh as [Hx Hid].
    apply elem_of_join in Hx as (r' & a & Hr' & _ & _ & ->).
    cbn [lr_book] in *. rewrite Hbooks in Hr'. unfold patched in Hr'.
    apply list_elem_of_fmap in Hr' as (r0 & Hr0 & Hin).
    assert (b_id r0 = book_id) as Hid0.
    { rewrite Hr0 in Hid. by destruct (decide (b_id r0 = book_id)). }
    exists r0. split.
    + unfold find_book.
      by rewrite (filter_key_singleton b_id _ _ r0 Hnd Hin)
        by (intros x; by rewrite Hid0).
    + rewrite Hr0. by destruct (decide (b_id r0 = book_id)).
  - destruct (get_book_unfold book_id w') as [-> _].
    by rewrite Hro3, Hview.
Qed.

(** * An author, then a book of that author *)

Lemma lift_fst {A} (m : IO A) (w : Site) :
  (Database.lift m w).1 = (m (mkWorld (catalog (directory w)) (sent w))).1.
Proof. unfold Database.lift. by destruct (m _). Qed.

Lemma insert_loop_raises (pg : Backend) (book_id : Z) (cids : list Z)
    (w w' : World) (e : Exn) :
  for_each cids (fun cid =>
    execute (mkStmt db.insert_book_category_sql [VInt book_id; VInt cid])
            (db.insert_book_category pg book_id cid)) w = (Raise e, w') ->
  exists q, e = PostgresError q.
Proof.
  revert w. induction cids as [|cid cids IH]; intros w; simpl; [discriminate|].
  unfold bind at 1, execute at 1.
  destruct (db.insert_book_category pg book_id cid (store w)).
  - apply IH.
  - intros [= <- _]. eauto.
Qed.

(** Whatever [create_book] raises is an exception of the driver. *)
Lemma create_book_raises_postgres (pg : Backend) (t d : string) (p : float)
    (a : Z) (pd : date) (cids : list Z) (w w' : World) (e : Exn) :
  db.create_book pg t d p a pd cids w = (Raise e, w') ->
  exists q, e = PostgresError q.
Proof.
  unfold db.create_book, transaction.
  unfold bind at 1 2. unfold execute at 1.
  destruct (db.insert_book pg t d p a pd (store w)) as [row s1|s1].
  - unfold bind at 1.
    match goal with |- context [for_each cids ?b ?w1] =>
      destruct (for_each cids b w1) as [[[]|e1] w1'] eqn:E end.
    + discriminate.
    + apply insert_loop_raises in E as [q ->]. intros [= <- _]. eauto.
  - intros [= <- _]. eauto.
Qed.

(** X24: an author just created is accepted by the book endpoint: on a
    store whose author and book ids came from their sequences, after
    [POST /authors/] has answered with an author, [POST /books/] with that
    author's id and category ids that all resolve either answers with a
    book that carries the author's id and name, or raises an exception of
    the driver - never the 400 of the validation. *)
Theorem create_author_then_create_book (dpg : DirectoryBackend) (pg : Backend)
    (author : app.AuthorIn) (book : main.BookIn) (w w1 : Site)
    (row : AuthorRow) :
  author_key (directory w) -> id_key (catalog (directory w)) ->
  app.create_author dpg author w = (Return row, w1) ->
  main.author_id book = a_id row ->
  Forall (category_exists (catalog (directory w))) (main.category_ids book) ->
  (exists bf,
     (Database.lift (main.create_book pg book) w1).1 = Return (Some bf)
     /\ author_name bf = a_name row
     /\ b_author_id (bk bf) = Some (a_id row))
  \/ (exists q,
        (Database.lift (main.create_book pg book) w1).1
        = Raise (PostgresError q)).
Proof.
  intros [Hnd Hle] [Hbnd Hble] Hcreate Hauthor Hcats.
  unfold app.create_author, app.or_400, Database.create_author in Hcreate.
  cbv zeta in Hcreate.
  destruct (authors_check dpg _ _); [|discriminate].
  injection Hcreate as <- <-. set (row := mkAuthor _ _ _) in *.
  destruct (key_appended a_id (authors (catalog (directory w))) row
              (authors_id_seq (directory w)) Hnd Hle eq_refl)
    as (_ & _ & Hlt & _).
  destruct (head_filter_appended a_id _ row Hlt) as [Hget _].
  rewrite lift_fst. cbn [directory catalog sent].
  set (s1 := Database.with_authors (catalog (directory w))
               (authors (catalog (directory w)) ++ [row])).
  assert (authors s1 = authors (catalog (directory w)) ++ [row]
          /\ categories s1 = categories (catalog (directory w))
          /\ books s1 = books (catalog (directory w))
          /\ books_id_seq s1 = books_id_seq (catalog (directory w)))
    as (HA & HC & HB & HQ) by repeat split.
  rewrite create_book_unfold. cbv zeta. cbn [store issued].
  rewrite Hauthor, HA, Hget.
  rewrite validate_categories_all_exist
    by (cbn [store]; unfold category_exists in *; by rewrite HC).
  cbn [store issued].
  match goal with |- context [db.create_book pg ?t ?d ?p ?a ?pd ?cs ?w0] =>
    destruct (db.create_book pg t d p a pd cs w0) as [[r|e] w3] eqn:E3 end.
  - left. apply create_book_spec in E3. cbn [store] in E3.
    destruct E3 as (Hr & Hbooks & _ & Hauthors & _).
    pose proof (get_book_by_id_value (b_id r) w3) as Hv.
    destruct (db.get_book_by_id (b_id r) w3) as [o4 w4]. cbn [fst] in *.
    subst o4.
    assert (Forall (fun x => b_id x < b_id r) (books s1)) as Hblt.
    { rewrite HB. eapply Forall_impl; [exact Hble|]. intros x Hx.
      simpl in Hx. rewrite Hr, HQ. simpl. lia. }
    assert (b_author_id r = Some (a_id row)) as Hfk
      by (by rewrite Hr).
    assert (head (filter (fun a => a_id a = a_id row) (authors s1)) = Some row)
      as Hhead by (by rewrite HA).
    rewrite (book_view_appended s1 (store w3) r row _ Hblt Hbooks Hauthors
               Hfk Hhead).
    eexists. split; [reflexivity|]. split; [reflexivity | exact Hfk].
  - right. apply create_book_raises_postgres in E3 as [q ->]. eauto.
Qed.

(** * The listing query binds its filters *)

(** X25: the values of [author_id], [category_id] and [search] never reach
    the text of the listing query: two calls with the same filters present
    and the same [limit] and [offset] produce the same text, and each call
    binds exactly the values of its active filters, in the order author,
    category, search (an empty search phrase is not a filter). *)
Theorem list_books_sql_binds_filters (a a' c c' : option Z)
    (q q' : option string) (limit offset : Z) :
  (is_Some a <-> is_Some a') -> (is_Some c <-> is_Some c') ->
  (is_Some (truthy_str q) <-> is_Some (truthy_str q')) ->
  text (db.list_books_sql a c q limit offset)
  = text (db.list_books_sql a' c' q' limit offset)
  /\ args (db.list_books_sql a c q limit offset)
     = option_list (VInt <$> a) ++ option_list (VInt <$> c)
       ++ option_list (VText <$> truthy_str q)
  /\ args (db.list_books_sql a' c' q' limit offset)
     = option_list (VInt <$> a') ++ option_list (VInt <$> c')
       ++ option_list (VText <$> truthy_str q').
Proof.
  intros Ha Hc Hq. split; [by apply list_books_sql_text_filters|].
  split; apply list_books_sql_args.
Qed.

(** * The further properties at concrete inputs *)

Lemma demo_book_ids_distinct : NoDup (b_id <$> books (store demo_world)).
Proof. apply (bool_decide_unpack _). vm_compute. exact I. Defined.

Lemma demo_author_ids_distinct : NoDup (a_id <$> authors (store demo_world)).
Proof. apply (bool_decide_unpack _). vm_compute. exact I. Defined.

Lemma demo_id_key : id_key (store demo_world).
Proof.
  split; [exact demo_book_ids_distinct|].
  repeat constructor; simpl; lia.
Defined.

Lemma get_book_returns_stored_row_witness :
  dragons ∈ books (store demo_world)
  /\ b_author_id dragons = Some 1
  /\ (main.get_book 1 demo_world).1
     = Return (mkFull dragons "Ann" (db.categories_of_book 1 demo_store)).
Proof.
  assert (dragons ∈ books (store demo_world)) as Hr by left.
  assert (mkAuthor 1 "Ann" None ∈ authors (store demo_world)) as Ha by left.
  split; [exact Hr|]. split; [reflexivity|].
  exact (proj1 (get_book_returns_stored_row demo_world dragons
                  (mkAuthor 1 "Ann" None) demo_book_ids_distinct
                  demo_author_ids_distinct Hr Ha eq_refl)).
Defined.

Lemma create_book_round_trip_witness :
  id_key (store demo_world)
  /\ exists bf,
       (main.create_book demo_pg maps_of_winter demo_world).1 = Return (Some bf)
       /\ b_id (bk bf) = 3
       /\ books (store (main.create_book demo_pg maps_of_winter demo_world).2)
          = books (store demo_world) ++ [bk bf]
       /\ (main.get_book (b_id (bk bf))
             (main.create_book demo_pg maps_of_winter demo_world).2).1
          = Return bf.
Proof.
  split; [exact demo_id_key|].
  set (run := main.create_book demo_pg maps_of_winter demo_world).
  assert (exists bf, run = (Return (Some bf), run.2)) as [bf Hrun].
  { eexists. vm_compute. reflexivity. }
  destruct (create_book_round_trip demo_pg maps_of_winter demo_world run.2 bf
              demo_id_key Hrun) as (Hbk & _ & _ & _ & Hbooks & _ & Hget).
  exists bf. split; [by rewrite Hrun|]. split; [by rewrite Hbk|].
  split; [exact Hbooks | exact Hget].
Defined.

Lemma create_book_checks_author_first_witness :
  ~ author_exists (store demo_world) (main.author_id ghost_author_book)
  /\ (main.create_book demo_pg ghost_author_book demo_world).1
     = Raise (HTTPException 400 "Invalid author_id")
  /\ length (issued (main.create_book demo_pg ghost_author_book demo_world).2)
     = 1%nat.
Proof.
  assert (~ author_exists (store demo_world) (main.author_id ghost_author_book))
    as Hno.
  { intros (a & Ha & Hid). revert Hid.
    repeat (apply elem_of_cons in Ha as [->|Ha]; [discriminate|]).
    by apply not_elem_of_nil in Ha. }
  split; [exact Hno|].
  rewrite (create_book_checks_author_first demo_pg ghost_author_book
             demo_world Hno).
  split; reflexivity.
Defined.

Lemma create_book_names_first_missing_category_witness :
  author_exists (store demo_world) (main.author_id ghost_category_book)
  /\ main.category_ids ghost_category_book = [10; 11] ++ 99 :: [98]
  /\ (main.create_book demo_pg ghost_category_book demo_world).1
     = Raise (HTTPException 400 "Invalid category_id 99")
  /\ store (main.create_book demo_pg ghost_category_book demo_world).2
     = demo_store.
Proof.
  assert (author_exists (store demo_world) (main.author_id ghost_category_book))
    as Ha by (exists (mkAuthor 1 "Ann" None); split; [left | reflexivity]).
  assert (Forall (category_exists (store demo_world)) [10; 11]) as Hpre.
  { repeat constructor.
    - exists (mkCategory 10 "Fantasy"). split; [left | reflexivity].
    - exists (mkCategory 11 "History"). split; [right; left | reflexivity]. }
  assert (~ category_exists (store demo_world) 99) as Hc.
  { intros (c & Hin & Hid). revert Hid.
    repeat (apply elem_of_cons in Hin as [->|Hin]; [discriminate|]).
    by apply not_elem_of_nil in Hin. }
  split; [exact Ha|]. split; [reflexivity|].
  rewrite (create_book_names_first_missing_category demo_pg ghost_category_book
             [10; 11] [98] 99 demo_world Ha eq_refl Hpre Hc).
  split; reflexivity.
Defined.

Lemma update_book_core_binds_values_witness :
  text <$> issued (db.update_book_core demo_pg 1 (Some "Dragons") None None
                     (Some 2) None demo_world).2
  = text <$> issued (db.update_book_core demo_pg 2 (Some "x', price=0 --")
                       None None (Some 1) None demo_world).2.
Proof.
  assert (forall {A} (x y : A), is_Some (Some x) <-> is_Some (Some y)) as Hs
    by (intros; split; eauto).
  assert (forall A, is_Some (@None A) <-> is_Some (@None A)) as Hn
    by (intros; reflexivity).
  exact (proj1 (update_book_core_binds_values demo_pg 1 2
                  (Some "Dragons") (Some "x', price=0 --")
                  None None None None (Some 2) (Some 1) None None demo_world
                  (Hs _ _ _) (Hn _) (Hn _) (Hs _ _ _) (Hn _))).
Defined.

Lemma delete_endpoint_found_or_404_witness :
  NoDup (b_id <$> books (store demo_world))
  /\ (main.delete_book demo_pg 2 demo_world).1 = Return true
  /\ (main.delete_book demo_pg 99 demo_world).1
     = Raise (HTTPException 404 "Book not found").
Proof.
  split; [exact demo_book_ids_distinct|]. split.
  - apply (delete_endpoint_found_or_404 demo_pg 2 demo_world
             demo_book_ids_distinct).
    exists atlas. split; [right; left | reflexivity].
  - apply (delete_endpoint_found_or_404 demo_pg 99 demo_world
             demo_book_ids_distinct).
    intros (r & Hr & Hid). revert Hid.
    repeat (apply elem_of_cons in Hr as [->|Hr]; [discriminate|]).
    by apply not_elem_of_nil in Hr.
Defined.

Lemma serve_keeps_id_key_witness :
  id_key (store demo_world)
  /\ id_key (store (foldl (serve demo_pg) demo_world
                      [CreateBook maps_of_winter; DeleteBook 1;
                       UpdateBook 2 retitle; CreateBook ghost_author_book;
                       ListBooks None None None 10 0 None; GetBook 3])).
Proof.
  split; [exact demo_id_key|].
  exact (serve_keeps_id_key demo_pg _ demo_world demo_id_key).
Defined.

Lemma list_books_route_at_most_limit_witness :
  exists books,
    (main.list_books_route demo_pg None None None 1 0 None demo_world).1
    = Return books
    /\ (length books <= Z.to_nat 1)%nat.
Proof.
  assert (exists books,
            (main.list_books_route demo_pg None None None 1 0 None demo_world).1
            = Return books) as [books Hrun].
  { eexists. vm_compute. reflexivity. }
  exists books. split; [exact Hrun|].
  exact (proj1 (list_books_route_at_most_limit demo_pg None None None 1 0 None
                  demo_world books Hrun)).
Defined.

Lemma string_leb_trans (x y z : string) :
  String.leb x y = true -> String.leb y z = true -> String.leb x z = true.
Proof.
  unfold String.leb. revert y z.
  induction x as [|a x IH]; intros [|b y] [|c z]; simpl; try congruence.
  unfold Ascii.compare.
  destruct (N.compare_spec (Ascii.N_of_ascii a) (Ascii.N_of_ascii b)) as [Hab|Hab|Hab],
    (N.compare_spec (Ascii.N_of_ascii b) (Ascii.N_of_ascii c)) as [Hbc|Hbc|Hbc],
    (N.compare_spec (Ascii.N_of_ascii a) (Ascii.N_of_ascii c)) as [Hac|Hac|Hac];
    try congruence; try lia.
  apply IH.
Defined.

Lemma demo_collation_order : collation_order demo_pg.
Proof.
  split; [exact String.leb_total|].
  split; [exact string_leb_trans | exact String.leb_antisym].
Defined.

Lemma list_books_pages_concatenate_witness :
  store_integrity (store demo_world) /\ collation_order demo_pg
  /\ NoDup (b_title <$> filter (fun b => book_matches demo_pg None None None
                                            (store demo_world) b)
                               (books (store demo_world)))
  /\ 0 <= 1 /\ 0 <= 0
  /\ exists page1 page2 both,
       (db.list_books demo_pg None None None 1 0 demo_world).1 = Return page1
       /\ (db.list_books demo_pg None None None 1 (0 + 1) demo_world).1
          = Return page2
       /\ (db.list_books demo_pg None None None (1 + 1) 0 demo_world).1
          = Return both
       /\ same_books (page1 ++ page2) both.
Proof.
  assert (0 <= 1) as H1 by lia. assert (0 <= 0) as H0 by lia.
  assert (NoDup (b_title <$> filter (fun b => book_matches demo_pg None None None
                                                (store demo_world) b)
                                   (books (store demo_world)))) as Hnd.
  { apply (bool_decide_unpack _). vm_compute. exact I. }
  split; [exact demo_store_integrity|]. split; [exact demo_collation_order|].
  split; [exact Hnd|]. split; [exact H1|]. split; [exact H0|].
  exact (list_books_pages_concatenate demo_pg None None None 1 1 0 demo_world
           demo_world demo_world demo_store_integrity demo_collation_order Hnd
           H1 H1 H0 eq_refl eq_refl).
Defined.

Lemma list_books_agrees_with_get_book_witness :
  0 <= 50 /\ 0 <= 0
  /\ exists result,
       (db.list_books demo_pg None (Some 10) None 50 0 demo_world).1
       = Return result
       /\ Forall (fun bf =>
                    exists bf',
                      book_view (b_id (bk bf)) (store demo_world) = Some bf'
                      /\ bk bf' = bk bf /\ author_name bf' = author_name bf
                      /\ bk_categories bf' ≡ₚ bk_categories bf)
                 result.
Proof.
  assert (0 <= 50) as Hl by lia. assert (0 <= 0) as Ho by lia.
  split; [exact Hl|]. split; [exact Ho|].
  exact (list_books_agrees_with_get_book demo_pg None (Some 10) None 50 0
           demo_world demo_book_ids_distinct demo_author_ids_distinct Hl Ho).
Defined.

Lemma update_book_then_get_witness :
  NoDup (b_id <$> books (store demo_world))
  /\ exists bf,
       (main.update_book demo_pg 1 retitle demo_world).1 = Return (Some bf)
       /\ b_title (bk bf) = Some "Dragons"
       /\ (main.get_book 1 (main.update_book demo_pg 1 retitle demo_world).2).1
          = Return bf.
Proof.
  split; [exact demo_book_ids_distinct|].
  set (run := main.update_book demo_pg 1 retitle demo_world).
  assert (exists bf, run = (Return (Some bf), run.2)) as [bf Hrun].
  { eexists. vm_compute. reflexivity. }
  destruct (update_book_then_get demo_pg 1 retitle demo_world run.2 bf
              demo_book_ids_distinct Hrun) as [(r & Hr & Hbk) Hget].
  exists bf. split; [by rewrite Hrun|]. split; [by rewrite Hbk | exact Hget].
Defined.

Lemma list_books_sql_binds_filters_witness :
  text (db.list_books_sql (Some 1) None (Some "dragons") 50 0)
  = text (db.list_books_sql (Some 2) None (Some "x' OR 1=1 --") 50 0)
  /\ args (db.list_books_sql (Some 2) None (Some "x' OR 1=1 --") 50 0)
     = [VInt 2; VText "x' OR 1=1 --"].
Proof.
  assert (is_Some (Some 1) <-> is_Some (Some 2)) as Ha by (split; eauto).
  assert (is_Some (@None Z) <-> is_Some (@None Z)) as Hc by reflexivity.
  assert (is_Some (truthy_str (Some "dragons"))
          <-> is_Some (truthy_str (Some "x' OR 1=1 --"))) as Hq
    by (split; intros _; eexists; reflexivity).
  destruct (list_books_sql_binds_filters (Some 1) (Some 2) None None
              (Some "dragons") (Some "x' OR 1=1 --") 50 0 Ha Hc Hq)
    as (Ht & _ & Hargs).
  split; [exact Ht | exact Hargs].
Defined.

Lemma demo_author_key : author_key (directory demo_site).
Proof.
  split; [exact demo_author_ids_distinct|].
  repeat constructor; simpl; lia.
Defined.

Lemma demo_category_key : category_key (directory demo_site).
Proof.
  split; [apply (bool_decide_unpack _); vm_compute; exact I|].
  repeat constructor; simpl; lia.
Defined.

Lemma demo_user_key : user_key (directory demo_site).
Proof.
  split; [apply (bool_decide_unpack _); vm_compute; exact I|].
  repeat constructor; simpl; lia.
Defined.

Lemma demo_name_order_total : name_order_total demo_dpg.
Proof. exact String.leb_total. Defined.

Lemma create_author_round_trip_witness :
  author_key (directory demo_site)
  /\ (app.create_author demo_dpg carol demo_site).1
     = Return (mkAuthor 3 "Carol" None)
  /\ (app.get_author 3 (app.create_author demo_dpg carol demo_site).2).1
     = Return (mkAuthor 3 "Carol" None).
Proof.
  split; [exact demo_author_key|].
  set (run := app.create_author demo_dpg carol demo_site).
  assert (run = (Return (mkAuthor 3 "Carol" None), run.2)) as Hrun
    by (vm_compute; reflexivity).
  split; [by rewrite Hrun|].
  exact (proj1 (proj2 (proj2 (proj2 (proj2 (proj2
           (create_author_round_trip demo_dpg carol demo_site run.2 _
              demo_author_key Hrun))))))).
Defined.

Lemma create_author_failure_is_400_witness :
  (app.create_author closed_dpg carol demo_site).1
  = Raise (HTTPException 400
             "rejected: INSERT INTO authors(name, bio) VALUES ($1, $2) RETURNING id, name, bio")
  /\ catalog (directory (app.create_author closed_dpg carol demo_site).2)
     = catalog (directory demo_site).
Proof.
  assert ((app.create_author closed_dpg carol demo_site).1
          = Raise (HTTPException 400
                     "rejected: INSERT INTO authors(name, bio) VALUES ($1, $2) RETURNING id, name, bio"))
    as Hrun by (vm_compute; reflexivity).
  split; [exact Hrun|].
  exact (proj1 (proj2 (create_author_failure_is_400 closed_dpg carol demo_site
                         _ Hrun))).
Defined.

Lemma list_authors_sorted_witness :
  name_order_total demo_dpg
  /\ exists result,
       (app.list_authors demo_dpg demo_site).1 = Return result
       /\ result ≡ₚ authors (catalog (directory demo_site))
       /\ Sorted (Database.author_name_le demo_dpg) result
       /\ directory (app.list_authors demo_dpg demo_site).2
          = directory demo_site.
Proof.
  split; [exact demo_name_order_total|].
  exact (list_authors_sorted demo_dpg demo_site demo_name_order_total).
Defined.

Lemma create_category_round_trip_witness :
  category_key (directory demo_site)
  /\ (app.create_category demo_dpg (app.mkCategoryIn "Fantasy") demo_site).1
     = Return (mkCategory 12 "Fantasy")
  /\ (app.get_category 12
        (app.create_category demo_dpg (app.mkCategoryIn "Fantasy") demo_site).2).1
     = Return (mkCategory 12 "Fantasy").
Proof.
  split; [exact demo_category_key|].
  set (run := app.create_category demo_dpg (app.mkCategoryIn "Fantasy") demo_site).
  assert (run = (Return (mkCategory 12 "Fantasy"), run.2)) as Hrun
    by (vm_compute; reflexivity).
  split; [by rewrite Hrun|].
  exact (proj1 (proj2 (proj2 (proj2 (proj2
           (create_category_round_trip demo_dpg _ demo_site run.2 _
              demo_category_key Hrun)))))).
Defined.

Lemma list_categories_sorted_witness :
  name_order_total demo_dpg
  /\ exists result,
       (app.list_categories demo_dpg demo_site).1 = Return result
       /\ result ≡ₚ categories (catalog (directory demo_site))
       /\ Sorted (Database.category_name_le demo_dpg) result
       /\ directory (app.list_categories demo_dpg demo_site).2
          = directory demo_site.
Proof.
  split; [exact demo_name_order_total|].
  exact (list_categories_sorted demo_dpg demo_site demo_name_order_total).
Defined.

Lemma create_user_round_trip_witness :
  user_key (directory demo_site)
  /\ (app.create_user demo_dpg (app.mkUserIn "bob" "bob@example.org")
                      demo_site).1
     = Return (mkUser 2 "bob" "bob@example.org")
  /\ (app.get_user 2
        (app.create_user demo_dpg (app.mkUserIn "bob" "bob@example.org")
                         demo_site).2).1
     = Return (mkUser 2 "bob" "bob@example.org").
Proof.
  split; [exact demo_user_key|].
  set (run := app.create_user demo_dpg (app.mkUserIn "bob" "bob@example.org")
                              demo_site).
  assert (run = (Return (mkUser 2 "bob" "bob@example.org"), run.2)) as Hrun
    by (vm_compute; reflexivity).
  split; [by rewrite Hrun|].
  exact (proj1 (proj2 (proj2 (proj2 (proj2
           (create_user_round_trip demo_dpg _ demo_site run.2 _
              demo_user_key Hrun)))))).
Defined.

Lemma create_author_then_create_book_witness :
  author_key (directory demo_site) /\ id_key (catalog (directory demo_site))
  /\ ((exists bf,
         (Database.lift (main.create_book demo_pg (carols_book 3))
            (app.create_author demo_dpg carol demo_site).2).1
         = Return (Some bf)
         /\ author_name bf = "Carol"
         /\ b_author_id (bk bf) = Some 3)
      \/ (exists q,
            (Database.lift (main.create_book demo_pg (carols_book 3))
               (app.create_author demo_dpg carol demo_site).2).1
            = Raise (PostgresError q))).
Proof.
  split; [exact demo_author_key|]. split; [exact demo_id_key|].
  set (run := app.create_author demo_dpg carol demo_site).
  assert (run = (Return (mkAuthor 3 "Carol" None), run.2)) as Hrun
    by (vm_compute; reflexivity).
  assert (Forall (category_exists (catalog (directory demo_site)))
                 (main.category_ids (carols_book 3))) as Hcats.
  { repeat constructor. exists (mkCategory 10 "Fantasy").
    split; [left | reflexivity]. }
  exact (create_author_then_create_book demo_dpg demo_pg carol (carols_book 3)
           demo_site run.2 (mkAuthor 3 "Carol" None) demo_author_key demo_id_key
           Hrun eq_refl Hcats).
Defined.

(** The book of the new author is created. *)
Example carols_book_created :
  (Database.lift (main.create_book demo_pg (carols_book 3))
     (app.create_author demo_dpg carol demo_site).2).1
  = Return (Some (mkFull
              (mkBook 3 (Some "Carol's first") (Some "A debut") (Some 5%float)
                      (Some 3) (Some demo_date))
              "Carol" [mkLite 10 "Fantasy"])).
Proof. vm_compute. reflexivity. Qed.
